(** * R-swat: the Tox matrix generator [cicd/generate-tox-ini.py]

    A shallow embedding of the version comparator ([version_key],
    [expand_wildcards], [check_version]), the package query client
    ([conda_search]), the matrix resolver ([get_supported_versions]) and the
    sampling and emitting parts of [main], followed by the properties of the
    specification that concern them.

    Conventions of the embedding.
    - A Python [str] is a [string]; a character is a code point below 256,
      where [\d] is [0-9] and the white space of [\s] and of [int] are the
      finite sets written out below.
    - A Python [int] is a [Z]. The conversions between [int] and [str] are
      bound by the interpreter's limit of 4300 digits
      ([sys.int_info.default_max_str_digits]): [int] of a text with more
      digits and the text of an integer with more digits raise [ValueError].
    - A Python tuple of integers is a [list Z], compared as Python compares
      sequences.
    - A raised exception is the [Raise] branch of [result]. *)

From Stdlib Require Import ZArith Ascii String.
From Stdlib Require Import DecimalString DecimalPos DecimalFacts.
From stdpp Require Import base option list sorting gmap strings.

Local Open Scope Z_scope.

(** ** Exceptions and fallible computations *)

Inductive exn : Set :=
  | ValueError
  | IndexError
  | SyntaxError
  | TypeError
  | KeyError
  | CalledProcessError
  | FileNotFoundError
  | PermissionError.

Inductive result (A : Type) : Type :=
  | Ok (a : A)
  | Raise (e : exn).
Arguments Ok {A} a.
Arguments Raise {A} e.

Global Instance result_ret : MRet result := λ A a, Ok a.
Global Instance result_bind : MBind result := λ A B k m,
  match m with
  | Ok a => k a
  | Raise e => Raise e
  end.

(** [[f(x) for x in l]], stopping at the first exception. *)
Fixpoint map_r {A B} (f : A → result B) (l : list A) : result (list B) :=
  match l with
  | [] => Ok []
  | x :: l' => y ← f x ; ys ← map_r f l' ; Ok (y :: ys)
  end.

Definition raises {A} (m : result A) : Prop := ∃ e, m = Raise e.
Definition returns {A} (m : result A) : Prop := ∃ a, m = Ok a.

(** ** Python strings *)

Module Py.

Definition chr (n : N) : ascii := ascii_of_N n.
Definition ord (c : ascii) : N := N_of_ascii c.

(** [\d] *)
Definition is_digit (c : ascii) : bool :=
  (48 <=? ord c)%N && (ord c <=? 57)%N.

Definition digit_val (c : ascii) : Z := Z.of_N (ord c) - 48.

(** The characters [int] skips around a literal. *)
Definition is_int_space (c : ascii) : bool :=
  let n := ord c in
  ((9 <=? n)%N && (n <=? 13)%N) || (n =? 32)%N || (n =? 133)%N || (n =? 160)%N.

(** [\s]; [\S] is its complement. *)
Definition is_space (c : ascii) : bool :=
  let n := ord c in
  ((9 <=? n)%N && (n <=? 13)%N) || ((28 <=? n)%N && (n <=? 32)%N)
  || (n =? 133)%N || (n =? 160)%N.

(** [s.startswith(p)] *)
Definition startswith (p s : string) : bool := String.prefix p s.

(** [c in s] for a single character. *)
Fixpoint contains (c : ascii) (s : string) : bool :=
  match s with
  | EmptyString => false
  | String d s' => Ascii.eqb c d || contains c s'
  end.

(** [all(p(c) for c in s)] *)
Fixpoint all_chars (p : ascii → bool) (s : string) : bool :=
  match s with
  | EmptyString => true
  | String c s' => p c && all_chars p s'
  end.

(** [s.split(sep)] for a non-empty separator: cut at every occurrence of
    [sep], scanning from the left; [skip] counts the characters of an
    occurrence still to be passed over, [cur] is the piece being read. *)
Fixpoint split_go (sep : string) (skip : nat) (cur : string) (s : string)
  : list string :=
  match s with
  | EmptyString => [cur]
  | String c s' =>
      match skip with
      | S k => split_go sep k cur s'
      | O =>
          if String.prefix sep s
          then cur :: split_go sep (Nat.pred (String.length sep)) EmptyString s'
          else split_go sep O (cur +:+ String c EmptyString) s'
      end
  end.

Definition split (sep s : string) : list string :=
  split_go sep O EmptyString s.

(** [sep.join(l)] *)
Fixpoint join (sep : string) (l : list string) : string :=
  match l with
  | [] => EmptyString
  | [x] => x
  | x :: l' => x +:+ sep +:+ join sep l'
  end.

(** [l[0]] and [l[-1]] *)
Definition first {A} (l : list A) : result A :=
  match l with
  | [] => Raise IndexError
  | x :: _ => Ok x
  end.

Definition last {A} (l : list A) : result A :=
  match list.last l with
  | None => Raise IndexError
  | Some x => Ok x
  end.

(** [s.replace(c, '')] for a single character. *)
Fixpoint remove_char (c : ascii) (s : string) : string :=
  match s with
  | EmptyString => EmptyString
  | String d s' =>
      if Ascii.eqb c d then remove_char c s' else String d (remove_char c s')
  end.

(** [re.findall(r'(\d+)', s)]: the maximal runs of digits, left to right. *)
Definition digit_ahead (s : string) : bool :=
  match s with
  | String d _ => is_digit d
  | EmptyString => false
  end.

Fixpoint findall_digits (s : string) : list string :=
  match s with
  | EmptyString => []
  | String c s' =>
      if is_digit c then
        match digit_ahead s', findall_digits s' with
        | true, r :: rs => String c r :: rs
        | _, rs => String c EmptyString :: rs
        end
      else findall_digits s'
  end.

(** [int(s)] in base ten: white space, an optional sign, digits with single
    underscores between them, white space. *)
Fixpoint int_digits (acc : Z) (after_underscore : bool) (s : string)
  : option Z :=
  match s with
  | EmptyString => if after_underscore then None else Some acc
  | String c s' =>
      if is_digit c then int_digits (10 * acc + digit_val c) false s'
      else if Ascii.eqb c "_" then
        if after_underscore then None else int_digits acc true s'
      else if is_int_space c then
        if after_underscore then None
        else if all_chars is_int_space s' then Some acc else None
      else None
  end.

Definition int_unsigned (s : string) : option Z :=
  match s with
  | String c s' =>
      if is_digit c then int_digits (digit_val c) false s' else None
  | EmptyString => None
  end.

Fixpoint lstrip (s : string) : string :=
  match s with
  | String c s' => if is_int_space c then lstrip s' else s
  | EmptyString => EmptyString
  end.

(** The limit on the number of digits of a text that is converted to an
    integer, or that an integer is converted to. *)
Definition max_str_digits : Z := 4300.

(** The number of digits in a text. *)
Fixpoint count_digits (s : string) : Z :=
  match s with
  | EmptyString => 0
  | String c s' => (if is_digit c then 1 else 0) + count_digits s'
  end.

Definition int (s : string) : result Z :=
  let r :=
    match lstrip s with
    | String "+" s' => int_unsigned s'
    | String "-" s' => Z.opp <$> int_unsigned s'
    | s' => int_unsigned s'
    end in
  match r with
  | Some z =>
      if count_digits s <=? max_str_digits then Ok z else Raise ValueError
  | None => Raise ValueError
  end.

(** [f'{z}'] for an integer. *)
Definition str_of_int (z : Z) : result string :=
  let s := NilZero.string_of_int (Z.to_int z) in
  if count_digits s <=? max_str_digits then Ok s else Raise ValueError.

(** Comparison of two tuples of integers: the first differing position
    decides, and a proper prefix is smaller. *)
Fixpoint tuple_compare (a b : list Z) : comparison :=
  match a, b with
  | [], [] => Eq
  | [], _ :: _ => Lt
  | _ :: _, [] => Gt
  | x :: a', y :: b' =>
      match x ?= y with
      | Eq => tuple_compare a' b'
      | c => c
      end
  end.

Definition tuple_lt (a b : list Z) : bool :=
  match tuple_compare a b with Lt => true | _ => false end.
Definition tuple_le (a b : list Z) : bool :=
  match tuple_compare a b with Gt => false | _ => true end.
Definition tuple_eq (a b : list Z) : bool :=
  match tuple_compare a b with Eq => true | _ => false end.

(** [s.lower()], on code points below 256: the letters [A-Z] and the
    accented capitals move up by 32, the multiplication sign stays. *)
Definition lower_char (c : ascii) : ascii :=
  let n := ord c in
  if ((65 <=? n)%N && (n <=? 90)%N)
     || ((192 <=? n)%N && (n <=? 222)%N && negb (n =? 215)%N)
  then chr (n + 32) else c.

Fixpoint lower (s : string) : string :=
  match s with
  | EmptyString => EmptyString
  | String c s' => String (lower_char c) (lower s')
  end.

(** [sub in s] for two strings. *)
Fixpoint str_in (sub s : string) : bool :=
  match s with
  | EmptyString => String.prefix sub s
  | String _ s' => String.prefix sub s || str_in sub s'
  end.

End Py.

(** ** Platform *)

(** [get_platform], given what [platform.system()] and
    [platform.machine()] return. *)
Definition get_platform (system machine : string) : string :=
  let plat := Py.lower system in
  if Py.str_in "darwin" plat then "osx-64"
  else if Py.startswith "win" plat then "win-64"
  else if Py.str_in "linux" plat then
    let machine := Py.lower machine in
    if Py.str_in "x86" machine then "linux-64"
    else if Py.str_in "ppc" machine then "linux-ppc64le"
    else "unknown"
  else "unknown".

(** The platforms that the command line accepts for [--platform]. *)
Definition platform_choices : list string :=
  ["linux-64"; "osx-64"; "win-64"; "linux-ppc64le"].

(** ** VersionComparator *)

(** [version_key]:
<<
    val = val.split('a')[0] + '.0.0'
    return tuple([int(x) for x in re.findall(r'(\d+)', val)][:3])
>> *)
Definition version_key (val : string) : result (list Z) :=
  head ← Py.first (Py.split "a" val) ;
  let val := head +:+ ".0.0" in
  nums ← map_r Py.int (Py.findall_digits val) ;
  Ok (take 3 nums).

(** [re.search(r'\.?\*$', s)] together with [re.sub(r'\.?\*$', '', s)]:
    [None] when the pattern does not occur, otherwise [s] without its match.
    [$] holds at the end of the string and before a newline that ends it, so
    the match is a star, with the dot before it if there is one, that is
    followed by nothing or by that newline only. *)
Definition at_end (s : string) : bool :=
  bool_decide (s = "") || bool_decide (s = String (Py.chr 10) "").

Fixpoint wildcard_sub (s : string) : option string :=
  match s with
  | EmptyString => None
  | String c s' =>
      if Ascii.eqb c "*" && at_end s' then Some s'
      else
        match c, s' with
        | "."%char, String "*" t =>
            if at_end t then Some t else String c <$> wildcard_sub s'
        | _, _ => String c <$> wildcard_sub s'
        end
  end.

(** [next_val[-1] += 1] *)
Fixpoint incr_last (l : list Z) : result (list Z) :=
  match l with
  | [] => Raise IndexError
  | [x] => Ok [x + 1]
  | x :: l' => l'' ← incr_last l' ; Ok (x :: l'')
  end.

(** The body of the loop of [expand_wildcards], for one value. *)
Definition expand_wildcard (val : string) : result string :=
  match wildcard_sub val with
  | Some val =>
      next_val ← map_r Py.int (Py.split "." val) ;
      next_val ← incr_last next_val ;
      texts ← map_r Py.str_of_int next_val ;
      Ok (">=" +:+ val +:+ ",<=" +:+ Py.join "." texts +:+ "a0")
  | None => Ok val
  end.

Definition expand_wildcards (vals : list string) : result (list string) :=
  map_r expand_wildcard vals.

(** [re.findall] of the pattern of [check_version], whose two groups are a
    run of the characters [<>=!] and a non-empty run of [\S], between [^] and
    [$]: at most one match, at the start. The part matched is [op] without a newline that ends it; it must be
    non-empty and free of white space. The first group takes operator
    characters for as long as one character is left to the second group. *)
Definition is_oper_char (c : ascii) : bool := Py.contains c "<>=!".

Fixpoint chomp (s : string) : string :=
  match s with
  | EmptyString => EmptyString
  | String c s' =>
      if Ascii.eqb c (Py.chr 10) && bool_decide (s' = "") then EmptyString
      else String c (chomp s')
  end.

Fixpoint span_oper (s : string) : string * string :=
  match s with
  | String c (String _ _ as s') =>
      if is_oper_char c
      then let '(o, v) := span_oper s' in (String c o, v)
      else (EmptyString, s)
  | _ => (EmptyString, s)
  end.

Definition findall_clause (op : string) : list (string * string) :=
  let body := chomp op in
  if bool_decide (body = "") then []
  else if Py.all_chars (λ c, negb (Py.is_space c)) body then [span_oper body]
  else [].

(** The text handed to [eval] is kept in structured form: one
    [f'{pkg_ver} {oper} {version_key(ver)}'] per sub-clause, the sub-clauses of
    a clause joined by [' or '] inside parentheses, the clauses joined by
    [' and ']. The integers of the two tuples are values of [int], of at most
    4300 digits, so that writing them into the text and reading them back
    stays within the limit on conversions ([version_key_formats] below). *)
Record comparison_text : Type := Cmp {
  cmp_lhs : list Z;
  cmp_oper : string;
  cmp_rhs : list Z
}.

(** The binary operators of Python that can be written with the characters
    [<>=!]. Any other text between the two tuples does not parse. *)
Inductive binop : Set :=
  | OpLt | OpLe | OpGt | OpGe | OpEq | OpNe | OpLShift | OpRShift.

Definition parse_binop (oper : string) : option binop :=
  if bool_decide (oper = "<") then Some OpLt
  else if bool_decide (oper = "<=") then Some OpLe
  else if bool_decide (oper = ">") then Some OpGt
  else if bool_decide (oper = ">=") then Some OpGe
  else if bool_decide (oper = "==") then Some OpEq
  else if bool_decide (oper = "!=") then Some OpNe
  else if bool_decide (oper = "<<") then Some OpLShift
  else if bool_decide (oper = ">>") then Some OpRShift
  else None.

(** A comparison of two tuples is a [bool]; a shift of tuples is a
    [TypeError]. *)
Definition eval_binop (o : binop) (a b : list Z) : result bool :=
  match o with
  | OpLt => Ok (Py.tuple_lt a b)
  | OpLe => Ok (Py.tuple_le a b)
  | OpGt => Ok (Py.tuple_lt b a)
  | OpGe => Ok (Py.tuple_le b a)
  | OpEq => Ok (Py.tuple_eq a b)
  | OpNe => Ok (negb (Py.tuple_eq a b))
  | OpLShift | OpRShift => Raise TypeError
  end.

Definition eval_cmp (c : comparison_text) : result bool :=
  match parse_binop (cmp_oper c) with
  | Some o => eval_binop o (cmp_lhs c) (cmp_rhs c)
  | None => Raise SyntaxError
  end.

(** [x or y or ...]: the first true operand ends the evaluation. *)
Fixpoint eval_or (l : list comparison_text) : result bool :=
  match l with
  | [] => Ok false
  | c :: l' =>
      b ← eval_cmp c ;
      if b : bool then Ok true else eval_or l'
  end.

(** [(...) and (...) and ...]: the first false operand ends the evaluation. *)
Fixpoint eval_and (l : list (list comparison_text)) : result bool :=
  match l with
  | [] => Ok true
  | d :: l' =>
      b ← eval_or d ;
      if b : bool then eval_and l' else Ok false
  end.

(** [eval(' and '.join(expr))]: the text is parsed as a whole first, so an
    operator that is not one leaves a [SyntaxError] wherever it stands; the
    empty text does not parse either. *)
Definition py_eval (expr : list (list comparison_text)) : result bool :=
  if bool_decide (expr = []) then Raise SyntaxError
  else if forallb (forallb (λ c, bool_decide (is_Some (parse_binop (cmp_oper c))))) expr
  then eval_and expr
  else Raise SyntaxError.

(** The body of the innermost loop of [check_version]. *)
Definition build_cmp (pkg_ver : list Z) (op : string) : result comparison_text :=
  '(oper, ver) ← Py.first (findall_clause op) ;
  let oper :=
    if bool_decide (oper = "=") then "=="
    else if bool_decide (oper = "") then ">="
    else oper in
  key ← version_key ver ;
  Ok (Cmp pkg_ver oper key).

Definition build_or (pkg_ver : list Z) (ap : string)
  : result (list comparison_text) :=
  map_r (build_cmp pkg_ver) (Py.split "|" ap).

Definition build_expr (pkg_ver : list Z) (spec : string)
  : result (list (list comparison_text)) :=
  map_r (build_or pkg_ver) (Py.split "," spec).

(** The loop of [check_version] over the expanded specs. *)
Fixpoint check_specs (pkg_ver : list Z) (specs : list string) : result bool :=
  match specs with
  | [] => Ok false
  | spec :: rest =>
      expr ← build_expr pkg_ver spec ;
      b ← py_eval expr ;
      if b : bool then Ok true else check_specs pkg_ver rest
  end.

Definition check_version (pkg_ver : string) (specs : list string) : result bool :=
  pkg_ver ← version_key pkg_ver ;
  specs ← expand_wildcards specs ;
  check_specs pkg_ver specs.

(** ** PackageQueryClient *)

(** A decoded JSON value, as [json.loads] returns it. *)
#[warnings="-register-all"]
Inductive json : Type :=
  | JNull
  | JBool (b : bool)
  | JNumber (z : Z)
  | JString (s : string)
  | JArray (l : list json)
  | JObject (l : list (string * json)).

(** [j == s] for a decoded value and a [str]. *)
Definition json_eq_str (j : json) (s : string) : bool :=
  match j with
  | JString t => bool_decide (t = s)
  | _ => false
  end.

(** One entry of the answer of [conda search --json]: the two fields that
    the resolver reads. *)
Record package_record : Type := {
  version : string;
  depends : list string
}.

(** What [subprocess.check_output(cmd)] followed by [json.loads] gives for
    one query: the decoded standard output of a run that exits with status
    zero, an object from package names to their records, or the decoded
    output carried by the [CalledProcessError] of a run that does not. *)
Inductive query_outcome : Type :=
  | Completed (out : gmap string (list package_record))
  | Failed (out : gmap string json).

(** The package index, as seen through the command: platform, then package. *)
Definition conda_index : Type := string → string → query_outcome.

(** [conda_search]. The value returned is a list of records or the empty
    dict of [out.get(..., {})]; the callers only test it for emptiness and
    iterate over it, so the empty dict is the empty list here. *)
Definition conda_search (idx : conda_index) (platform pkg : string)
  : result (list package_record) :=
  out ← match idx platform pkg with
        | Completed out => Ok out
        | Failed out =>
            if bool_decide (out ≠ ∅)
               && json_eq_str (default (JString "") (out !! "exception_name"))
                    "PackagesNotFoundError"
            then Ok ∅
            else Raise CalledProcessError
        end ;
  name ← Py.last (Py.split "::" pkg) ;
  Ok (default [] (out !! name)).

(** ** MatrixResolver *)

(** [sorted(s)] for a collection of strings. *)
Definition sorted (l : list string) : list string := merge_sort String.le l.

Section Resolver.

(** [list(s)] for a set [s]: the order in which a set is iterated is the
    interpreter's choice. *)
Variable set_list : gset string → list string.

(** The first loop of [get_supported_versions]. *)
Fixpoint base_versions (out : list package_record) (r_base_vers : gset string)
  : result (gset string) :=
  match out with
  | [] => Ok r_base_vers
  | item :: rest =>
      let ver := version item in
      key ← map_r Py.int (Py.split "." ver) ;
      if Py.tuple_lt key [3; 4; 3] then base_versions rest r_base_vers
      else base_versions rest ({[version item]} ∪ r_base_vers)
  end.

(** The loop that collects [pkg_vers] from the records of one package. *)
Fixpoint collect_pkg_vers (r_base : string) (out : list package_record)
  : result (list string) :=
  match out with
  | [] => Ok []
  | item :: rest =>
      match List.filter (Py.startswith (r_base +:+ "-base")) (depends item) with
      | [] => collect_pkg_vers r_base rest
      | rver :: _ =>
          let rver :=
            if bool_decide (rver = "mro-base") then "mro-base ==3.4.3"
            else rver in
          rver ← Py.last (Py.split " " rver) ;
          pkg_vers ← collect_pkg_vers r_base rest ;
          Ok (rver :: pkg_vers)
      end
  end.

(** The loop over [list(r_base_vers)]; [r_base_vers.remove(ver)] needs
    [ver] to be in the set. *)
Fixpoint remove_unsupported (vers : list string) (pkg_vers : list string)
    (r_base_vers : gset string) : result (gset string) :=
  match vers with
  | [] => Ok r_base_vers
  | ver :: rest =>
      ok ← check_version ver pkg_vers ;
      if ok : bool then remove_unsupported rest pkg_vers r_base_vers
      else if bool_decide (ver ∈ r_base_vers)
      then remove_unsupported rest pkg_vers (r_base_vers ∖ {[ver]})
      else Raise KeyError
  end.

(** The loop over the companion packages. *)
Fixpoint filter_by_packages (idx : conda_index) (platform r_base : string)
    (pkgs : list string) (r_base_vers : gset string) : result (gset string) :=
  match pkgs with
  | [] => Ok r_base_vers
  | pkg :: rest =>
      out ← conda_search idx platform pkg ;
      pkg_vers ← collect_pkg_vers r_base out ;
      r_base_vers ← remove_unsupported (set_list r_base_vers) pkg_vers r_base_vers ;
      filter_by_packages idx platform r_base rest r_base_vers
  end.

Definition companions : list string :=
  ["r::r-httr"; "r::r-jsonlite"; "r::r-testthat"].

Definition get_supported_versions (idx : conda_index) (platform r_base : string)
  : result (list string) :=
  out ← conda_search idx platform ("r::" +:+ r_base +:+ "-base") ;
  match out with
  | [] => Ok []
  | _ =>
      r_base_vers ← base_versions out ∅ ;
      r_base_vers ← filter_by_packages idx platform r_base companions r_base_vers ;
      Ok (sorted (set_list r_base_vers))
  end.

End Resolver.

(** ** MatrixSampler *)

(** [random.choice(seq)]: the element at a random index below [len(seq)];
    [rnd] is the random number drawn. *)
Definition random_choice (rnd : nat) (seq : list string) : result string :=
  match seq !! (rnd `mod` length seq)%nat with
  | Some x => Ok x
  | None => Raise IndexError
  end.

(** [l[1:-1]] *)
Definition interior {A} (l : list A) : list A :=
  drop 1 (take (length l - 1) l).

(** The block of [main] that fills [subset[family]] from [info[family]]; it
    is written twice there, for [r] and for [mro]. *)
Definition sample (rnd : nat) (info : list string) : result (gset string) :=
  match info with
  | [] => Ok ∅
  | _ =>
      oldest ← Py.first info ;
      newest ← Py.last info ;
      let subset : gset string := {[newest]} ∪ ({[oldest]} ∪ ∅) in
      if (2 <? length info)%nat then
        pick ← random_choice rnd (interior info) ;
        Ok ({[pick]} ∪ subset)
      else Ok subset
  end.

(** ** ConfigEmitter *)

(** [f"{base}{ver.replace('.', '')}-{pkg}-cicd"] *)
Definition env_name (base ver pkg : string) : string :=
  base +:+ Py.remove_char "." ver +:+ "-" +:+ pkg +:+ "-cicd".

(** [sorted(subset.items())]: the keys of a dict differ, so they decide. *)
Definition sorted_items (subset : gmap string (gset string))
  : list (string * gset string) :=
  merge_sort (λ a b, String.le a.1 b.1) (map_to_list subset).

Definition out_header : list string :=
  [""; "#"; "# BEGIN GENERATED ENVIRONMENTS"; "#"; "";
   "[testenv:empty]"; "commands ="; "deps ="; "conda_deps ="; ""].

(** The lines appended to [out] for one version of one family. *)
Definition out_env (pkg base ver : string) : list string :=
  let name := env_name base ver pkg in
  ["# R " +:+ ver;
   "[testenv:" +:+ name +:+ "]";
   "commands = {[testenv:" +:+ pkg +:+ "]commands}";
   "conda_deps =";
   "    " +:+ base +:+ "-base==" +:+ ver;
   "    {[testenv]conda_deps}";
   ""].

Definition out_family (pkg : string) (item : string * gset string) : list string :=
  ["#"; "# " +:+ item.1 +:+ "-base"; "#"; ""]
  ++ mbind (out_env pkg item.1) (sorted (elements item.2)).

(** [out] and [envlist] after the loop over the families. *)
Definition generated_out (pkg : string) (subset : gmap string (gset string))
  : list string :=
  out_header ++ mbind (out_family pkg) (sorted_items subset).

Definition generated_envlist (pkg : string) (subset : gmap string (gset string))
  : list string :=
  item ← sorted_items subset ;
  ver ← sorted (elements item.2) ;
  [env_name item.1 ver pkg].

Definition nl : string := String (Py.chr 10) "".

(** What is written in place of an [envlist] line. *)
Definition envlist_block (envlist : list string) : list string :=
  ["envlist =" +:+ nl]
  ++ ((λ item, "    " +:+ item +:+ nl) <$> envlist)
  ++ ["    empty" +:+ nl].

(** The copying loop of [main], as the sequence of strings written. Both
    [for] loops draw from the one iterator [lines]. [inner] is [None] in the
    outer loop and [Some line] in the inner one, [line] being the loop
    variable as last bound; when the iterator runs dry inside the inner loop
    the [tox_out.write(line)] that follows it writes that value. *)
Fixpoint copy_template (block : list string) (inner : option string)
    (lines : list string) : list string :=
  match lines, inner with
  | [], None => []
  | [], Some line => [line]
  | line :: rest, None =>
      if Py.startswith "envlist" line
      then block ++ copy_template block (Some line) rest
      else line :: copy_template block None rest
  | line :: rest, Some _ =>
      if Py.startswith " " line
      then copy_template block (Some line) rest
      else line :: copy_template block None rest
  end.

(** Everything written to [tox_out] for one driver [pkg], given the lines
    of the template. *)
Definition emit (pkg : string) (tox_in : list string)
    (subset : gmap string (gset string)) : list string :=
  copy_template (envlist_block (generated_envlist pkg subset)) None tox_in
  ++ (item ← generated_out pkg subset ; [item; nl]).

(** The contents of the file once it is closed. *)
Definition file_contents (writes : list string) : string :=
  foldr String.append "" writes.

(** [main], up to its messages on standard output: the two resolutions, the
    two samples with their random draws, the template read and the file
    written for the one driver [conda]. The file system is met twice:
    [tox_in] is what [open(args.tox_ini, 'r')] followed by [readlines()]
    gives, the lines of the template or the exception raised
    ([FileNotFoundError] when there is no template at the path), and
    [tox_out] is what [open(out_file, 'w')] gives, a file to write to or the
    exception raised. The writes themselves are taken to succeed; the value
    returned is the sequence of strings written. *)
Definition main (set_list : gset string → list string) (idx : conda_index)
    (platform : string) (tox_in : result (list string))
    (tox_out : result unit) (rnd_r rnd_mro : nat)
  : result (list string) :=
  info_r ← get_supported_versions set_list idx platform "r" ;
  info_mro ← get_supported_versions set_list idx platform "mro" ;
  subset_r ← sample rnd_r info_r ;
  subset_mro ← sample rnd_mro info_mro ;
  lines ← tox_in ;
  _ ← tox_out ;
  Ok (emit "conda" lines {[ "r" := subset_r; "mro" := subset_mro ]}).

(** * Vocabulary of the specification *)

(** The piece of a text before the first occurrence of a character. *)
Fixpoint before (c : ascii) (s : string) : string :=
  match s with
  | EmptyString => EmptyString
  | String d s' => if Ascii.eqb c d then EmptyString else String d (before c s')
  end.

(** [any(p(c) for c in s)] *)
Fixpoint any_chars (p : ascii → bool) (s : string) : bool :=
  match s with
  | EmptyString => false
  | String c s' => p c || any_chars p s'
  end.

(** The constraint language as the specification words it: an operator out
    of six, the empty operator standing for [>=] and [=] for [==], applied to
    a version; pipes separate alternatives, commas separate conjuncts, and
    the specs of a list are alternatives again. *)
Inductive operator : Set := LT | LE | GT | GE | EQ | NE.

Definition operator_of (oper : string) : option operator :=
  if bool_decide (oper = "") then Some GE
  else if bool_decide (oper = "=") then Some EQ
  else if bool_decide (oper = "<") then Some LT
  else if bool_decide (oper = "<=") then Some LE
  else if bool_decide (oper = ">") then Some GT
  else if bool_decide (oper = ">=") then Some GE
  else if bool_decide (oper = "==") then Some EQ
  else if bool_decide (oper = "!=") then Some NE
  else None.

Definition compare_versions (o : operator) (a b : list Z) : bool :=
  match o with
  | LT => Py.tuple_lt a b
  | LE => Py.tuple_le a b
  | GT => Py.tuple_lt b a
  | GE => Py.tuple_le b a
  | EQ => Py.tuple_eq a b
  | NE => negb (Py.tuple_eq a b)
  end.

Definition binop_of (o : operator) : binop :=
  match o with
  | LT => OpLt | LE => OpLe | GT => OpGt | GE => OpGe | EQ => OpEq | NE => OpNe
  end.

(** A comparison whose operator is one for Python. *)
Definition parses (c : comparison_text) : bool :=
  bool_decide (is_Some (parse_binop (cmp_oper c))).

(** A sub-clause as an (operator, Version) pair, when it is one. *)
Definition parse_subclause (op : string) : option (operator * list Z) :=
  match findall_clause op with
  | [(oper, ver)] =>
      match operator_of oper, version_key ver with
      | Some o, Ok key => Some (o, key)
      | _, _ => None
      end
  | _ => None
  end.

Definition subclause_holds (v : list Z) (op : string) : bool :=
  match parse_subclause op with
  | Some (o, key) => compare_versions o v key
  | None => false
  end.

Definition clause_holds (v : list Z) (ap : string) : bool :=
  existsb (subclause_holds v) (Py.split "|" ap).

Definition spec_holds (v : list Z) (spec : string) : bool :=
  forallb (clause_holds v) (Py.split "," spec).

(** A spec all of whose sub-clauses are (operator, Version) pairs. *)
Definition well_formed (spec : string) : bool :=
  forallb (λ ap, forallb (λ op, bool_decide (is_Some (parse_subclause op)))
                   (Py.split "|" ap))
    (Py.split "," spec).







(** The characters that a text accepted by [int] is made of. *)
Definition int_char (c : ascii) : bool :=
  Py.is_int_space c || Py.is_digit c || Py.contains c "+-_".

(** A text none of whose runs of digits is longer than the limit on
    conversions. *)
Definition digit_runs_ok (s : string) : bool :=
  forallb (λ r, Py.count_digits r <=? Py.max_str_digits) (Py.findall_digits s).

(** A text that [int] accepts, and a dot-separated list of such texts. *)
Definition int_literal (s : string) : bool :=
  match Py.int s with Ok _ => true | Raise _ => false end.

Definition dotted_ints (s : string) : bool :=
  forallb int_literal (Py.split "." s).

(** A constraint whose wildcard, if it ends in one, follows dotted integers. *)
Definition wildcard_ok (spec : string) : bool :=
  match wildcard_sub spec with
  | Some val => dotted_ints val
  | None => true
  end.

(** The records that a query gives, none when it raises. *)
Definition records_of (idx : conda_index) (platform pkg : string)
  : list package_record :=
  match conda_search idx platform pkg with
  | Ok out => out
  | Raise _ => []
  end.

Definition versions_ok (idx : conda_index) (platform r_base : string) : bool :=
  forallb (λ item, dotted_ints (version item))
    (records_of idx platform ("r::" +:+ r_base +:+ "-base")).

(** A constraint with fewer digits than the limit on conversions whose
    wildcard, if it ends in one, follows dotted integers. *)
Definition constraint_ok (spec : string) : bool :=
  wildcard_ok spec && (Py.count_digits spec <? Py.max_str_digits).

Definition constraints_ok (idx : conda_index) (platform r_base : string) : bool :=
  forallb (λ pkg,
      match collect_pkg_vers r_base (records_of idx platform pkg) with
      | Ok pkg_vers => forallb constraint_ok pkg_vers
      | Raise _ => true
      end)
    companions.

(** A version that [check_version] answers with [False]. *)
Definition unsupported (pkg_vers : list string) (ver : string) : bool :=
  match check_version ver pkg_vers with
  | Ok false => true
  | _ => false
  end.

(** The error body names the kind of error that means "package not found". *)
Definition signals_not_found (body : gmap string json) : Prop :=
  body !! "exception_name" = Some (JString "PackagesNotFoundError").

(** Two runs end alike: both return, and the same value, or both raise. *)
Definition same_outcome {A} (r1 r2 : result A) : Prop :=
  match r1, r2 with
  | Ok a, Ok b => a = b
  | Raise _, Raise _ => True
  | _, _ => False
  end.

(** An enumeration of sets that lists each set's elements, in some order. *)
Definition enumerates (set_list : gset string → list string) : Prop :=
  ∀ s, set_list s ≡ₚ elements s.

(** ** Vocabulary of the further properties *)

(** The floor test of the resolver, [False] when the version does not parse. *)
Definition floor_ok (ver : string) : bool :=
  match map_r Py.int (Py.split "." ver) with
  | Ok key => negb (Py.tuple_lt key [3; 4; 3])
  | Raise _ => false
  end.

(** The constraints that the resolver collects from one companion. *)
Definition pkg_vers_of (idx : conda_index) (platform r_base pkg : string)
  : list string :=
  match collect_pkg_vers r_base (records_of idx platform pkg) with
  | Ok pkg_vers => pkg_vers
  | Raise _ => []
  end.

(** [check_version] answers [True]. *)
Definition accepts (pkg_vers : list string) (ver : string) : bool :=
  match check_version ver pkg_vers with
  | Ok true => true
  | _ => false
  end.

(** A version of the base package that passes the floor and that every
    companion accepts. *)
Definition is_supported (idx : conda_index) (platform r_base ver : string)
  : bool :=
  bool_decide
    (ver ∈ version <$> records_of idx platform ("r::" +:+ r_base +:+ "-base"))
  && floor_ok ver
  && forallb (λ pkg, accepts (pkg_vers_of idx platform r_base pkg) ver)
       companions.

(** A non-empty run of digits. *)
Definition is_digit_run (r : string) : bool :=
  negb (bool_decide (r = "")) && Py.all_chars Py.is_digit r.

(** The lines of the generated part that open a section. *)
Definition section_header (name : string) : string :=
  "[testenv:" +:+ name +:+ "]".

(** The number that a decimal numeral denotes after the digits read so
    far, which amount to [acc]. *)
Fixpoint uint_value (d : Decimal.uint) (acc : Z) : Z :=
  match d with
  | Decimal.Nil => acc
  | Decimal.D0 d => uint_value d (10 * acc)
  | Decimal.D1 d => uint_value d (10 * acc + 1)
  | Decimal.D2 d => uint_value d (10 * acc + 2)
  | Decimal.D3 d => uint_value d (10 * acc + 3)
  | Decimal.D4 d => uint_value d (10 * acc + 4)
  | Decimal.D5 d => uint_value d (10 * acc + 5)
  | Decimal.D6 d => uint_value d (10 * acc + 6)
  | Decimal.D7 d => uint_value d (10 * acc + 7)
  | Decimal.D8 d => uint_value d (10 * acc + 8)
  | Decimal.D9 d => uint_value d (10 * acc + 9)
  end.

(** The characters of a plain version: digits, the dot and the [a]. *)
Definition version_char (c : ascii) : bool :=
  Py.is_digit c || Py.contains c ".a".

(** * Sample inputs *)

Definition record (ver : string) (deps : list string) : package_record :=
  {| version := ver; depends := deps |}.

Definition not_found_body : gmap string json :=
  {[ "exception_name" := JString "PackagesNotFoundError" ]}.

(** An index with four versions of [r-base], three companions that depend
    on it, and no [mro-base]. *)
Definition sample_index : conda_index := λ platform pkg,
  if bool_decide (pkg = "r::r-base") then
    Completed {[ "r-base" := [record "3.4.2" []; record "3.5.0" [];
                              record "3.6.1" []; record "4.0.0" []] ]}
  else if bool_decide (pkg = "r::r-httr") then
    Completed {[ "r-httr" := [record "1.0" ["r-base 3.5.*"];
                              record "1.1" ["curl"; "r-base >=3.6,<4.1"]] ]}
  else if bool_decide (pkg = "r::r-jsonlite") then
    Completed {[ "r-jsonlite" := [record "1.6" ["r-base"]] ]}
  else if bool_decide (pkg = "r::r-testthat") then
    Completed {[ "r-testthat" := [record "2.0" ["r-base <4"]] ]}
  else Failed not_found_body.

(** The same index with a pre-release among the versions of [r-base]. *)
Definition prerelease_index : conda_index := λ platform pkg,
  if bool_decide (pkg = "r::r-base") then
    Completed {[ "r-base" := [record "3.5.0" []; record "3.6.0rc1" []] ]}
  else sample_index platform pkg.

(** The same index with a companion that accepts any [r-base]. *)
Definition any_version_index : conda_index := λ platform pkg,
  if bool_decide (pkg = "r::r-httr") then
    Completed {[ "r-httr" := [record "1.0" ["r-base *"]] ]}
  else sample_index platform pkg.

(** An index with the one version ["3.5.0"] of [r-base], which every
    companion accepts. *)
Definition single_version_index : conda_index := λ platform pkg,
  if bool_decide (pkg = "r::r-base") then
    Completed {[ "r-base" := [record "3.5.0" []] ]}
  else if bool_decide (pkg = "r::r-httr") then
    Completed {[ "r-httr" := [record "1.4" ["r-base >=3.5,<3.6.0a0"]] ]}
  else if bool_decide (pkg = "r::r-jsonlite") then
    Completed {[ "r-jsonlite" := [record "1.6" ["r-base 3.5.*"]] ]}
  else if bool_decide (pkg = "r::r-testthat") then
    Completed {[ "r-testthat" := [record "2.0" ["r-base >=3.5"]] ]}
  else Failed not_found_body.

(** An index whose every query fails for a reason other than a missing
    package. *)
Definition broken_index : conda_index := λ platform pkg,
  Failed {[ "exception_name" := JString "CondaHTTPError" ]}.

(** The index of the four versions of [r-base] with a query for the first
    companion that fails for a reason other than a missing package. *)
Definition broken_companion_index : conda_index := λ platform pkg,
  if bool_decide (pkg = "r::r-httr") then
    Failed {[ "exception_name" := JString "CondaHTTPError" ]}
  else sample_index platform pkg.

Definition tab : string := String (Py.chr 9) "".

(** A run of [n] digits. *)
Fixpoint ones (n : nat) : string :=
  match n with
  | O => ""
  | S n' => String "1" (ones n')
  end.

(** A run of one digit more than the limit on conversions allows. *)
Definition long_run : string := ones (N.to_nat 4301).

(** Another enumeration of sets. *)
Definition elements_reversed (s : gset string) : list string :=
  reverse (elements s).

(** An index with a version of [mro-base], and companions that depend on
    [r-base] only. *)
Definition mro_index : conda_index := λ platform pkg,
  if bool_decide (pkg = "r::mro-base") then
    Completed {[ "mro-base" := [record "3.5.1" []] ]}
  else sample_index platform pkg.

(** * Properties *)

(** ** Fallible computations *)

Lemma Ok_bind {A B} (a : A) (k : A → result B) : Ok a ≫= k = k a.
Proof. reflexivity. Qed.

Lemma Raise_bind {A B} (e : exn) (k : A → result B) : Raise e ≫= k = Raise e.
Proof. reflexivity. Qed.

Ltac simpl_bind := rewrite ?Ok_bind, ?Raise_bind.

Lemma bind_Ok {A B} (m : result A) (k : A → result B) (b : B) :
  m ≫= k = Ok b ↔ ∃ a, m = Ok a ∧ k a = Ok b.
Proof.
  destruct m as [a|e]; simpl_bind; split.
  - eauto.
  - intros (a' & Ha & ?). by simplify_eq.
  - done.
  - by intros (a' & ? & ?).
Qed.

Lemma bind_Raise {A B} (m : result A) (k : A → result B) (e : exn) :
  m ≫= k = Raise e ↔ m = Raise e ∨ ∃ a, m = Ok a ∧ k a = Raise e.
Proof.
  destruct m as [a|e']; simpl_bind; split.
  - eauto.
  - intros [?|(a' & Ha & ?)]; by simplify_eq.
  - intros [= ->]; auto.
  - by intros [[= ->]|(a' & ? & ?)].
Qed.

Lemma map_r_Ok {A B} (f : A → result B) (l : list A) (l' : list B) :
  map_r f l = Ok l' ↔ Forall2 (λ x y, f x = Ok y) l l'.
Proof.
  revert l'; induction l as [|x l IH]; intros l'; simpl.
  - split; [intros [= <-]; constructor | by inversion 1].
  - rewrite bind_Ok. split.
    + intros (y & Hy & H). apply bind_Ok in H as (ys & Hys & [= <-]).
      constructor; [done | by apply IH].
    + inversion 1 as [|? y ? ys Hy Hys]; subst.
      exists y. split; [done|]. apply bind_Ok. exists ys.
      split; [by apply IH | done].
Qed.

Lemma map_r_Ok_elem {A B} (f : A → result B) (l : list A) (l' : list B) :
  map_r f l = Ok l' → ∀ x, x ∈ l → returns (f x).
Proof.
  rewrite map_r_Ok. induction 1 as [|x y l l' Hxy _ IH]; intros x' Hx'.
  - by apply elem_of_nil in Hx'.
  - apply elem_of_cons in Hx' as [->|Hx']; [by exists y | by apply IH].
Qed.

Lemma map_r_length {A B} (f : A → result B) (l : list A) (l' : list B) :
  map_r f l = Ok l' → length l' = length l.
Proof. rewrite map_r_Ok. intros H. symmetry. by eapply Forall2_length. Qed.

Lemma map_r_returns {A B} (f : A → result B) (l : list A) :
  Forall (λ x, returns (f x)) l → returns (map_r f l).
Proof.
  induction 1 as [|x l [y Hy] _ [ys Hys]]; [by exists []|].
  exists (y :: ys). simpl. by rewrite Hy, Hys.
Qed.

Lemma map_r_Raise {A B} (f : A → result B) (l : list A) (e : exn) :
  map_r f l = Raise e → ∃ x, x ∈ l ∧ f x = Raise e.
Proof.
  induction l as [|x l IH]; simpl; [done|].
  rewrite bind_Raise. intros [H|(y & _ & H)].
  - exists x. split; [left | done].
  - apply bind_Raise in H as [H|(ys & _ & H)]; [|done].
    destruct (IH H) as (x' & ? & ?). exists x'. split; [by right | done].
Qed.

Lemma returns_not_raises {A} (m : result A) : returns m → ¬ raises m.
Proof. intros [a ->] [e ?]. done. Qed.

(** ** Strings *)

Lemma append_empty_l (s : string) : "" +:+ s = s.
Proof. reflexivity. Qed.

Lemma append_String (c : ascii) (s t : string) :
  String c s +:+ t = String c (s +:+ t).
Proof. reflexivity. Qed.

Lemma append_assoc (s t u : string) : (s +:+ t) +:+ u = s +:+ t +:+ u.
Proof.
  induction s as [|c s IH]; [done|]. by rewrite !append_String, IH.
Qed.

Lemma append_empty_r (s : string) : s +:+ "" = s.
Proof. induction s as [|c s IH]; [done|]. by rewrite append_String, IH. Qed.

Lemma split_go_nonempty (sep : string) (skip : nat) (cur s : string) :
  Py.split_go sep skip cur s ≠ [].
Proof.
  revert skip cur; induction s as [|c s IH]; intros skip cur; simpl; [done|].
  destruct skip; [|apply IH]. case_match; [done | apply IH].
Qed.

Lemma last_returns {A} (l : list A) : l ≠ [] → returns (Py.last l).
Proof.
  intros Hl. unfold Py.last. destruct (list.last l) as [x|] eqn:E; [by exists x|].
  by apply last_None in E.
Qed.

Lemma prefix_char (c d : ascii) (s : string) :
  String.prefix (String c "") (String d s) = Ascii.eqb c d.
Proof.
  simpl. destruct (ascii_dec c d) as [->|Hne].
  - rewrite Ascii.eqb_refl. by destruct s.
  - symmetry. by apply Ascii.eqb_neq.
Qed.

Lemma split_go_char_first (c : ascii) (cur s : string) :
  Py.first (Py.split_go (String c "") 0 cur s) = Ok (cur +:+ before c s).
Proof.
  revert cur; induction s as [|d s IH]; intros cur.
  - simpl. by rewrite append_empty_r.
  - cbn [Py.split_go before]. rewrite prefix_char.
    destruct (Ascii.eqb c d); simpl.
    + by rewrite append_empty_r.
    + rewrite IH. by rewrite append_assoc, append_String, append_empty_l.
Qed.

Lemma split_char_first (c : ascii) (s : string) :
  Py.first (Py.split (String c "") s) = Ok (before c s).
Proof. apply (split_go_char_first c "" s). Qed.

(** ** [version_key] *)

Lemma digit_not_int_space (c : ascii) :
  Py.is_digit c = true → Py.is_int_space c = false.
Proof. destruct c as [[] [] [] [] [] [] [] []]; by vm_compute. Qed.

Lemma digit_not_sign (c : ascii) :
  Py.is_digit c = true → c ≠ "+"%char ∧ c ≠ "-"%char ∧ c ≠ "_"%char.
Proof. destruct c as [[] [] [] [] [] [] [] []]; by vm_compute. Qed.

Lemma digit_val_nonneg (c : ascii) : Py.is_digit c = true → 0 ≤ Py.digit_val c.
Proof.
  unfold Py.is_digit, Py.digit_val. intros [H _]%andb_prop.
  apply N.leb_le in H. lia.
Qed.

Lemma int_digits_all_digits (s : string) (acc : Z) :
  Py.all_chars Py.is_digit s = true → 0 ≤ acc →
  ∃ z, Py.int_digits acc false s = Some z ∧ 0 ≤ z.
Proof.
  revert acc; induction s as [|c s IH]; intros acc Hs Hacc; simpl in *.
  - eauto.
  - apply andb_prop in Hs as [Hc Hs]. rewrite Hc.
    apply IH; [done|]. pose proof (digit_val_nonneg c Hc). lia.
Qed.

(** [int] accepts a non-empty run of digits that is not longer than the
    limit, with a value that is not negative, and refuses a longer one. *)
Lemma int_digit_run (r : string) :
  r ≠ "" → Py.all_chars Py.is_digit r = true →
  ∃ z, 0 ≤ z
    ∧ Py.int r = if Py.count_digits r <=? Py.max_str_digits then Ok z
                 else Raise ValueError.
Proof.
  destruct r as [|c r]; [done|]. intros _ [Hc Hr]%andb_prop.
  destruct (int_digits_all_digits r (Py.digit_val c) Hr (digit_val_nonneg c Hc))
    as (z & Hz & Hz0).
  exists z. split; [done|]. unfold Py.int. cbn [Py.lstrip].
  rewrite (digit_not_int_space c Hc).
  assert (Py.int_unsigned (String c r) = Some z) as Hu.
  { simpl. by rewrite Hc. }
  destruct (digit_not_sign c Hc) as (Hp & Hm & _).
  destruct c as [[] [] [] [] [] [] [] []]; try done; by rewrite Hu.
Qed.

Lemma findall_digits_runs (s : string) :
  Forall (λ r, r ≠ "" ∧ Py.all_chars Py.is_digit r = true) (Py.findall_digits s).
Proof.
  induction s as [|c s IH]; simpl; [constructor|].
  destruct (Py.is_digit c) eqn:Hc; [|done].
  assert (∀ rs, Forall (λ r, r ≠ "" ∧ Py.all_chars Py.is_digit r = true) rs →
    Forall (λ r, r ≠ "" ∧ Py.all_chars Py.is_digit r = true) (String c "" :: rs))
    as Hone.
  { intros rs Hrs. constructor; [|done]. simpl. by rewrite Hc. }
  destruct (Py.digit_ahead s); [|by apply Hone].
  destruct IH as [|r rs [_ Hr] Hrs]; [by apply Hone|].
  constructor; [|done]. simpl. by rewrite Hc, Hr.
Qed.

Lemma digit_ahead_findall (s : string) :
  Py.digit_ahead s = true → Py.findall_digits s ≠ [].
Proof.
  destruct s as [|c s]; simpl; [done|]. intros ->.
  by destruct (Py.digit_ahead s), (Py.findall_digits s).
Qed.

(** A character that is not a digit ends the run before it. *)
Lemma findall_digits_app (s : string) (c : ascii) (t : string) :
  Py.is_digit c = false →
  Py.findall_digits (s +:+ String c t)
  = Py.findall_digits s ++ Py.findall_digits (String c t).
Proof.
  intros Hc. induction s as [|d s IH]; [done|].
  rewrite append_String. cbn [Py.findall_digits]. rewrite IH.
  destruct (Py.is_digit d); [|done].
  assert (Py.digit_ahead (s +:+ String c t) = Py.digit_ahead s) as ->.
  { destruct s; [simpl; by rewrite Hc | done]. }
  destruct (Py.digit_ahead s) eqn:Hs; [|done].
  apply digit_ahead_findall in Hs. by destruct (Py.findall_digits s).
Qed.

Lemma findall_digits_nil (s : string) :
  Py.findall_digits s = [] ↔ any_chars Py.is_digit s = false.
Proof.
  induction s as [|c s IH]; simpl; [done|].
  destruct (Py.is_digit c); simpl; [|done].
  split; [|done]. by destruct (Py.digit_ahead s), (Py.findall_digits s).
Qed.

(** A list of runs of digits is converted when none of the runs is longer
    than the limit; with a longer run the conversion raises [ValueError]. *)
Lemma map_r_int_runs (runs : list string) :
  Forall (λ r, r ≠ "" ∧ Py.all_chars Py.is_digit r = true) runs →
  if forallb (λ r, Py.count_digits r <=? Py.max_str_digits) runs
  then ∃ nums, map_r Py.int runs = Ok nums ∧ length nums = length runs
               ∧ Forall (λ z, 0 ≤ z) nums
  else map_r Py.int runs = Raise ValueError.
Proof.
  induction 1 as [|r runs [Hr1 Hr2] _ IH]; cbn [forallb map_r].
  - exists []. by repeat constructor.
  - destruct (int_digit_run r Hr1 Hr2) as (z & Hz0 & ->).
    destruct (Py.count_digits r <=? Py.max_str_digits); [|done].
    cbn [andb]. simpl_bind.
    destruct (forallb _ runs).
    + destruct IH as (nums & -> & Hlen & Hpos). simpl_bind.
      exists (z :: nums). repeat split; [by simpl; f_equal | by constructor].
    + by rewrite IH.
Qed.

(** [version_key] returns when no run of digits before the first [a] of the
    text is longer than the limit, and raises [ValueError] otherwise. Its
    value has three components when a digit stands before the first [a], and
    is [(0, 0)] otherwise. *)
Lemma version_key_shape (val : string) :
  if digit_runs_ok (before "a" val)
  then ∃ key, version_key val = Ok key ∧ Forall (λ z, 0 ≤ z) key ∧
         if any_chars Py.is_digit (before "a" val) then length key = 3%nat
         else key = [0; 0]
  else version_key val = Raise ValueError.
Proof.
  unfold version_key, digit_runs_ok. rewrite split_char_first. simpl_bind.
  rewrite (findall_digits_app _ "." "0.0" eq_refl).
  pose proof (findall_digits_runs (before "a" val)) as Hruns.
  change (Py.findall_digits ".0.0") with ["0"; "0"]%string.
  pose proof (map_r_int_runs (Py.findall_digits (before "a" val) ++ ["0"; "0"]))
    as Hmap.
  rewrite forallb_app in Hmap.
  replace (forallb _ ["0"; "0"]%string) with true in Hmap by (by vm_compute).
  rewrite andb_true_r in Hmap.
  destruct (forallb _ (Py.findall_digits (before "a" val))).
  - destruct Hmap as (nums & Hn & Hlen & Hpos).
    { apply Forall_app. split; [done|]. by repeat constructor. }
    rewrite Hn. simpl_bind. exists (take 3 nums).
    split; [done|]. split; [by apply Forall_take|].
    destruct (any_chars Py.is_digit (before "a" val)) eqn:Hd.
    + rewrite length_take, Hlen, length_app.
      destruct (Py.findall_digits (before "a" val)) eqn:E; [|simpl length; lia].
      apply findall_digits_nil in E. congruence.
    + apply findall_digits_nil in Hd. rewrite Hd in Hn. by injection Hn as <-.
  - rewrite Hmap; [done|].
    apply Forall_app. split; [done|]. by repeat constructor.
Qed.

Lemma version_key_returns (val : string) :
  digit_runs_ok (before "a" val) = true → returns (version_key val).
Proof.
  intros H. pose proof (version_key_shape val) as Hs. rewrite H in Hs.
  destruct Hs as (key & -> & _). by exists key.
Qed.

Lemma version_key_Raise (val : string) (e : exn) :
  version_key val = Raise e → e = ValueError.
Proof.
  pose proof (version_key_shape val) as Hs.
  destruct (digit_runs_ok (before "a" val)).
  - destruct Hs as (key & -> & _). done.
  - rewrite Hs. by intros [= <-].
Qed.

Lemma version_key_Ok (val : string) (key : list Z) :
  version_key val = Ok key →
  digit_runs_ok (before "a" val) = true
  ∧ Forall (λ z, 0 ≤ z) key
  ∧ if any_chars Py.is_digit (before "a" val) then length key = 3%nat
    else key = [0; 0].
Proof.
  pose proof (version_key_shape val) as Hs.
  destruct (digit_runs_ok (before "a" val)).
  - destruct Hs as (key' & -> & ? & ?). by intros [= <-].
  - by rewrite Hs.
Qed.

Lemma version_key_not_ok (val : string) :
  digit_runs_ok (before "a" val) = false → version_key val = Raise ValueError.
Proof.
  intros H. pose proof (version_key_shape val) as Hs. by rewrite H in Hs.
Qed.

(** ** [check_version] on well-formed specs *)

Lemma split_nonempty (sep s : string) : Py.split sep s ≠ [].
Proof. apply split_go_nonempty. Qed.

Lemma operator_of_binop (oper : string) (o : operator) :
  operator_of oper = Some o →
  parse_binop (if bool_decide (oper = "=") then "=="
               else if bool_decide (oper = "") then ">=" else oper)
  = Some (binop_of o).
Proof.
  unfold operator_of, parse_binop.
  repeat (case_bool_decide; simplify_eq; try done);
    intros; by simplify_eq.
Qed.

Lemma eval_binop_of (o : operator) (a b : list Z) :
  eval_binop (binop_of o) a b = Ok (compare_versions o a b).
Proof. by destruct o. Qed.

(** What [build_cmp] makes of a sub-clause that is an (operator, Version)
    pair: a comparison that parses and bears the value the pair has. *)
Lemma build_cmp_well_formed (v : list Z) (op : string) :
  is_Some (parse_subclause op) →
  ∃ c, build_cmp v op = Ok c
       ∧ is_Some (parse_binop (cmp_oper c))
       ∧ eval_cmp c = Ok (subclause_holds v op).
Proof.
  unfold subclause_holds, parse_subclause, build_cmp.
  destruct (findall_clause op) as [|[oper ver] [|??]];
    [by intros [??] | | by intros [??]].
  destruct (operator_of oper) as [o|] eqn:Ho; [|by intros [??]].
  destruct (version_key ver) as [key|] eqn:Hkey; [|by intros [??]].
  intros _. simpl. simpl_bind. rewrite Hkey. simpl_bind.
  eexists. split; [done|]. unfold eval_cmp. simpl.
  rewrite (operator_of_binop _ _ Ho). split; [done|]. apply eval_binop_of.
Qed.

Lemma build_or_well_formed (v : list Z) (ops : list string) :
  forallb (λ op, bool_decide (is_Some (parse_subclause op))) ops = true →
  ∃ d, map_r (build_cmp v) ops = Ok d
       ∧ forallb parses d = true
       ∧ eval_or d = Ok (existsb (subclause_holds v) ops).
Proof.
  induction ops as [|op ops IH]; simpl.
  - intros _. by exists [].
  - intros [Hop Hops]%andb_prop. apply bool_decide_eq_true in Hop.
    destruct (build_cmp_well_formed v op Hop) as (c & Hc & Hp & He).
    destruct (IH Hops) as (d & Hd & Hpd & Hed).
    exists (c :: d). rewrite Hc, Hd. simpl_bind. split; [done|]. simpl.
    unfold parses at 1. rewrite bool_decide_eq_true_2 by done.
    split; [done|]. rewrite He. simpl_bind.
    by destruct (subclause_holds v op).
Qed.

Lemma build_expr_well_formed (v : list Z) (aps : list string) :
  forallb (λ ap, forallb (λ op, bool_decide (is_Some (parse_subclause op)))
                   (Py.split "|" ap)) aps = true →
  ∃ expr, map_r (build_or v) aps = Ok expr
          ∧ length expr = length aps
          ∧ forallb (forallb parses) expr = true
          ∧ eval_and expr = Ok (forallb (clause_holds v) aps).
Proof.
  induction aps as [|ap aps IH]; cbn [map_r forallb].
  - intros _. by exists [].
  - intros [Hap Haps]%andb_prop.
    destruct (build_or_well_formed v _ Hap) as (d & Hd & Hpd & Hed).
    destruct (IH Haps) as (expr & He & Hlen & Hpe & Hee).
    change (build_or v ap = Ok d) in Hd.
    exists (d :: expr). rewrite Hd, He. simpl_bind.
    split; [done|]. cbn [length forallb eval_and]. rewrite Hpd, Hed. simpl_bind.
    repeat split; [by f_equal | done |].
    unfold clause_holds at 1. by destruct (existsb _ _).
Qed.

Lemma check_spec_well_formed (v : list Z) (spec : string) :
  well_formed spec = true →
  ∃ expr, build_expr v spec = Ok expr ∧ py_eval expr = Ok (spec_holds v spec).
Proof.
  intros Hwf. destruct (build_expr_well_formed v _ Hwf)
    as (expr & He & Hlen & Hpe & Hee).
  exists expr. split; [done|]. unfold py_eval.
  rewrite bool_decide_eq_false_2.
  - fold parses. by rewrite Hpe.
  - intros ->. by destruct (split_nonempty "," spec); destruct (Py.split "," spec).
Qed.

Lemma check_specs_well_formed (v : list Z) (especs : list string) :
  forallb well_formed especs = true →
  check_specs v especs = Ok (existsb (spec_holds v) especs).
Proof.
  induction especs as [|spec especs IH]; cbn [check_specs existsb forallb];
    [done|].
  intros [Hspec Hespecs]%andb_prop.
  destruct (check_spec_well_formed v spec Hspec) as (expr & He & Hp).
  rewrite He. simpl_bind. rewrite Hp. simpl_bind.
  destruct (spec_holds v spec); [done | by apply IH].
Qed.

(** ** Characters of literals, pieces and wildcards *)

Lemma all_chars_impl (p q : ascii → bool) (s : string) :
  (∀ c, p c = true → q c = true) →
  Py.all_chars p s = true → Py.all_chars q s = true.
Proof.
  intros Hpq. induction s as [|c s IH]; simpl; [done|].
  intros [Hc Hs]%andb_prop. by rewrite (Hpq c Hc), IH.
Qed.

Lemma all_chars_contains (p : ascii → bool) (c : ascii) (s : string) :
  p c = false → Py.all_chars p s = true → Py.contains c s = false.
Proof.
  intros Hc. induction s as [|d s IH]; simpl; [done|].
  intros [Hd Hs]%andb_prop. rewrite (IH Hs), orb_false_r.
  apply Ascii.eqb_neq. intros <-. congruence.
Qed.

Lemma contains_append (c : ascii) (s t : string) :
  Py.contains c (s +:+ t) = Py.contains c s || Py.contains c t.
Proof.
  induction s as [|d s IH]; [done|].
  rewrite append_String. simpl. by rewrite IH, orb_assoc.
Qed.





Lemma int_char_not_separator (c : ascii) :
  int_char c = true → c ≠ ","%char ∧ c ≠ "|"%char.
Proof. destruct c as [[] [] [] [] [] [] [] []]; by vm_compute. Qed.



(** Without the separator in it, a text is its own single piece. *)
Lemma split_go_no_separator (sepc : ascii) (cur s : string) :
  Py.contains sepc s = false →
  Py.split_go (String sepc "") 0 cur s = [cur +:+ s].
Proof.
  revert cur; induction s as [|d s IH]; intros cur; simpl Py.contains.
  - intros _. simpl. by rewrite append_empty_r.
  - intros [Hd Hs]%orb_false_elim. cbn [Py.split_go]. rewrite prefix_char, Hd.
    rewrite IH by done. by rewrite append_assoc.
Qed.

Lemma split_no_separator (sepc : ascii) (s : string) :
  Py.contains sepc s = false → Py.split (String sepc "") s = [s].
Proof. apply (split_go_no_separator sepc ""). Qed.


Lemma wildcard_sub_star (spec val : string) :
  wildcard_sub spec = Some val → Py.contains "*" spec = true.
Proof.
  revert val; induction spec as [|d spec IH]; intros val; simpl; [done|].
  destruct (Ascii.eqb d "*" && at_end spec) eqn:E.
  { apply andb_prop in E as [->%Ascii.eqb_eq _]. done. }
  assert (String d <$> wildcard_sub spec = Some val →
          Ascii.eqb "*" d || Py.contains "*" spec = true) as Hrec.
  { destruct (wildcard_sub spec) as [val'|]; [|done]. intros _.
    rewrite (IH val') by done. apply orb_true_r. }
  destruct (ascii_dec d ".") as [->|Hd].
  - destruct spec as [|e t]; [done|].
    destruct (ascii_dec e "*") as [->|He]; [done|].
    revert Hrec. clear -He. destruct e as [[] [] [] [] [] [] [] []]; try done.
  - revert Hrec. clear -Hd. destruct spec as [|e t];
      destruct d as [[] [] [] [] [] [] [] []]; try done.
Qed.
(** ** The limit on conversions *)

Lemma digit_val_bound (c : ascii) :
  Py.is_digit c = true → 0 ≤ Py.digit_val c ≤ 9.
Proof.
  unfold Py.is_digit, Py.digit_val. intros [H1 H2]%andb_prop.
  apply N.leb_le in H1, H2. lia.
Qed.

Lemma count_digits_nonneg (s : string) : 0 ≤ Py.count_digits s.
Proof.
  induction s as [|c s IH]; cbn [Py.count_digits]; [done|].
  destruct (Py.is_digit c); lia.
Qed.

Lemma count_digits_append (s t : string) :
  Py.count_digits (s +:+ t) = Py.count_digits s + Py.count_digits t.
Proof.
  induction s as [|c s IH]; [done|]. rewrite append_String.
  cbn [Py.count_digits]. rewrite IH. lia.
Qed.

Lemma count_digits_no_digit (s : string) :
  Py.all_chars (λ c, negb (Py.is_digit c)) s = true → Py.count_digits s = 0.
Proof.
  induction s as [|c s IH]; cbn [Py.all_chars Py.count_digits]; [done|].
  intros [Hc Hs]%andb_prop. apply negb_true_iff in Hc. rewrite Hc, IH; done.
Qed.

Lemma int_space_not_digit (c : ascii) :
  Py.is_int_space c = true → Py.is_digit c = false.
Proof. destruct c as [[] [] [] [] [] [] [] []]; by vm_compute. Qed.

Lemma count_digits_spaces (s : string) :
  Py.all_chars Py.is_int_space s = true → Py.count_digits s = 0.
Proof.
  intros H. apply count_digits_no_digit. eapply all_chars_impl; [|done].
  intros c Hc. by rewrite (int_space_not_digit c Hc).
Qed.

Lemma count_digits_lstrip (s : string) :
  Py.count_digits (Py.lstrip s) = Py.count_digits s.
Proof.
  induction s as [|c s IH]; [done|]. cbn [Py.lstrip Py.count_digits].
  destruct (Py.is_int_space c) eqn:Hc; [|done].
  by rewrite (int_space_not_digit c Hc), IH.
Qed.

(** The value that [int] reads has no more digits than the text. *)
Lemma int_digits_bound (s : string) (acc : Z) (u : bool) (z : Z) :
  Py.int_digits acc u s = Some z → 0 ≤ acc →
  acc * 10 ^ Py.count_digits s ≤ z < (acc + 1) * 10 ^ Py.count_digits s.
Proof.
  revert acc u; induction s as [|c s IH]; intros acc u;
    cbn [Py.int_digits Py.count_digits].
  - destruct u; [done|]. intros [= <-] ?. rewrite Z.pow_0_r. lia.
  - pose proof (count_digits_nonneg s) as Hn.
    destruct (Py.is_digit c) eqn:Hd.
    + intros H Hacc. pose proof (digit_val_bound c Hd) as Hb.
      apply IH in H; [|lia]. rewrite Z.pow_add_r, Z.pow_1_r by lia.
      assert (0 < 10 ^ Py.count_digits s) by (apply Z.pow_pos_nonneg; lia).
      nia.
    + rewrite Z.add_0_l. destruct (Ascii.eqb c "_").
      * destruct u; [done|]. apply IH.
      * destruct (Py.is_int_space c); [|done]. destruct u; [done|].
        destruct (Py.all_chars Py.is_int_space s) eqn:Hs; [|done].
        intros [= <-] ?. rewrite (count_digits_spaces s Hs), Z.pow_0_r. lia.
Qed.

Lemma int_unsigned_bound (s : string) (z : Z) :
  Py.int_unsigned s = Some z →
  0 ≤ z < 10 ^ Py.count_digits s ∧ 1 ≤ Py.count_digits s.
Proof.
  destruct s as [|c s]; [done|]. cbn [Py.int_unsigned Py.count_digits].
  destruct (Py.is_digit c) eqn:Hd; [|done]. intros H.
  pose proof (digit_val_bound c Hd) as Hb.
  pose proof (count_digits_nonneg s) as Hn.
  apply int_digits_bound in H; [|lia].
  rewrite Z.pow_add_r, Z.pow_1_r by lia.
  assert (0 < 10 ^ Py.count_digits s) by (apply Z.pow_pos_nonneg; lia).
  split; [nia | lia].
Qed.

(** What [int] returns is the value of an unsigned literal with the digits
    of the text, or its opposite, and the text is within the limit. *)
Lemma int_Ok_inv (s : string) (z : Z) :
  Py.int s = Ok z →
  Py.count_digits s ≤ Py.max_str_digits
  ∧ ∃ t z', Py.count_digits t = Py.count_digits s
            ∧ Py.int_unsigned t = Some z' ∧ (z = z' ∨ z = - z').
Proof.
  unfold Py.int. rewrite <- (count_digits_lstrip s).
  destruct (Py.count_digits (Py.lstrip s) <=? Py.max_str_digits) eqn:Hlim.
  2: { by destruct (match Py.lstrip s with "" => _ | _ => _ end). }
  apply Z.leb_le in Hlim. intros H. split; [done|].
  destruct (Py.lstrip s) as [|c t]; [done|].
  destruct (ascii_dec c "+") as [->|Hp].
  { destruct (Py.int_unsigned t) as [z'|] eqn:E; [|done].
    injection H as <-. exists t, z'. split; [done|]. auto. }
  destruct (ascii_dec c "-") as [->|Hm].
  { destruct (Py.int_unsigned t) as [z'|] eqn:E; [|done].
    injection H as <-. exists t, z'. split; [done|]. auto. }
  assert (match Py.int_unsigned (String c t) with
          | Some z => Ok z
          | None => Raise ValueError
          end = Ok z) as H'.
  { revert H. clear -Hp Hm. by destruct c as [[] [] [] [] [] [] [] []]. }
  destruct (Py.int_unsigned (String c t)) as [z'|] eqn:E; [|done].
  injection H' as <-. exists (String c t), z'. auto.
Qed.

Lemma int_bound (s : string) (z : Z) :
  Py.int s = Ok z →
  Z.abs z < 10 ^ Py.count_digits s
  ∧ 1 ≤ Py.count_digits s ≤ Py.max_str_digits.
Proof.
  intros (Hlim & t & z' & Ht & Hu & Hz)%int_Ok_inv.
  apply int_unsigned_bound in Hu as [Hu1 Hu2]. rewrite Ht in Hu1, Hu2.
  split; [destruct Hz as [-> | ->]; lia | lia].
Qed.

Lemma int_digits_string_of_uint (d : Decimal.uint) (acc : Z) :
  Py.int_digits acc false (NilEmpty.string_of_uint d) = Some (uint_value d acc).
Proof.
  revert acc; induction d as [|d IH|d IH|d IH|d IH|d IH|d IH|d IH|d IH|d IH|d IH];
    intros acc; simpl; [done | rewrite IH; do 2 f_equal; vm_compute Py.digit_val; lia ..].
Qed.

Lemma uint_value_acc (d : Decimal.uint) (acc : positive) :
  uint_value d (Z.pos acc) = Z.pos (Pos.of_uint_acc d acc).
Proof.
  revert acc; induction d as [|d IH|d IH|d IH|d IH|d IH|d IH|d IH|d IH|d IH|d IH];
    intros acc; simpl; [done | ..];
    match goal with
    | |- uint_value _ ?z = Z.pos (Pos.of_uint_acc _ ?p) =>
        replace z with (Z.pos p) by lia
    end; apply IH.
Qed.

Lemma uint_value_of_uint (d : Decimal.uint) :
  uint_value d 0 = Z.of_N (Pos.of_uint d).
Proof.
  induction d as [|d IH|d IH|d IH|d IH|d IH|d IH|d IH|d IH|d IH|d IH]; simpl;
    [done | exact IH | apply (uint_value_acc d) ..].
Qed.

Lemma string_of_uint_digits (d : Decimal.uint) :
  Py.all_chars Py.is_digit (NilEmpty.string_of_uint d) = true.
Proof.
  induction d as [|d IH|d IH|d IH|d IH|d IH|d IH|d IH|d IH|d IH|d IH];
    simpl; [done | exact IH ..].
Qed.

(** The numeral of a positive number has no more digits than the number
    needs. *)
Lemma count_digits_string_of_uint (d : Decimal.uint) :
  Py.count_digits (NilEmpty.string_of_uint d)
  = Z.of_nat (Decimal.nb_digits d).
Proof.
  induction d as [|d IH|d IH|d IH|d IH|d IH|d IH|d IH|d IH|d IH|d IH];
    cbn [NilEmpty.string_of_uint Decimal.nb_digits Py.count_digits];
    [done | change (Py.is_digit _) with true; cbv iota; rewrite IH; lia ..].
Qed.

Lemma uint_value_lower (d : Decimal.uint) (acc : Z) :
  0 ≤ acc → acc * 10 ^ Z.of_nat (Decimal.nb_digits d) ≤ uint_value d acc.
Proof.
  revert acc; induction d as [|d IH|d IH|d IH|d IH|d IH|d IH|d IH|d IH|d IH|d IH];
    intros acc Hacc; cbn [uint_value Decimal.nb_digits];
    [rewrite Z.pow_0_r; lia | ..];
    (rewrite Nat2Z.inj_succ, Z.pow_succ_r by lia;
     assert (0 < 10 ^ Z.of_nat (Decimal.nb_digits d))
       by (apply Z.pow_pos_nonneg; lia);
     etrans; [|apply IH; lia]; nia).
Qed.

Lemma to_uint_normal (p : positive) :
  Decimal.unorm (Pos.to_uint p) = Pos.to_uint p.
Proof.
  rewrite <- (DecimalPos.Unsigned.to_of (Pos.to_uint p)).
  by rewrite DecimalPos.Unsigned.of_to.
Qed.

Lemma to_uint_lower (p : positive) :
  10 ^ (Z.of_nat (Decimal.nb_digits (Pos.to_uint p)) - 1) ≤ Z.pos p.
Proof.
  pose proof (to_uint_normal p) as Hnorm.
  pose proof (DecimalPos.Unsigned.to_uint_nonnil p) as Hnil.
  pose proof (Unsigned.to_uint_nonzero p) as Hzero.
  assert (Z.pos p = uint_value (Pos.to_uint p) 0) as ->.
  { by rewrite uint_value_of_uint, DecimalPos.Unsigned.of_to. }
  destruct (Pos.to_uint p) as [|d|d|d|d|d|d|d|d|d|d]; [done | | ..].
  { exfalso. rewrite unorm_D0 in Hnorm. unfold Decimal.unorm in Hnorm.
    destruct (Decimal.nzhead d) eqn:E;
      by apply (nzhead_nonzero d d); rewrite E. }
  all: cbn [uint_value Decimal.nb_digits];
    replace (Z.of_nat (S (Decimal.nb_digits d)) - 1)
      with (Z.of_nat (Decimal.nb_digits d)) by lia;
    etrans; [|apply uint_value_lower; lia]; lia.
Qed.

Lemma string_of_int_count (z n : Z) :
  Z.abs z < 10 ^ n → 1 ≤ n →
  Py.count_digits (NilZero.string_of_int (Z.to_int z)) ≤ n.
Proof.
  intros Hz Hn.
  assert (∀ p, Z.pos p < 10 ^ n →
            Py.count_digits (NilZero.string_of_uint (Pos.to_uint p)) ≤ n) as Hp.
  { intros p Hlt. pose proof (to_uint_lower p) as Hlow.
    pose proof (DecimalPos.Unsigned.to_uint_nonnil p) as Hnil.
    assert (NilZero.string_of_uint (Pos.to_uint p)
            = NilEmpty.string_of_uint (Pos.to_uint p)) as ->
      by by destruct (Pos.to_uint p).
    rewrite count_digits_string_of_uint.
    destruct (Z.le_gt_cases (Z.of_nat (Decimal.nb_digits (Pos.to_uint p))) n)
      as [?|Hgt]; [done|].
    assert (10 ^ n ≤ 10 ^ (Z.of_nat (Decimal.nb_digits (Pos.to_uint p)) - 1))
      by (apply Z.pow_le_mono_r; lia).
    lia. }
  destruct z as [|p|p]; cbn [Z.to_int NilZero.string_of_int].
  - change (Py.count_digits _) with 1. lia.
  - apply Hp. lia.
  - cbn [Py.count_digits]. change (Py.is_digit "-") with false. cbv iota.
    rewrite Z.add_0_l. apply Hp. lia.
Qed.

(** An integer of at most as many digits as the limit allows has a text. *)
Lemma str_of_int_returns (z : Z) :
  Z.abs z < 10 ^ Py.max_str_digits → returns (Py.str_of_int z).
Proof.
  intros H. unfold Py.str_of_int.
  rewrite (proj2 (Z.leb_le _ _)); [by eexists|].
  by apply string_of_int_count.
Qed.

Lemma str_of_int_Raise (z : Z) (e : exn) :
  Py.str_of_int z = Raise e → e = ValueError.
Proof.
  unfold Py.str_of_int. destruct (_ <=? _); [done | by intros [= <-]].
Qed.

Lemma str_of_int_Ok (z : Z) (s : string) :
  Py.str_of_int z = Ok s →
  s = NilZero.string_of_int (Z.to_int z)
  ∧ Py.count_digits s ≤ Py.max_str_digits.
Proof.
  unfold Py.str_of_int.
  destruct (_ <=? _) eqn:E; [|done]. intros [= <-].
  split; [done | by apply Z.leb_le].
Qed.



(** What [int] returns has a text. *)
Lemma int_formats (s : string) (z : Z) :
  Py.int s = Ok z → returns (Py.str_of_int z).
Proof.
  intros [Hz [H1 Hlim]]%int_bound. apply str_of_int_returns.
  eapply Z.lt_le_trans; [exact Hz|]. apply Z.pow_le_mono_r; lia.
Qed.

Lemma map_r_int_formats (l : list string) (nums : list Z) :
  map_r Py.int l = Ok nums → Forall (λ z, returns (Py.str_of_int z)) nums.
Proof.
  rewrite map_r_Ok. induction 1 as [|s z l nums Hz _ IH]; constructor;
    [by eapply int_formats | done].
Qed.

(** The integers of a key can be written into the text that is handed to
    [eval]. *)
Lemma version_key_formats (val : string) (key : list Z) :
  version_key val = Ok key → returns (map_r Py.str_of_int key).
Proof.
  unfold version_key. rewrite split_char_first. simpl_bind.
  destruct (map_r Py.int _) as [nums|e] eqn:Hn; simpl_bind; [|done].
  intros [= <-]. apply map_r_returns, Forall_take.
  by eapply map_r_int_formats.
Qed.
(** ** Runs of digits in the pieces of a text *)

Lemma chomp_no_newline (s : string) :
  Py.contains (Py.chr 10) s = false → chomp s = s.
Proof.
  induction s as [|c s IH]; [done|]. cbn [Py.contains].
  intros [Hc Hs]%orb_false_elim. cbn [chomp].
  rewrite Ascii.eqb_sym, Hc, andb_false_l. by rewrite IH.
Qed.

Lemma span_oper_token (c : ascii) (s : string) :
  is_oper_char c = false → span_oper (String c s) = ("", String c s).
Proof. intros H. simpl. rewrite H. by destruct s. Qed.

Lemma span_oper_cons (c d : ascii) (s : string) :
  is_oper_char c = true →
  span_oper (String c (String d s))
  = (String c (span_oper (String d s)).1, (span_oper (String d s)).2).
Proof.
  intros H.
  change (span_oper (String c (String d s)))
    with (if is_oper_char c
          then let '(o, v) := span_oper (String d s) in (String c o, v)
          else ("", String c (String d s))).
  rewrite H. by destruct (span_oper (String d s)).
Qed.

Lemma findall_digits_count (s : string) :
  Forall (λ r, Py.count_digits r ≤ Py.count_digits s) (Py.findall_digits s).
Proof.
  induction s as [|c s IH]; cbn [Py.findall_digits Py.count_digits];
    [constructor|].
  pose proof (count_digits_nonneg s) as Hn.
  destruct (Py.is_digit c) eqn:Hc.
  - assert (Forall (λ r, Py.count_digits r ≤ 1 + Py.count_digits s)
              (Py.findall_digits s)) as IH'.
    { eapply Forall_impl; [done|]. simpl. intros; lia. }
    assert (Forall (λ r, Py.count_digits r ≤ 1 + Py.count_digits s)
              (String c "" :: Py.findall_digits s)) as Hone.
    { constructor; [|done]. cbn [Py.count_digits]. rewrite Hc. lia. }
    destruct (Py.digit_ahead s); [|done].
    destruct (Py.findall_digits s) as [|r rs]; [done|].
    apply Forall_cons in IH as [Hr Hrs]. apply Forall_cons in IH' as [_ Hrs'].
    constructor; [|done]. cbn [Py.count_digits]. rewrite Hc. lia.
  - rewrite Z.add_0_l. done.
Qed.

(** A text with no more digits than the limit has no run beyond it. *)
Lemma count_digits_runs_ok (s : string) :
  Py.count_digits s ≤ Py.max_str_digits → digit_runs_ok s = true.
Proof.
  intros H. unfold digit_runs_ok. apply forallb_forall.
  intros r Hr%list_elem_of_In. apply Z.leb_le.
  pose proof (findall_digits_count s) as Hall. rewrite Forall_forall in Hall.
  specialize (Hall r Hr). lia.
Qed.

Lemma digit_runs_ok_skip (c : ascii) (t : string) :
  Py.is_digit c = false → digit_runs_ok (String c t) = digit_runs_ok t.
Proof. intros H. unfold digit_runs_ok. cbn [Py.findall_digits]. by rewrite H. Qed.

Lemma digit_runs_ok_app (s : string) (c : ascii) (t : string) :
  Py.is_digit c = false →
  digit_runs_ok (s +:+ String c t) = digit_runs_ok s && digit_runs_ok t.
Proof.
  intros H. rewrite <- (digit_runs_ok_skip c t H). unfold digit_runs_ok.
  by rewrite findall_digits_app, forallb_app.
Qed.

Lemma digit_runs_ok_prefix (o t : string) :
  Py.all_chars (λ c, negb (Py.is_digit c)) o = true →
  digit_runs_ok (o +:+ t) = digit_runs_ok t.
Proof.
  induction o as [|c o IH]; [done|]. cbn [Py.all_chars].
  intros [Hc Ho]%andb_prop. apply negb_true_iff in Hc.
  by rewrite append_String, digit_runs_ok_skip, IH.
Qed.

(** The pieces of a split on a character that is not a digit have the
    runs of the text. *)
Lemma digit_runs_ok_split_go (sepc : ascii) (cur s : string) :
  Py.is_digit sepc = false →
  forallb digit_runs_ok (Py.split_go (String sepc "") 0 cur s)
  = digit_runs_ok (cur +:+ s).
Proof.
  intros Hsep. revert cur; induction s as [|c s IH]; intros cur.
  - simpl. by rewrite append_empty_r, andb_true_r.
  - cbn [Py.split_go]. rewrite prefix_char.
    destruct (Ascii.eqb sepc c) eqn:Hc.
    + apply Ascii.eqb_eq in Hc as <-. cbn [forallb Nat.pred String.length].
      rewrite IH, append_empty_l. by rewrite digit_runs_ok_app.
    + rewrite IH. by rewrite append_assoc.
Qed.

Lemma digit_runs_ok_split (sepc : ascii) (s piece : string) :
  Py.is_digit sepc = false → digit_runs_ok s = true →
  piece ∈ Py.split (String sepc "") s → digit_runs_ok piece = true.
Proof.
  intros Hsep Hs Hin. unfold Py.split in Hin.
  pose proof (digit_runs_ok_split_go sepc "" s Hsep) as H.
  rewrite append_empty_l, Hs, forallb_forall in H.
  apply H. by apply list_elem_of_In.
Qed.

Lemma chomp_cases (s : string) : chomp s = s ∨ s = chomp s +:+ nl.
Proof.
  induction s as [|c s IH]; [by left|]. cbn [chomp].
  destruct (Ascii.eqb c (Py.chr 10) && bool_decide (s = "")) eqn:E.
  - apply andb_prop in E as [->%Ascii.eqb_eq ->%bool_decide_eq_true]. by right.
  - destruct IH as [-> | IH]; [by left|]. right.
    rewrite append_String. by rewrite <- IH.
Qed.

Lemma digit_runs_ok_chomp (s : string) :
  digit_runs_ok s = true → digit_runs_ok (chomp s) = true.
Proof.
  destruct (chomp_cases s) as [-> | H]; [done|]. rewrite H at 1.
  unfold nl. rewrite digit_runs_ok_app by done. by intros [? _]%andb_prop.
Qed.

Lemma before_cases (c : ascii) (s : string) :
  before c s = s ∨ ∃ t, s = before c s +:+ String c t.
Proof.
  induction s as [|d s IH]; [by left|]. cbn [before].
  destruct (Ascii.eqb c d) eqn:E.
  - apply Ascii.eqb_eq in E as <-. right. by exists s.
  - destruct IH as [-> | [t IH]]; [by left|]. right. exists t.
    rewrite append_String. by rewrite <- IH.
Qed.

Lemma digit_runs_ok_before (c : ascii) (s : string) :
  Py.is_digit c = false → digit_runs_ok s = true →
  digit_runs_ok (before c s) = true.
Proof.
  intros Hc. destruct (before_cases c s) as [-> | [t H]]; [done|].
  rewrite H at 1. rewrite digit_runs_ok_app by done. by intros [? _]%andb_prop.
Qed.

Lemma oper_char_not_digit (c : ascii) :
  is_oper_char c = true → Py.is_digit c = false.
Proof. destruct c as [[] [] [] [] [] [] [] []]; by vm_compute. Qed.

Lemma span_oper_spec (s : string) :
  s = (span_oper s).1 +:+ (span_oper s).2
  ∧ Py.all_chars is_oper_char (span_oper s).1 = true.
Proof.
  induction s as [|c s IH]; [done|]. destruct s as [|d s]; [done|].
  destruct (is_oper_char c) eqn:Hc.
  - rewrite span_oper_cons by done. cbn [fst snd].
    destruct IH as [IH1 IH2]. rewrite append_String, <- IH1.
    split; [done|]. cbn [Py.all_chars]. by rewrite Hc.
  - by rewrite span_oper_token.
Qed.

Lemma digit_runs_ok_span_oper (s : string) :
  digit_runs_ok s = true → digit_runs_ok (span_oper s).2 = true.
Proof.
  destruct (span_oper_spec s) as [H Ho]. rewrite H at 1.
  rewrite digit_runs_ok_prefix; [done|].
  eapply all_chars_impl; [|done]. intros c Hc.
  by rewrite (oper_char_not_digit c Hc).
Qed.

(** The version of a sub-clause has the runs of the sub-clause. *)
Lemma findall_clause_runs_ok (op oper ver : string) :
  digit_runs_ok op = true → (oper, ver) ∈ findall_clause op →
  digit_runs_ok (before "a" ver) = true.
Proof.
  intros Hop. unfold findall_clause. case_bool_decide; [by intros ?%elem_of_nil|].
  destruct (Py.all_chars _ _); [|by intros ?%elem_of_nil].
  intros Hin%list_elem_of_singleton.
  apply digit_runs_ok_before; [done|].
  replace ver with (span_oper (chomp op)).2 by by rewrite <- Hin.
  by apply digit_runs_ok_span_oper, digit_runs_ok_chomp.
Qed.

(** The pieces of a split have no more digits than the text. *)
Lemma split_go_count (sep : string) (skip : nat) (cur s : string) :
  Forall (λ p, Py.count_digits p ≤ Py.count_digits cur + Py.count_digits s)
    (Py.split_go sep skip cur s).
Proof.
  revert skip cur; induction s as [|c s IH]; intros skip cur;
    cbn [Py.split_go Py.count_digits].
  - repeat constructor. lia.
  - assert (0 ≤ (if Py.is_digit c then 1 else 0)) as Hc
      by (destruct (Py.is_digit c); lia).
    pose proof (count_digits_nonneg cur) as Hcur.
    destruct skip as [|k].
    + destruct (String.prefix sep (String c s)).
      * constructor; [pose proof (count_digits_nonneg s); lia|].
        eapply Forall_impl; [apply IH|]. cbn [Py.count_digits]. intros; lia.
      * eapply Forall_impl; [apply IH|]. intros p.
        rewrite count_digits_append. cbn [Py.count_digits]. lia.
    + eapply Forall_impl; [apply IH|]. simpl. intros; lia.
Qed.

Lemma split_count (sep s piece : string) :
  piece ∈ Py.split sep s → Py.count_digits piece ≤ Py.count_digits s.
Proof.
  intros Hin. pose proof (split_go_count sep 0 "" s) as H.
  rewrite Forall_forall in H. apply (H piece Hin).
Qed.

Lemma wildcard_sub_count (spec val : string) :
  wildcard_sub spec = Some val → Py.count_digits val = Py.count_digits spec.
Proof.
  revert val; induction spec as [|d spec IH]; intros val;
    cbn [wildcard_sub]; [done|].
  destruct (Ascii.eqb d "*" && at_end spec) eqn:E.
  { apply andb_prop in E as [->%Ascii.eqb_eq _]. by intros [= <-]. }
  assert (String d <$> wildcard_sub spec = Some val →
          Py.count_digits val = Py.count_digits (String d spec)) as Hrec.
  { destruct (wildcard_sub spec) as [val'|]; [|done]. intros [= <-].
    cbn [Py.count_digits]. by rewrite (IH val'). }
  destruct (ascii_dec d ".") as [->|Hd].
  - destruct spec as [|e t]; [done|].
    destruct (ascii_dec e "*") as [->|He].
    + destruct (at_end t) eqn:Ht; [|done]. by intros [= <-].
    + revert Hrec. clear -He.
      destruct e as [[] [] [] [] [] [] [] []]; try done.
  - revert Hrec. clear -Hd. destruct spec as [|e t];
      destruct d as [[] [] [] [] [] [] [] []]; try done.
Qed.
(** ** Which exceptions the parts raise *)

Lemma int_Raise (s : string) (e : exn) : Py.int s = Raise e → e = ValueError.
Proof.
  unfold Py.int.
  destruct (match Py.lstrip s with "" => _ | _ => _ end);
    [destruct (_ <=? _)|]; intros; by simplify_eq.
Qed.

Lemma int_literal_returns (s : string) : int_literal s = true → returns (Py.int s).
Proof. unfold int_literal. destruct (Py.int s) as [z|]; [by exists z | done]. Qed.

Lemma incr_last_returns (l : list Z) : l ≠ [] → returns (incr_last l).
Proof.
  induction l as [|x l IH]; [done|]. intros _. destruct l as [|y l].
  - by eexists.
  - destruct IH as [l' Hl']; [done|]. exists (x :: l').
    change (incr_last (x :: y :: l)) with (incr_last (y :: l) ≫= λ l'', Ok (x :: l'')).
    by rewrite Hl'.
Qed.

Lemma map_r_int_nonempty (sep val : string) (nums : list Z) :
  map_r Py.int (Py.split sep val) = Ok nums → nums ≠ [].
Proof.
  intros Hn ->. apply map_r_length in Hn.
  by destruct (split_nonempty sep val); destruct (Py.split sep val).
Qed.

Lemma expand_wildcard_Raise (spec : string) (e : exn) :
  expand_wildcard spec = Raise e → e = ValueError.
Proof.
  unfold expand_wildcard. destruct (wildcard_sub spec) as [val|]; [|done].
  destruct (map_r Py.int (Py.split "." val)) as [nums|e'] eqn:Hn; simpl_bind.
  - destruct (incr_last_returns nums) as [next ->];
      [by eapply map_r_int_nonempty|]. simpl_bind.
    destruct (map_r Py.str_of_int next) as [texts|e'] eqn:Ht; simpl_bind;
      [done|].
    intros [= <-]. apply map_r_Raise in Ht as (x & _ & Hx).
    by eapply str_of_int_Raise.
  - intros [= <-]. apply map_r_Raise in Hn as (x & _ & Hx).
    by eapply int_Raise.
Qed.

Lemma expand_wildcards_Raise (specs : list string) (e : exn) :
  expand_wildcards specs = Raise e → e = ValueError.
Proof.
  intros (spec & _ & H)%map_r_Raise. by eapply expand_wildcard_Raise.
Qed.

Lemma expand_wildcard_plain (spec : string) :
  wildcard_sub spec = None → expand_wildcard spec = Ok spec.
Proof. intros H. unfold expand_wildcard. by rewrite H. Qed.


Lemma build_cmp_Raise (v : list Z) (op : string) (e : exn) :
  build_cmp v op = Raise e → e = IndexError ∨ e = ValueError.
Proof.
  unfold build_cmp. destruct (findall_clause op) as [|[oper ver] ?]; simpl.
  - intros [= <-]. by left.
  - simpl_bind. destruct (version_key ver) as [key|e'] eqn:Hk; simpl_bind;
      [done|]. intros [= <-]. right. by eapply version_key_Raise.
Qed.

(** A list comprehension whose body can only raise [e0] raises [e0] as soon
    as its body raises on one element. *)
Lemma map_r_Raise_only {A B} (f : A → result B) (l : list A) (e0 : exn) :
  (∀ x e, x ∈ l → f x = Raise e → e = e0) →
  (∃ x, x ∈ l ∧ raises (f x)) →
  map_r f l = Raise e0.
Proof.
  induction l as [|x l IH]; intros Honly (y & Hy & Hraise).
  - by apply elem_of_nil in Hy.
  - simpl. destruct (f x) as [b|e] eqn:Hx.
    + simpl_bind. rewrite IH; [done | |].
      * intros x' e' Hx'. apply Honly. by right.
      * apply elem_of_cons in Hy as [->|Hy]; [|by exists y].
        destruct Hraise as [e He]. congruence.
    + simpl_bind. f_equal. eapply Honly; [left | done].
Qed.


Lemma build_or_Raise (v : list Z) (ap : string) (e : exn) :
  build_or v ap = Raise e → e = IndexError ∨ e = ValueError.
Proof.
  intros (op & _ & H)%map_r_Raise. by eapply build_cmp_Raise.
Qed.

Lemma build_expr_Raise (v : list Z) (spec : string) (e : exn) :
  build_expr v spec = Raise e → e = IndexError ∨ e = ValueError.
Proof.
  intros (ap & _ & H)%map_r_Raise. by eapply build_or_Raise.
Qed.

Lemma eval_cmp_Raise (c : comparison_text) (e : exn) :
  eval_cmp c = Raise e → e = SyntaxError ∨ e = TypeError.
Proof.
  unfold eval_cmp. destruct (parse_binop (cmp_oper c)) as [[]|]; simpl;
    intros; simplify_eq; auto.
Qed.

Lemma eval_or_Raise (d : list comparison_text) (e : exn) :
  eval_or d = Raise e → e = SyntaxError ∨ e = TypeError.
Proof.
  induction d as [|c d IH]; simpl; [done|].
  destruct (eval_cmp c) as [[]|e'] eqn:Hc; simpl_bind; [done | done |].
  intros [= <-]. by eapply eval_cmp_Raise.
Qed.

Lemma eval_and_Raise (expr : list (list comparison_text)) (e : exn) :
  eval_and expr = Raise e → e = SyntaxError ∨ e = TypeError.
Proof.
  induction expr as [|d expr IH]; simpl; [done|].
  destruct (eval_or d) as [[]|e'] eqn:Hd; simpl_bind; [done | done |].
  intros [= <-]. by eapply eval_or_Raise.
Qed.

Lemma py_eval_Raise (expr : list (list comparison_text)) (e : exn) :
  py_eval expr = Raise e → e = SyntaxError ∨ e = TypeError.
Proof.
  unfold py_eval. case_bool_decide; [intros [= <-]; by left|].
  destruct (forallb _ expr); [apply eval_and_Raise | intros [= <-]; by left].
Qed.

Lemma check_specs_Raise (v : list Z) (especs : list string) (e : exn) :
  check_specs v especs = Raise e →
  e = ValueError ∨ e = IndexError ∨ e = SyntaxError ∨ e = TypeError.
Proof.
  induction especs as [|spec especs IH]; cbn [check_specs]; [done|].
  destruct (build_expr v spec) as [expr|e'] eqn:Hb; simpl_bind.
  - destruct (py_eval expr) as [[]|e'] eqn:Hp; simpl_bind; [done | done |].
    intros [= <-]. right. right. by eapply py_eval_Raise.
  - intros [= <-]. apply build_expr_Raise in Hb as [-> | ->]; auto.
Qed.

Lemma check_version_Raise (pkg_ver : string) (specs : list string) (e : exn) :
  check_version pkg_ver specs = Raise e →
  e = ValueError ∨ e = IndexError ∨ e = SyntaxError ∨ e = TypeError.
Proof.
  unfold check_version.
  destruct (version_key pkg_ver) as [v|e'] eqn:Hk; simpl_bind.
  - destruct (expand_wildcards specs) as [especs|e'] eqn:He; simpl_bind.
    + apply check_specs_Raise.
    + intros [= <-]. left. by eapply expand_wildcards_Raise.
  - intros [= <-]. left. by eapply version_key_Raise.
Qed.

Lemma conda_search_Raise (idx : conda_index) (platform pkg : string) (e : exn) :
  conda_search idx platform pkg = Raise e → e = CalledProcessError.
Proof.
  unfold conda_search.
  destruct (last_returns _ (split_nonempty "::" pkg)) as [name ->].
  destruct (idx platform pkg) as [out|out]; simpl_bind; [done|].
  destruct (_ && _); simpl_bind; [done | by intros [= <-]].
Qed.

Lemma collect_pkg_vers_returns (r_base : string) (out : list package_record) :
  returns (collect_pkg_vers r_base out).
Proof.
  induction out as [|item out [pkg_vers IH]]; [by eexists|].
  cbn [collect_pkg_vers].
  destruct (List.filter _ (depends item)) as [|rver ?]; [by eexists|].
  destruct (last_returns _ (split_nonempty " "
    (if bool_decide (rver = "mro-base") then "mro-base ==3.4.3" else rver)))
    as [tok ->].
  simpl_bind. rewrite IH. by eexists.
Qed.
Lemma all_chars_append (p : ascii → bool) (s t : string) :
  Py.all_chars p (s +:+ t) = Py.all_chars p s && Py.all_chars p t.
Proof.
  induction s as [|c s IH]; [done|]. rewrite append_String. simpl.
  by rewrite IH, andb_assoc.
Qed.

Lemma split_go_at_separator (sepc : ascii) (cur p rest : string) :
  Py.contains sepc p = false →
  Py.split_go (String sepc "") 0 cur (p +:+ String sepc rest)
  = (cur +:+ p) :: Py.split_go (String sepc "") 0 "" rest.
Proof.
  revert cur; induction p as [|d p IH]; intros cur; simpl Py.contains.
  - intros _. rewrite append_empty_l, append_empty_r. cbn [Py.split_go].
    by rewrite prefix_char, Ascii.eqb_refl.
  - intros [Hd Hp]%orb_false_elim. rewrite append_String. cbn [Py.split_go].
    rewrite prefix_char, Hd, IH by done. by rewrite append_assoc.
Qed.

Lemma split_two (sepc : ascii) (p q : string) :
  Py.contains sepc p = false → Py.contains sepc q = false →
  Py.split (String sepc "") (p +:+ String sepc q) = [p; q].
Proof.
  intros Hp Hq. unfold Py.split. rewrite split_go_at_separator by done.
  by rewrite split_go_no_separator.
Qed.

(** ** What a wildcard expands to *)

Lemma expand_wildcard_Ok (spec espec : string) :
  expand_wildcard spec = Ok espec →
  (wildcard_sub spec = None ∧ espec = spec)
  ∨ ∃ val nums next texts,
      wildcard_sub spec = Some val
      ∧ map_r Py.int (Py.split "." val) = Ok nums
      ∧ incr_last nums = Ok next
      ∧ map_r Py.str_of_int next = Ok texts
      ∧ espec = (">=" +:+ val)
                +:+ String "," ("<=" +:+ Py.join "." texts +:+ "a0").
Proof.
  unfold expand_wildcard. destruct (wildcard_sub spec) as [val|].
  - destruct (map_r Py.int _) as [nums|] eqn:Hn; simpl_bind; [|done].
    destruct (incr_last nums) as [next|] eqn:Hi; simpl_bind; [|done].
    destruct (map_r Py.str_of_int next) as [texts|] eqn:Ht; simpl_bind;
      [|done].
    intros [= <-]. right. exists val, nums, next, texts.
    repeat split; first [done | by rewrite !append_assoc].
  - intros [= <-]. by left.
Qed.







(** ** Clauses that are no tokens *)








(** ** Specs made of tokens *)








Lemma base_versions_Ok (out : list package_record) (acc s : gset string) :
  base_versions out acc = Ok s →
  ∀ x, x ∈ s ↔ x ∈ acc ∨ (x ∈ version <$> out ∧ floor_ok x = true).
Proof.
  revert acc; induction out as [|item out IH]; intros acc; cbn [base_versions].
  - intros [= <-] x. rewrite fmap_nil, elem_of_nil. naive_solver.
  - destruct (map_r Py.int (Py.split "." (version item))) as [key|e] eqn:Hkey;
      simpl_bind; [|done].
    assert (floor_ok (version item) = negb (Py.tuple_lt key [3; 4; 3])) as Hfl.
    { unfold floor_ok. by rewrite Hkey. }
    destruct (Py.tuple_lt key [3; 4; 3]); intros H x;
      rewrite (IH _ H x), fmap_cons, elem_of_cons.
    + split; [naive_solver|]. intros [?|[[->|?] ?]]; [naive_solver | | naive_solver].
      simpl in Hfl. congruence.
    + rewrite elem_of_union, elem_of_singleton. split; [naive_solver|].
      intros [?|[[->|?] ?]]; naive_solver.
Qed.

Lemma enumerates_elem (set_list : gset string → list string) (s : gset string) :
  enumerates set_list → ∀ x, x ∈ set_list s ↔ x ∈ s.
Proof. intros H x. by rewrite (H s), elem_of_elements. Qed.

Lemma enumerates_NoDup (set_list : gset string → list string) (s : gset string) :
  enumerates set_list → NoDup (set_list s).
Proof. intros H. rewrite (H s). apply NoDup_elements. Qed.

(** ** When no [ValueError] is raised *)

Lemma int_count_limit (s : string) (z : Z) :
  Py.int s = Ok z → digit_runs_ok s = true.
Proof. intros (_ & _ & ?)%int_bound. by apply count_digits_runs_ok. Qed.

(** Dotted integers have no run of digits beyond the limit. *)
Lemma dotted_ints_runs_ok (val : string) :
  dotted_ints val = true → digit_runs_ok val = true.
Proof.
  unfold dotted_ints, Py.split. intros H.
  rewrite <- (append_empty_l val), <- (digit_runs_ok_split_go "." "" val eq_refl).
  apply forallb_forall. intros c Hc. rewrite forallb_forall in H.
  specialize (H c Hc). unfold int_literal in H.
  destruct (Py.int c) as [z|] eqn:Hz; [|done]. by eapply int_count_limit.
Qed.

Lemma join_runs_ok (texts : list string) :
  Forall (λ s, digit_runs_ok s = true) texts →
  digit_runs_ok (Py.join "." texts) = true.
Proof.
  induction 1 as [|x l Hx Hl IH]; [done|]. destruct l as [|y l]; [done|].
  change (Py.join "." (x :: y :: l)) with (x +:+ String "." (Py.join "." (y :: l))).
  by rewrite digit_runs_ok_app, Hx, IH.
Qed.

Lemma texts_runs_ok (next : list Z) (texts : list string) :
  map_r Py.str_of_int next = Ok texts →
  digit_runs_ok (Py.join "." texts) = true.
Proof.
  intros Ht. apply join_runs_ok. apply map_r_Ok in Ht.
  induction Ht as [|z s next texts Hz _ IH]; constructor; [|done].
  apply str_of_int_Ok in Hz as [_ ?]. by apply count_digits_runs_ok.
Qed.

(** An expanded wildcard has no run of digits beyond the limit; a spec
    without a wildcard is handed on with the runs it has. *)
Lemma expand_wildcard_runs_ok (spec espec : string) :
  expand_wildcard spec = Ok espec →
  (wildcard_sub spec = None → digit_runs_ok spec = true) →
  digit_runs_ok espec = true.
Proof.
  intros [[Hsub ->]|(val & nums & next & texts & Hsub & Hn & Hi & Ht & ->)]%expand_wildcard_Ok;
    [auto|]. intros _.
  rewrite digit_runs_ok_app by done.
  rewrite (digit_runs_ok_prefix ">=" val eq_refl).
  rewrite (digit_runs_ok_prefix "<=" _ eq_refl).
  change "a0" with (String "a" "0"). rewrite digit_runs_ok_app by done.
  rewrite (texts_runs_ok next texts Ht).
  rewrite dotted_ints_runs_ok; [done|].
  unfold dotted_ints. apply forallb_forall. intros c Hc%list_elem_of_In.
  destruct (map_r_Ok_elem _ _ _ Hn c Hc) as [z Hz].
  unfold int_literal. by rewrite Hz.
Qed.

Lemma incr_last_bound (B : Z) (l l' : list Z) :
  incr_last l = Ok l' → Forall (λ z, Z.abs z < B) l →
  Forall (λ z, Z.abs z ≤ B) l'.
Proof.
  revert l'; induction l as [|x l IH]; intros l'; [done|].
  destruct l as [|y l].
  - intros [= <-] [Hx _]%Forall_cons. repeat constructor. lia.
  - change (incr_last (x :: y :: l))
      with (incr_last (y :: l) ≫= λ l'', Ok (x :: l'')).
    destruct (incr_last (y :: l)) as [l''|] eqn:E; simpl_bind; [|done].
    intros [= <-] [Hx Hl]%Forall_cons. constructor; [lia|]. by apply IH.
Qed.

(** A constraint in order passes the wildcard expansion. *)
Lemma expand_wildcard_returns (spec : string) :
  constraint_ok spec = true → returns (expand_wildcard spec).
Proof.
  unfold constraint_ok, wildcard_ok, expand_wildcard.
  intros [Hd Hlim%Z.ltb_lt]%andb_prop.
  destruct (wildcard_sub spec) as [val|] eqn:Hsub; [|by eexists].
  apply wildcard_sub_count in Hsub.
  destruct (map_r_returns Py.int (Py.split "." val)) as [nums Hn].
  { apply Forall_forall. intros x Hx. apply int_literal_returns.
    unfold dotted_ints in Hd. rewrite forallb_forall in Hd. apply Hd.
    by apply list_elem_of_In. }
  rewrite Hn. simpl_bind.
  destruct (incr_last_returns nums) as [next Hi];
    [by eapply map_r_int_nonempty|].
  rewrite Hi. simpl_bind.
  destruct (map_r_returns Py.str_of_int next) as [texts ->]; [|by eexists].
  assert (Forall (λ z, Z.abs z < 10 ^ Py.count_digits val) nums) as Hb.
  { apply Forall_forall. intros z Hz.
    apply map_r_Ok in Hn. apply list_elem_of_lookup in Hz as [i Hi'].
    destruct (Forall2_lookup_r _ _ _ _ _ Hn Hi') as (c & Hc & Hcz).
    apply int_bound in Hcz as [Hcz [? _]].
    eapply Z.lt_le_trans; [exact Hcz|]. apply Z.pow_le_mono_r; [lia|].
    apply split_count with ".". by eapply list_elem_of_lookup_2. }
  apply (incr_last_bound _ _ _ Hi) in Hb.
  eapply Forall_impl; [done|]. intros z Hz. apply str_of_int_returns.
  eapply Z.le_lt_trans; [exact Hz|].
  pose proof (count_digits_nonneg val).
  apply Z.pow_lt_mono_r; lia.
Qed.

Lemma expand_wildcards_returns (specs : list string) :
  forallb constraint_ok specs = true → returns (expand_wildcards specs).
Proof.
  intros H. apply map_r_returns, Forall_forall. intros spec Hspec.
  apply expand_wildcard_returns. rewrite forallb_forall in H. apply H.
  by apply list_elem_of_In.
Qed.

Lemma constraint_ok_runs_ok (spec : string) :
  constraint_ok spec = true → digit_runs_ok spec = true.
Proof.
  unfold constraint_ok. intros [_ H%Z.ltb_lt]%andb_prop.
  apply count_digits_runs_ok. lia.
Qed.

Lemma build_cmp_runs_ok (v : list Z) (op : string) :
  digit_runs_ok op = true → build_cmp v op ≠ Raise ValueError.
Proof.
  intros Hop. unfold build_cmp.
  destruct (findall_clause op) as [|[oper ver] l] eqn:E; [done|].
  simpl Py.first. simpl_bind.
  destruct (version_key_returns ver) as [key ->]; [|done].
  apply (findall_clause_runs_ok op oper ver Hop). rewrite E. left.
Qed.

Lemma build_expr_runs_ok (v : list Z) (spec : string) :
  digit_runs_ok spec = true → build_expr v spec ≠ Raise ValueError.
Proof.
  intros Hs (ap & Hap & (op & Hop & H)%map_r_Raise)%map_r_Raise.
  eapply build_cmp_runs_ok; [|done].
  eapply (digit_runs_ok_split "|"); [done | | done].
  by eapply (digit_runs_ok_split ",").
Qed.

Lemma check_specs_runs_ok (v : list Z) (especs : list string) :
  forallb digit_runs_ok especs = true → check_specs v especs ≠ Raise ValueError.
Proof.
  induction especs as [|spec especs IH]; cbn [check_specs forallb]; [done|].
  intros [Hs Hss]%andb_prop.
  pose proof (build_expr_runs_ok v spec Hs) as Hb.
  destruct (build_expr v spec) as [expr|e]; simpl_bind; [|congruence].
  destruct (py_eval expr) as [[]|e] eqn:Hp; simpl_bind; [done | by apply IH |].
  by apply py_eval_Raise in Hp as [-> | ->].
Qed.

Lemma expand_wildcards_runs_ok (specs especs : list string) :
  expand_wildcards specs = Ok especs →
  Forall (λ spec, wildcard_sub spec = None → digit_runs_ok spec = true) specs →
  forallb digit_runs_ok especs = true.
Proof.
  unfold expand_wildcards. rewrite map_r_Ok.
  induction 1 as [|spec espec specs especs H _ IH]; cbn [forallb]; [done|].
  intros [Hs Hss]%Forall_cons.
  by rewrite (expand_wildcard_runs_ok spec espec H Hs), IH.
Qed.

(** With a version and constraints in order, [check_version] raises no
    [ValueError]. *)
Lemma check_version_no_ValueError (pkg_ver : string) (specs : list string) :
  digit_runs_ok (before "a" pkg_ver) = true →
  forallb constraint_ok specs = true →
  check_version pkg_ver specs ≠ Raise ValueError.
Proof.
  intros Hv H. unfold check_version.
  destruct (version_key_returns pkg_ver Hv) as [v ->]. simpl_bind.
  destruct (expand_wildcards_returns specs H) as [especs He]. rewrite He.
  simpl_bind. apply check_specs_runs_ok.
  apply (expand_wildcards_runs_ok specs especs He).
  apply Forall_forall. intros spec Hspec _. apply constraint_ok_runs_ok.
  rewrite forallb_forall in H. apply H. by apply list_elem_of_In.
Qed.

Lemma base_versions_no_ValueError (out : list package_record) (acc : gset string) :
  forallb (λ item, dotted_ints (version item)) out = true →
  returns (base_versions out acc).
Proof.
  revert acc; induction out as [|item out IH]; intros acc; cbn [forallb].
  - intros _. by eexists.
  - intros [Hitem Hout]%andb_prop. cbn [base_versions].
    destruct (map_r_returns Py.int (Py.split "." (version item))) as [key ->].
    { apply Forall_forall. intros x Hx. apply int_literal_returns.
      unfold dotted_ints in Hitem. rewrite forallb_forall in Hitem.
      apply Hitem. by apply list_elem_of_In. }
    simpl_bind. destruct (Py.tuple_lt key [3; 4; 3]); by apply IH.
Qed.

Lemma remove_unsupported_subseteq (vers pkg_vers : list string)
    (acc acc' : gset string) :
  remove_unsupported vers pkg_vers acc = Ok acc' → acc' ⊆ acc.
Proof.
  revert acc; induction vers as [|ver vers IH]; intros acc;
    cbn [remove_unsupported]; [by intros [= <-]|].
  destruct (check_version ver pkg_vers) as [[]|e]; simpl_bind; [apply IH | |done].
  case_bool_decide; [|done]. intros Hr%IH. set_solver.
Qed.

Lemma remove_unsupported_no_ValueError
    (vers pkg_vers : list string) (acc : gset string) :
  Forall (λ ver, digit_runs_ok (before "a" ver) = true) vers →
  forallb constraint_ok pkg_vers = true →
  remove_unsupported vers pkg_vers acc ≠ Raise ValueError.
Proof.
  intros Hvers Hok. revert acc; induction Hvers as [|ver vers Hver _ IH];
    intros acc; cbn [remove_unsupported]; [done|].
  pose proof (check_version_no_ValueError ver pkg_vers Hver Hok) as Hc.
  destruct (check_version ver pkg_vers) as [[]|e]; simpl_bind; [apply IH | |].
  - case_bool_decide; [apply IH | done].
  - congruence.
Qed.

Lemma filter_by_packages_no_ValueError (set_list : gset string → list string)
    (idx : conda_index) (platform r_base : string) (pkgs : list string)
    (acc : gset string) :
  enumerates set_list →
  (∀ ver, ver ∈ acc → digit_runs_ok (before "a" ver) = true) →
  forallb (λ pkg,
      match collect_pkg_vers r_base (records_of idx platform pkg) with
      | Ok pkg_vers => forallb constraint_ok pkg_vers
      | Raise _ => true
      end) pkgs = true →
  filter_by_packages set_list idx platform r_base pkgs acc ≠ Raise ValueError.
Proof.
  intros Hen. revert acc; induction pkgs as [|pkg pkgs IH]; intros acc Hacc;
    cbn [forallb]; [done|].
  intros [Hpkg Hpkgs]%andb_prop. cbn [filter_by_packages].
  unfold records_of in Hpkg.
  destruct (conda_search idx platform pkg) as [out|e] eqn:Hs; simpl_bind.
  - destruct (collect_pkg_vers_returns r_base out) as [pkg_vers Hcol].
    rewrite Hcol in *. simpl_bind.
    pose proof (remove_unsupported_no_ValueError
        (set_list acc) pkg_vers acc) as Hr.
    destruct (remove_unsupported _ _ _) as [acc'|e] eqn:E; simpl_bind.
    + apply IH; [|done]. intros ver Hver. apply Hacc.
      by apply (remove_unsupported_subseteq _ _ _ _ E).
    + intros [= ->]. apply Hr; [|done..].
      apply Forall_forall. intros ver Hver. apply Hacc.
      by apply (enumerates_elem set_list acc Hen).
  - apply conda_search_Raise in Hs as ->. done.
Qed.

(** When the base versions are dotted integers and the collected
    constraints are in order, the resolver raises no [ValueError]. *)
Lemma get_supported_versions_no_ValueError
    (set_list : gset string → list string) (idx : conda_index)
    (platform r_base : string) :
  enumerates set_list →
  versions_ok idx platform r_base = true →
  constraints_ok idx platform r_base = true →
  get_supported_versions set_list idx platform r_base ≠ Raise ValueError.
Proof.
  unfold versions_ok, constraints_ok, get_supported_versions, records_of.
  intros Hen Hv Hc.
  destruct (conda_search idx platform ("r::" +:+ r_base +:+ "-base"))
    as [out|e] eqn:Hs; simpl_bind.
  - destruct out as [|item out]; [done|].
    destruct (base_versions_no_ValueError (item :: out) ∅ Hv) as [vers Hb].
    rewrite Hb. simpl_bind.
    pose proof (filter_by_packages_no_ValueError set_list idx platform r_base
      companions vers Hen) as Hf.
    destruct (filter_by_packages _ _ _ _ _ _) as [vers'|e]; simpl_bind;
      [done|]. intros [= ->]. apply Hf; [|done..].
    intros ver Hver.
    apply (base_versions_Ok _ _ _ Hb) in Hver as [?%elem_of_empty|[Hver _]];
      [done|].
    apply list_elem_of_fmap in Hver as (it & -> & Hit).
    apply digit_runs_ok_before; [done|]. apply dotted_ints_runs_ok.
    rewrite forallb_forall in Hv. apply Hv. by apply list_elem_of_In.
  - apply conda_search_Raise in Hs as ->. done.
Qed.

(** ** The order of iteration of a set *)

Lemma same_outcome_refl {A} (r : result A) : same_outcome r r.
Proof. by destruct r. Qed.

Lemma same_outcome_bind {A B} (r1 r2 : result A) (k1 k2 : A → result B) :
  same_outcome r1 r2 → (∀ a, same_outcome (k1 a) (k2 a)) →
  same_outcome (r1 ≫= k1) (r2 ≫= k2).
Proof.
  destruct r1 as [a|e1], r2 as [b|e2]; simpl; try done.
  intros -> H. apply H.
Qed.

Lemma remove_unsupported_returns_inv
    (vers pkg_vers : list string) (acc : gset string) :
  returns (remove_unsupported vers pkg_vers acc) →
  Forall (λ ver, returns (check_version ver pkg_vers)) vers.
Proof.
  revert acc; induction vers as [|ver vers IH]; intros acc; [constructor|].
  cbn [remove_unsupported].
  destruct (check_version ver pkg_vers) as [ok|e] eqn:Hc; simpl_bind;
    [|by intros [??]].
  intros H. constructor; [by exists ok|].
  destruct ok; [by eapply IH|]. case_bool_decide; [by eapply IH | by destruct H].
Qed.

(** What is left of the set once the loop has run through a list without
    repetitions of its elements: the versions not answered with [False]. *)
Lemma remove_unsupported_Ok (vers pkg_vers : list string) (acc : gset string) :
  NoDup vers → (∀ ver, ver ∈ vers → ver ∈ acc) →
  Forall (λ ver, returns (check_version ver pkg_vers)) vers →
  ∃ acc', remove_unsupported vers pkg_vers acc = Ok acc'
          ∧ ∀ x, x ∈ acc' ↔ x ∈ acc ∧ (x ∈ vers → unsupported pkg_vers x = false).
Proof.
  revert acc; induction vers as [|ver vers IH]; intros acc Hnd Hin Hret.
  - exists acc. split; [done|]. intros x. split; [|by intros [??]].
    intros ?. split; [done|]. by intros ?%elem_of_nil.
  - apply NoDup_cons in Hnd as [Hver Hnd].
    apply Forall_cons in Hret as [[ok Hok] Hret].
    cbn [remove_unsupported]. rewrite Hok. simpl_bind.
    assert (unsupported pkg_vers ver = negb ok) as Hun.
    { unfold unsupported. rewrite Hok. by destruct ok. }
    destruct ok.
    + destruct (IH acc) as (acc' & -> & Hacc'); [done | | done |].
      { intros v Hv. apply Hin. by right. }
      exists acc'. split; [done|]. intros x. rewrite Hacc'.
      split; intros [Hx Hs]; (split; [done|]).
      * intros [->|?]%elem_of_cons; [done | auto].
      * intros ?. apply Hs. by right.
    + rewrite bool_decide_eq_true_2 by (apply Hin; left).
      destruct (IH (acc ∖ {[ver]})) as (acc' & -> & Hacc'); [done | | done |].
      { intros v Hv. apply elem_of_difference. split; [apply Hin; by right|].
        intros ->%elem_of_singleton. done. }
      exists acc'. split; [done|]. intros x. rewrite Hacc'.
      rewrite elem_of_difference, elem_of_singleton.
      split.
      * intros [[Hx Hne] Hs]. split; [done|].
        intros [->|?]%elem_of_cons; [done | auto].
      * intros [Hx Hs]. split; [split; [done|] |].
        -- intros ->. specialize (Hs (ltac:(left))). simpl in Hun. congruence.
        -- intros ?. apply Hs. by right.
Qed.

(** The loop ends alike on two enumerations of the same set. *)
Lemma remove_unsupported_perm
    (vers1 vers2 pkg_vers : list string) (acc : gset string) :
  vers1 ≡ₚ elements acc → vers2 ≡ₚ elements acc →
  same_outcome (remove_unsupported vers1 pkg_vers acc)
               (remove_unsupported vers2 pkg_vers acc).
Proof.
  intros H1 H2.
  assert (∀ vers, vers ≡ₚ elements acc →
    Forall (λ ver, returns (check_version ver pkg_vers)) vers →
    ∃ acc', remove_unsupported vers pkg_vers acc = Ok acc'
      ∧ ∀ x, x ∈ acc' ↔ x ∈ acc ∧ unsupported pkg_vers x = false) as Hchar.
  { intros vers Hp Hret.
    destruct (remove_unsupported_Ok vers pkg_vers acc) as (acc' & E & Hacc');
      [by rewrite Hp; apply NoDup_elements | | done |].
    { intros v. rewrite Hp. apply elem_of_elements. }
    exists acc'. split; [done|]. intros x. rewrite Hacc'.
    split; intros [Hx Hs]; (split; [done|]); [|done].
    apply Hs. rewrite Hp. by apply elem_of_elements. }
  assert (∀ vers vers', vers ≡ₚ elements acc → vers' ≡ₚ elements acc →
    returns (remove_unsupported vers pkg_vers acc) →
    same_outcome (remove_unsupported vers pkg_vers acc)
                 (remove_unsupported vers' pkg_vers acc)) as Hone.
  { intros vers vers' Hp Hp' Hret%remove_unsupported_returns_inv.
    destruct (Hchar vers Hp Hret) as (a & -> & Ha).
    destruct (Hchar vers' Hp') as (b & -> & Hb).
    { by rewrite Hp', <- Hp. }
    simpl. apply set_eq. intros x. by rewrite Ha, Hb. }
  destruct (remove_unsupported vers1 pkg_vers acc) as [a|e1] eqn:E1.
  - rewrite <- E1. apply Hone; [done | done |]. rewrite E1. by exists a.
  - destruct (remove_unsupported vers2 pkg_vers acc) as [b|e2] eqn:E2; [|done].
    specialize (Hone vers2 vers1 H2 H1). rewrite E1, E2 in Hone.
    apply Hone. by exists b.
Qed.

Lemma filter_by_packages_order (set_list1 set_list2 : gset string → list string)
    (idx : conda_index) (platform r_base : string) (pkgs : list string)
    (acc : gset string) :
  enumerates set_list1 → enumerates set_list2 →
  same_outcome (filter_by_packages set_list1 idx platform r_base pkgs acc)
               (filter_by_packages set_list2 idx platform r_base pkgs acc).
Proof.
  intros H1 H2. revert acc; induction pkgs as [|pkg pkgs IH]; intros acc;
    cbn [filter_by_packages]; [done|].
  apply same_outcome_bind; [apply same_outcome_refl|]. intros out.
  apply same_outcome_bind; [apply same_outcome_refl|]. intros pkg_vers.
  apply same_outcome_bind; [by apply remove_unsupported_perm | apply IH].
Qed.

(** [sorted] gives one list for all the enumerations of a set. *)
Lemma sorted_perm (l1 l2 : list string) : l1 ≡ₚ l2 → sorted l1 = sorted l2.
Proof.
  intros Hp. unfold sorted.
  apply (Sorted_unique String.le); [apply Sorted_merge_sort, _ .. |].
  by rewrite !merge_sort_Permutation.
Qed.

Lemma get_supported_versions_order
    (set_list1 set_list2 : gset string → list string)
    (idx : conda_index) (platform r_base : string) :
  enumerates set_list1 → enumerates set_list2 →
  same_outcome (get_supported_versions set_list1 idx platform r_base)
               (get_supported_versions set_list2 idx platform r_base).
Proof.
  intros H1 H2. unfold get_supported_versions.
  apply same_outcome_bind; [apply same_outcome_refl|]. intros [|item out];
    [done|].
  apply same_outcome_bind; [apply same_outcome_refl|]. intros vers.
  apply same_outcome_bind; [by apply filter_by_packages_order|]. intros vers'.
  simpl. apply sorted_perm. by rewrite (H1 vers'), (H2 vers').
Qed.

(** ** [conda_search] *)

(** The test that [conda_search] makes on the error body holds exactly when
    the body names the error of a package that is not found. *)
Lemma not_found_test (body : gmap string json) :
  bool_decide (body ≠ ∅)
  && json_eq_str (default (JString "") (body !! "exception_name"))
       "PackagesNotFoundError" = true
  ↔ signals_not_found body.
Proof.
  unfold signals_not_found. split.
  - intros [_ H]%andb_prop.
    destruct (body !! "exception_name") as [[]|]; simpl in H; try done.
    by apply bool_decide_eq_true in H as ->.
  - intros H. rewrite H. simpl. rewrite andb_true_r.
    apply bool_decide_eq_true. intros ->. by rewrite lookup_empty in H.
Qed.

Lemma conda_search_completed (idx : conda_index) (platform pkg : string)
    (out : gmap string (list package_record)) :
  idx platform pkg = Completed out → returns (conda_search idx platform pkg).
Proof.
  intros H. unfold conda_search. rewrite H. simpl_bind.
  destruct (last_returns _ (split_nonempty "::" pkg)) as [name ->].
  by eexists.
Qed.

Lemma conda_search_not_found (idx : conda_index) (platform pkg : string)
    (body : gmap string json) :
  idx platform pkg = Failed body → signals_not_found body →
  conda_search idx platform pkg = Ok [].
Proof.
  intros H Hnf%not_found_test. unfold conda_search. rewrite H, Hnf. simpl_bind.
  destruct (last_returns _ (split_nonempty "::" pkg)) as [name ->].
  simpl_bind. by rewrite lookup_empty.
Qed.

Lemma conda_search_failed (idx : conda_index) (platform pkg : string)
    (body : gmap string json) :
  idx platform pkg = Failed body → ¬ signals_not_found body →
  conda_search idx platform pkg = Raise CalledProcessError.
Proof.
  intros H Hnf. unfold conda_search. rewrite H.
  destruct (_ && _) eqn:E; [|done]. by apply not_found_test in E.
Qed.

Lemma conda_search_raises (idx : conda_index) (platform pkg : string) :
  raises (conda_search idx platform pkg)
  ↔ ∃ body, idx platform pkg = Failed body ∧ ¬ signals_not_found body.
Proof.
  split.
  - intros Hr. destruct (idx platform pkg) as [out|body] eqn:H.
    + by apply conda_search_completed, returns_not_raises in H.
    + exists body. split; [done|]. intros Hnf.
      rewrite (conda_search_not_found _ _ _ _ H Hnf) in Hr. by destruct Hr.
  - intros (body & H & Hnf). exists CalledProcessError.
    by eapply conda_search_failed.
Qed.

(** ** [sample] *)

Lemma interior_middle {A} (x z : A) (mid : list A) :
  interior (x :: mid ++ [z]) = mid.
Proof.
  unfold interior. cbn [length]. rewrite length_app. cbn [length].
  replace (S (length mid + 1) - 1)%nat with (S (length mid)) by lia.
  cbn [take]. rewrite take_app_length. done.
Qed.

Lemma last_middle {A} (x z : A) (mid : list A) :
  Py.last (x :: mid ++ [z]) = Ok z.
Proof. unfold Py.last. by rewrite app_comm_cons, last_snoc. Qed.

Lemma random_choice_elem (rnd : nat) (seq : list string) :
  seq ≠ [] → ∃ pick, random_choice rnd seq = Ok pick ∧ pick ∈ seq.
Proof.
  intros Hne. unfold random_choice.
  destruct (lookup_lt_is_Some_2 seq (rnd `mod` length seq)%nat) as [pick Hp].
  { apply Nat.mod_upper_bound. by destruct seq. }
  rewrite Hp. exists pick. split; [done|]. by eapply list_elem_of_lookup_2.
Qed.

Lemma sample_small (rnd : nat) (info : list string) :
  (length info ≤ 2)%nat → sample rnd info = Ok (list_to_set info).
Proof.
  destruct info as [|x [|y [|??]]]; simpl; intros; try lia;
    unfold sample; simpl; f_equal; set_solver.
Qed.

Lemma sample_large (rnd : nat) (info : list string) :
  NoDup info → (3 ≤ length info)%nat →
  ∃ oldest newest pick,
    head info = Some oldest ∧ list.last info = Some newest
    ∧ pick ∈ interior info
    ∧ sample rnd info = Ok {[oldest; newest; pick]}
    ∧ size ({[oldest; newest; pick]} : gset string) = 3%nat.
Proof.
  intros Hnd Hlen. destruct info as [|x info]; [simpl in Hlen; lia|].
  destruct info as [|z mid _] using rev_ind; [simpl in Hlen; lia|].
  assert (mid ≠ []) as Hmid.
  { intros ->. simpl in Hlen. lia. }
  destruct (random_choice_elem rnd mid Hmid) as (pick & Hpick & Hin).
  exists x, z, pick. rewrite interior_middle.
  split; [done|]. split; [by rewrite app_comm_cons, last_snoc|].
  split; [done|].
  apply NoDup_cons in Hnd as [Hx Hnd]. apply NoDup_app in Hnd as (_ & Hz & _).
  assert (x ≠ z) by (intros ->; apply Hx; set_solver).
  assert (x ≠ pick) by (intros ->; apply Hx; set_solver).
  assert (pick ≠ z) by (intros ->; eapply Hz; [done | set_solver]).
  split.
  - unfold sample. rewrite last_middle. simpl Py.first. simpl_bind.
    assert ((2 <? length (x :: mid ++ [z]))%nat = true) as ->.
    { apply Nat.ltb_lt. lia. }
    rewrite interior_middle, Hpick. simpl_bind. f_equal. set_solver.
  - rewrite !size_union, !size_singleton by set_solver. done.
Qed.

(** ** The copying loop *)

Lemma copy_template_plain (block lines rest : list string) :
  forallb (λ line, negb (Py.startswith "envlist" line)) lines = true →
  copy_template block None (lines ++ rest)
  = lines ++ copy_template block None rest.
Proof.
  induction lines as [|line lines IH]; cbn [forallb]; [done|].
  intros [Hl Hls]%andb_prop. apply negb_true_iff in Hl.
  rewrite <- app_comm_cons. cbn [copy_template]. rewrite Hl. by rewrite IH.
Qed.

Lemma copy_template_skip (block conts rest : list string) (line nxt : string) :
  forallb (Py.startswith " ") conts = true →
  Py.startswith " " nxt = false →
  copy_template block (Some line) (conts ++ nxt :: rest)
  = nxt :: copy_template block None rest.
Proof.
  intros Hc Hn. revert line; induction conts as [|c conts IH]; intros line.
  - simpl app. cbn [copy_template]. by rewrite Hn.
  - cbn [forallb] in Hc. apply andb_prop in Hc as [Hc Hcs].
    rewrite <- app_comm_cons. cbn [copy_template]. rewrite Hc. by apply IH.
Qed.

(** A template with one [envlist] line, its continuation lines and a line
    that ends them. *)
Lemma copy_template_block (block pre conts post : list string) (e nxt : string) :
  forallb (λ line, negb (Py.startswith "envlist" line)) pre = true →
  Py.startswith "envlist" e = true →
  forallb (Py.startswith " ") conts = true →
  Py.startswith " " nxt = false →
  forallb (λ line, negb (Py.startswith "envlist" line)) post = true →
  copy_template block None (pre ++ e :: conts ++ nxt :: post)
  = pre ++ block ++ nxt :: post.
Proof.
  intros Hpre He Hc Hn Hpost. rewrite copy_template_plain by done.
  cbn [copy_template]. rewrite He, copy_template_skip by done.
  do 3 f_equal. rewrite <- (app_nil_r post) at 1.
  rewrite copy_template_plain by done. simpl. by rewrite app_nil_r.
Qed.

(** Every version of every family has its name in [envlist]. *)
Lemma generated_envlist_complete (pkg : string)
    (subset : gmap string (gset string)) (base ver : string)
    (vers : gset string) :
  subset !! base = Some vers → ver ∈ vers →
  env_name base ver pkg ∈ generated_envlist pkg subset.
Proof.
  intros Hb Hv. unfold generated_envlist.
  apply list_elem_of_bind. exists (base, vers). split.
  - apply list_elem_of_bind. exists ver. split; [simpl; set_solver|].
    unfold sorted. rewrite merge_sort_Permutation. by apply elem_of_elements.
  - unfold sorted_items. rewrite merge_sort_Permutation.
    by apply elem_of_map_to_list.
Qed.
(** ** Failed queries in the resolver and in [main] *)

Lemma get_supported_versions_base_failed
    (set_list : gset string → list string) (idx : conda_index)
    (platform r_base : string) (body : gmap string json) :
  idx platform ("r::" +:+ r_base +:+ "-base") = Failed body →
  ¬ signals_not_found body →
  get_supported_versions set_list idx platform r_base
  = Raise CalledProcessError.
Proof.
  intros H Hnf. unfold get_supported_versions.
  by rewrite (conda_search_failed _ _ _ _ H Hnf).
Qed.

Lemma filter_by_packages_failed (set_list : gset string → list string)
    (idx : conda_index) (platform r_base pkg : string) (pkgs : list string)
    (acc : gset string) (body : gmap string json) :
  pkg ∈ pkgs → idx platform pkg = Failed body → ¬ signals_not_found body →
  raises (filter_by_packages set_list idx platform r_base pkgs acc).
Proof.
  intros Hin H Hnf. revert acc; induction pkgs as [|p pkgs IH]; intros acc.
  - by apply elem_of_nil in Hin.
  - cbn [filter_by_packages].
    destruct (conda_search idx platform p) as [out|e] eqn:Hs; simpl_bind;
      [|by exists e].
    apply elem_of_cons in Hin as [->|Hin].
    { by rewrite (conda_search_failed _ _ _ _ H Hnf) in Hs. }
    destruct (collect_pkg_vers r_base out) as [pkg_vers|e]; simpl_bind;
      [|by exists e].
    destruct (remove_unsupported _ _ _) as [acc'|e]; simpl_bind;
      [by apply IH | by exists e].
Qed.

(** Once the base package has records, every companion is queried or an
    exception has been raised before. *)
Lemma get_supported_versions_companion_failed
    (set_list : gset string → list string) (idx : conda_index)
    (platform r_base pkg : string) (body : gmap string json) :
  pkg ∈ companions → idx platform pkg = Failed body →
  ¬ signals_not_found body →
  records_of idx platform ("r::" +:+ r_base +:+ "-base") ≠ [] →
  raises (get_supported_versions set_list idx platform r_base).
Proof.
  intros Hin H Hnf Hrec. unfold get_supported_versions, records_of in *.
  destruct (conda_search idx platform ("r::" +:+ r_base +:+ "-base"))
    as [[|item out]|e]; simpl_bind; [done | | by exists e].
  destruct (base_versions (item :: out) ∅) as [vers|e]; simpl_bind;
    [|by exists e].
  destruct (filter_by_packages_failed set_list idx platform r_base pkg
              companions vers body Hin H Hnf) as [e ->].
  by exists e.
Qed.

(** [sample] never raises: the tests on the length keep the indexing and
    the random choice within bounds. *)
Lemma sample_returns (rnd : nat) (info : list string) :
  returns (sample rnd info).
Proof.
  destruct info as [|x info]; [by eexists|].
  unfold sample. simpl Py.first. simpl_bind.
  destruct (last_returns (x :: info) ltac:(done)) as [z ->]. simpl_bind.
  destruct (2 <? length (x :: info))%nat eqn:Hlen; [|by eexists].
  apply Nat.ltb_lt in Hlen.
  destruct (random_choice_elem rnd (interior (x :: info))) as (pick & -> & _);
    [|by eexists].
  intros E. apply (f_equal length) in E. unfold interior in E.
  rewrite length_drop, length_take in E. simpl in E, Hlen. lia.
Qed.

(** The outcome of [main]: the first exception of the two resolutions and
    of the two files opened, or the lines written. *)
Lemma main_outcome (set_list : gset string → list string) (idx : conda_index)
    (platform : string) (tox_in : result (list string))
    (tox_out : result unit) (rnd_r rnd_mro : nat) :
  main set_list idx platform tox_in tox_out rnd_r rnd_mro
  = match get_supported_versions set_list idx platform "r",
          get_supported_versions set_list idx platform "mro",
          tox_in, tox_out with
    | Raise e, _, _, _ => Raise e
    | Ok _, Raise e, _, _ => Raise e
    | Ok _, Ok _, Raise e, _ => Raise e
    | Ok _, Ok _, Ok _, Raise e => Raise e
    | Ok info_r, Ok info_mro, Ok lines, Ok _ =>
        match sample rnd_r info_r, sample rnd_mro info_mro with
        | Ok subset_r, Ok subset_mro =>
            Ok (emit "conda" lines
                  {[ "r" := subset_r; "mro" := subset_mro ]})
        | Raise e, _ => Raise e
        | _, Raise e => Raise e
        end
    end.
Proof.
  unfold main.
  destruct (get_supported_versions set_list idx platform "r") as [info_r|e1];
    simpl_bind; [|done].
  destruct (get_supported_versions set_list idx platform "mro")
    as [info_mro|e2]; simpl_bind; [|done].
  destruct (sample_returns rnd_r info_r) as [sr ->].
  destruct (sample_returns rnd_mro info_mro) as [sm ->]. simpl_bind.
  destruct tox_in as [lines|e3]; simpl_bind; [|done].
  by destruct tox_out as [[]|e4].
Qed.

Lemma main_resolution_raises (set_list : gset string → list string)
    (idx : conda_index) (platform : string) (tox_in : result (list string))
    (tox_out : result unit) (rnd_r rnd_mro : nat) (e : exn) :
  get_supported_versions set_list idx platform "r" = Raise e
  ∨ (returns (get_supported_versions set_list idx platform "r")
     ∧ get_supported_versions set_list idx platform "mro" = Raise e) →
  main set_list idx platform tox_in tox_out rnd_r rnd_mro = Raise e.
Proof.
  rewrite main_outcome. intros [-> | [[info_r ->] ->]]; done.
Qed.

(** * The claims *)

(** C1. The wildcard ["1.2.*"] expands to [>=1.2,<=1.3a0]: the upper bound
    is written with [<=], and [version_key] drops the [a0] of the bound, so
    the constraint is satisfied by ["1.2.0"] and ["1.2.9"], not by ["1.1.9"],
    and, against the half-open range of the specification, by ["1.3.0"]. *)
Theorem C1_wildcard_upper_bound_inclusive :
  expand_wildcards ["1.2.*"] = Ok [">=1.2,<=1.3a0"]
  ∧ check_version "1.2.0" ["1.2.*"] = Ok true
  ∧ check_version "1.2.9" ["1.2.*"] = Ok true
  ∧ check_version "1.1.9" ["1.2.*"] = Ok false
  ∧ check_version "1.3.0" ["1.2.*"] = Ok true.
Proof. repeat split; by vm_compute. Qed.

(** C2, counterexample. A text without digits has the key [(0, 0)], of two
    components, not the zero version of three; and a text that is a run of
    4301 digits has no key: [int] refuses the run and [version_key] raises
    [ValueError]. *)
Lemma C2_version_key_counterexample :
  any_chars Py.is_digit "rc" = false
  ∧ version_key "rc" = Ok [0; 0]
  ∧ (¬ ∃ major minor patch, version_key "rc" = Ok [major; minor; patch])
  ∧ Py.count_digits long_run = 4301
  ∧ version_key long_run = Raise ValueError.
Proof.
  split; [done|]. split; [done|]. split; [by intros (? & ? & ? & ?)|].
  split; [by vm_compute|]. apply version_key_not_ok. by vm_compute.
Qed.

(** C2, amended. [version_key] returns, without raising, for every text
    none of whose runs of digits before the first [a] is longer than 4300
    digits: a tuple of integers that are not negative, of three components
    when a digit stands before the first [a] of the text and [(0, 0)]
    otherwise. For a text with a longer run before its first [a] it raises
    [ValueError]. The keys of ["2.3.1"], ["3.4a0"] and ["1.0"] are
    [(2, 3, 1)], [(3, 4, 0)] and [(1, 0, 0)]. *)
Theorem C2_version_key_returns :
  (∀ val, digit_runs_ok (before "a" val) = true →
     ∃ key, version_key val = Ok key ∧ Forall (λ z, 0 ≤ z) key ∧
       if any_chars Py.is_digit (before "a" val) then length key = 3%nat
       else key = [0; 0])
  ∧ (∀ val, digit_runs_ok (before "a" val) = false →
       version_key val = Raise ValueError)
  ∧ version_key "2.3.1" = Ok [2; 3; 1]
  ∧ version_key "3.4a0" = Ok [3; 4; 0]
  ∧ version_key "1.0" = Ok [1; 0; 0].
Proof.
  split; [|split; [apply version_key_not_ok | by vm_compute]].
  intros val H. pose proof (version_key_shape val) as Hs. by rewrite H in Hs.
Qed.

Lemma C2_version_key_returns_witness :
  (∃ key, version_key "3.6.0rc1" = Ok key ∧ Forall (λ z, 0 ≤ z) key ∧
     if any_chars Py.is_digit (before "a" "3.6.0rc1") then length key = 3%nat
     else key = [0; 0])
  ∧ version_key (long_run +:+ ".0") = Raise ValueError.
Proof.
  destruct C2_version_key_returns as (Hret & Hraise & _). split.
  - apply (Hret "3.6.0rc1"). reflexivity.
  - apply (Hraise (long_run +:+ ".0")). by vm_compute.
Defined.

(** C3, counterexample. For a version that is a run of 4301 digits
    [check_version] raises [ValueError], for the empty list of specs too: it
    does not return [False]. *)
Lemma C3_digit_limit_counterexample :
  Py.count_digits long_run = 4301
  ∧ check_version long_run [] = Raise ValueError
  ∧ check_version long_run [">=3.4.3"] = Raise ValueError.
Proof.
  assert (version_key long_run = Raise ValueError) as H
    by (apply version_key_not_ok; by vm_compute).
  split; [by vm_compute|].
  split; unfold check_version; rewrite H; reflexivity.
Qed.

(** C3, amended. For every version none of whose runs of digits before the
    first [a] is longer than 4300 digits, and every list of specs that
    expands, each expanded spec being made of (operator, Version)
    sub-clauses, [check_version] returns, and returns [True] exactly when
    some expanded spec holds, a spec holding when each of its comma-separated
    clauses has a pipe-separated sub-clause whose comparison holds (the empty
    operator read as [>=], [=] as [==]); for such a version the empty list of
    specs gives [False]; and the three sample evaluations come out as
    stated. *)
Theorem C3_check_version_and_or (pkg_ver : string) (specs especs : list string) :
  digit_runs_ok (before "a" pkg_ver) = true →
  expand_wildcards specs = Ok especs →
  forallb well_formed especs = true →
  (∃ key ok, version_key pkg_ver = Ok key
     ∧ check_version pkg_ver specs = Ok ok
     ∧ (ok = true ↔ ∃ spec, spec ∈ especs ∧ spec_holds key spec = true))
  ∧ check_version pkg_ver [] = Ok false
  ∧ check_version "3.5.0" [">=3.4.3,<4.0.0a0"] = Ok true
  ∧ check_version "3.4.2" [">=3.4.3"] = Ok false
  ∧ check_version "3.5.0" ["==3.5.0|==3.6.0"] = Ok true.
Proof.
  intros Hv Hex Hwf. destruct (version_key_returns pkg_ver Hv) as [key Hkey].
  split; [|split; [|by vm_compute]].
  - exists key, (existsb (spec_holds key) especs). split; [done|]. split.
    + unfold check_version. rewrite Hkey, Hex. simpl_bind.
      by apply check_specs_well_formed.
    + rewrite existsb_exists. by setoid_rewrite list_elem_of_In.
  - unfold check_version. by rewrite Hkey.
Qed.

Lemma C3_check_version_and_or_witness :
  ∃ key ok, version_key "3.5.0" = Ok key
    ∧ check_version "3.5.0" ["3.4.*"; ">=3.5,<4|=4.1"] = Ok ok
    ∧ (ok = true ↔ ∃ spec, spec ∈ [">=3.4,<=3.5a0"; ">=3.5,<4|=4.1"]
                            ∧ spec_holds key spec = true).
Proof.
  apply (C3_check_version_and_or "3.5.0" ["3.4.*"; ">=3.5,<4|=4.1"]
           [">=3.4,<=3.5a0"; ">=3.5,<4|=4.1"]); by vm_compute.
Defined.

(** C4, counterexample. A pre-release among the versions of the base
    package makes the floor comparison raise [ValueError], and so does a
    companion whose constraint is a lone star in the wildcard expansion. *)
Lemma C4_parse_failure_counterexample :
  get_supported_versions elements prerelease_index "linux-64" "r"
  = Raise ValueError
  ∧ get_supported_versions elements any_version_index "linux-64" "r"
    = Raise ValueError.
Proof. split; by vm_compute. Qed.

(** C4, amended. [version_key] returns exactly for the texts none of whose
    runs of digits before the first [a] is longer than 4300 digits. The
    resolver parses with [int] in the floor comparison and in the wildcard
    expansion: when every version of the base package is a dot-separated list
    of integer literals, and every constraint collected from the companions
    has fewer than 4300 digits and, if it ends in a wildcard, has such a list
    before the wildcard, the resolver raises no [ValueError]. *)
Theorem C4_no_parse_failure (set_list : gset string → list string)
    (idx : conda_index) (platform r_base : string) :
  enumerates set_list →
  versions_ok idx platform r_base = true →
  constraints_ok idx platform r_base = true →
  get_supported_versions set_list idx platform r_base ≠ Raise ValueError
  ∧ ∀ val, returns (version_key val)
           ↔ digit_runs_ok (before "a" val) = true.
Proof.
  intros Hen Hv Hc.
  split; [by apply get_supported_versions_no_ValueError|].
  intros val. split; [|apply version_key_returns].
  intros [key H]. by apply version_key_Ok in H as [? _].
Qed.

Lemma C4_no_parse_failure_witness :
  get_supported_versions elements sample_index "linux-64" "r" ≠ Raise ValueError
  ∧ ∀ val, returns (version_key val)
           ↔ digit_runs_ok (before "a" val) = true.
Proof.
  apply (C4_no_parse_failure elements sample_index "linux-64" "r");
    [intros s; reflexivity | by vm_compute ..].
Defined.

(** C5, counterexample. A continuation line indented with a tab ends the
    block and is copied into the output. *)
Lemma C5_tab_counterexample :
  emit "conda"
    ["envlist = foo" +:+ nl; tab +:+ "bar" +:+ nl; "[testenv]" +:+ nl] ∅
  = ["envlist =" +:+ nl; "    empty" +:+ nl;
     tab +:+ "bar" +:+ nl; "[testenv]" +:+ nl]
    ++ (item ← out_header ; [item; nl]).
Proof. by vm_compute. Qed.

(** C5, amended. In a template whose one line beginning with [envlist] is
    followed by lines that begin with a space and then by a line that does
    not, the emitter copies the template except that the [envlist] line and
    those lines beginning with a space are replaced by the generated block;
    the block lists the name of every version of every family, and [empty];
    the generated environments follow the copy. *)
Theorem C5_emit_replaces_envlist (pkg : string)
    (subset : gmap string (gset string))
    (pre conts post : list string) (e nxt : string) :
  forallb (λ line, negb (Py.startswith "envlist" line)) pre = true →
  Py.startswith "envlist" e = true →
  forallb (Py.startswith " ") conts = true →
  Py.startswith " " nxt = false →
  forallb (λ line, negb (Py.startswith "envlist" line)) post = true →
  emit pkg (pre ++ e :: conts ++ nxt :: post) subset
  = (pre ++ envlist_block (generated_envlist pkg subset) ++ nxt :: post)
    ++ (item ← generated_out pkg subset ; [item; nl])
  ∧ (∀ base vers ver, subset !! base = Some vers → ver ∈ vers →
       "    " +:+ env_name base ver pkg +:+ nl
       ∈ envlist_block (generated_envlist pkg subset))
  ∧ "    empty" +:+ nl ∈ envlist_block (generated_envlist pkg subset).
Proof.
  intros Hpre He Hc Hn Hpost. split; [|split].
  - unfold emit. by rewrite copy_template_block.
  - intros base vers ver Hb Hv. unfold envlist_block.
    apply elem_of_app. right. apply elem_of_app. left.
    apply (list_elem_of_fmap_2 (λ item, "    " +:+ item +:+ nl)).
    by eapply generated_envlist_complete.
  - unfold envlist_block. rewrite !elem_of_app. right. right. by left.
Qed.

Lemma C5_emit_replaces_envlist_witness :
  emit "conda"
    (["[tox]" +:+ nl] ++ ("envlist = foo" +:+ nl)
       :: ["    bar" +:+ nl] ++ nl :: ["[testenv]" +:+ nl])
    {[ "r" := {[ "3.5.0" ]} ]}
  = (["[tox]" +:+ nl]
     ++ envlist_block (generated_envlist "conda" {[ "r" := {[ "3.5.0" ]} ]})
     ++ nl :: ["[testenv]" +:+ nl])
    ++ (item ← generated_out "conda" {[ "r" := {[ "3.5.0" ]} ]} ; [item; nl]).
Proof.
  apply (C5_emit_replaces_envlist "conda" {[ "r" := {[ "3.5.0" ]} ]}
           ["[tox]" +:+ nl] ["    bar" +:+ nl] ["[testenv]" +:+ nl]
           ("envlist = foo" +:+ nl) nl); reflexivity.
Defined.

(** C6. On the template that consists of an [envlist] line and one
    indented continuation line, with the matrix that maps [r] to ["3.5.0"],
    the inner loop runs the iterator dry and the write that follows it puts
    the continuation line after the generated block: the block of the file
    holds [r350-conda-cicd], [empty] and the stale [bar]. The generated
    section that pins [r-base==3.5.0] and the environment [empty] are there.
    The whole run of [main] on an index with that one version, with that
    template read and the output file opened, writes the same block. With a line after the continuation line the block is as the
    specification says. *)
Theorem C6_envlist_at_end_of_template :
  emit "conda" ["envlist = foo" +:+ nl; "    bar" +:+ nl]
    {[ "r" := {[ "3.5.0" ]} ]}
  = ["envlist =" +:+ nl; "    r350-conda-cicd" +:+ nl; "    empty" +:+ nl;
     "    bar" +:+ nl]
    ++ (item ← [""; "#"; "# BEGIN GENERATED ENVIRONMENTS"; "#"; "";
                "[testenv:empty]"; "commands ="; "deps ="; "conda_deps ="; "";
                "#"; "# r-base"; "#"; "";
                "# R 3.5.0";
                "[testenv:r350-conda-cicd]";
                "commands = {[testenv:conda]commands}";
                "conda_deps =";
                "    r-base==3.5.0";
                "    {[testenv]conda_deps}";
                ""] ; [item; nl])
  ∧ (∃ writes,
       main elements single_version_index "linux-64"
         (Ok ["envlist = foo" +:+ nl; "    bar" +:+ nl]) (Ok ()) 0 0
       = Ok writes
       ∧ take 4 writes
         = ["envlist =" +:+ nl; "    r350-conda-cicd" +:+ nl;
            "    empty" +:+ nl; "    bar" +:+ nl])
  ∧ take 4 (emit "conda"
              ["envlist = foo" +:+ nl; "    bar" +:+ nl; "[testenv]" +:+ nl]
              {[ "r" := {[ "3.5.0" ]} ]})
    = ["envlist =" +:+ nl; "    r350-conda-cicd" +:+ nl; "    empty" +:+ nl;
       "[testenv]" +:+ nl].
Proof.
  split; [by vm_compute|]. split; [|by vm_compute].
  eexists. split; [by vm_compute | done].
Qed.

(** C7. The sample of the empty list is empty; the sample of a list of at
    most two versions is the set of them; the sample of a list of three or
    more distinct versions is made of the first, the last and an interior
    version, and has exactly three elements, whatever number is drawn; the
    sample of ["1.0"; "2.0"; "3.0"; "4.0"] holds ["1.0"] and ["4.0"] and has
    three elements. *)
Theorem C7_sample (rnd : nat) (info : list string) :
  sample rnd [] = Ok ∅
  ∧ ((length info ≤ 2)%nat → sample rnd info = Ok (list_to_set info))
  ∧ (NoDup info → (3 ≤ length info)%nat →
     ∃ subset oldest newest pick,
       sample rnd info = Ok subset
       ∧ head info = Some oldest ∧ list.last info = Some newest
       ∧ pick ∈ interior info
       ∧ subset = {[oldest; newest; pick]}
       ∧ oldest ∈ subset ∧ newest ∈ subset ∧ size subset = 3%nat)
  ∧ (∃ subset, sample rnd ["1.0"; "2.0"; "3.0"; "4.0"] = Ok subset
       ∧ "1.0" ∈ subset ∧ "4.0" ∈ subset ∧ size subset = 3%nat).
Proof.
  assert (∀ l, NoDup l → (3 ≤ length l)%nat →
     ∃ subset oldest newest pick,
       sample rnd l = Ok subset
       ∧ head l = Some oldest ∧ list.last l = Some newest
       ∧ pick ∈ interior l
       ∧ subset = {[oldest; newest; pick]}
       ∧ oldest ∈ subset ∧ newest ∈ subset ∧ size subset = 3%nat) as Hlarge.
  { intros l Hnd Hlen.
    destruct (sample_large rnd l Hnd Hlen)
      as (oldest & newest & pick & Ho & Hn & Hp & Hs & Hsize).
    exists {[oldest; newest; pick]}, oldest, newest, pick.
    repeat split; try done; set_solver. }
  split; [done|]. split; [apply sample_small|]. split; [apply Hlarge|].
  destruct (Hlarge ["1.0"; "2.0"; "3.0"; "4.0"])
    as (subset & oldest & newest & pick & Hs & Ho & Hn & _ & _ & ? & ? & ?).
  { by apply (bool_decide_unpack _). }
  { simpl. lia. }
  injection Ho as <-. injection Hn as <-. by exists subset.
Qed.

Lemma C7_sample_witness :
  sample 5 ["3.4.3"; "3.5.0"] = Ok (list_to_set ["3.4.3"; "3.5.0"])
  ∧ ∃ subset oldest newest pick,
      sample 5 ["3.4.3"; "3.5.0"; "3.5.1"; "3.6.0"; "4.0.0"] = Ok subset
      ∧ head ["3.4.3"; "3.5.0"; "3.5.1"; "3.6.0"; "4.0.0"] = Some oldest
      ∧ list.last ["3.4.3"; "3.5.0"; "3.5.1"; "3.6.0"; "4.0.0"] = Some newest
      ∧ pick ∈ interior ["3.4.3"; "3.5.0"; "3.5.1"; "3.6.0"; "4.0.0"]
      ∧ subset = {[oldest; newest; pick]}
      ∧ oldest ∈ subset ∧ newest ∈ subset ∧ size subset = 3%nat.
Proof.
  split.
  - apply (C7_sample 5 ["3.4.3"; "3.5.0"]). simpl. lia.
  - apply (C7_sample 5 ["3.4.3"; "3.5.0"; "3.5.1"; "3.6.0"; "4.0.0"]).
    + apply (bool_decide_unpack _). by vm_compute.
    + simpl. lia.
Defined.

(** C8. [conda_search] raises exactly when the query fails with an error
    body that does not name the error of a package that is not found, and what
    it raises then is the error of the query; when the body names that error
    the search returns no records, and the resolver returns the empty list for
    a base package that is not found. Every other failure of a query ends
    the run: when the query for the base package fails so, the resolver
    raises the error of the query; when the query for a companion fails so,
    the base package having records, the resolver raises; and what the
    resolver raises for [r], or for [mro] once [r] is resolved, [main]
    raises. *)
Theorem C8_search_errors (set_list : gset string → list string)
    (idx : conda_index) (platform pkg r_base : string) :
  (raises (conda_search idx platform pkg)
   ↔ ∃ body, idx platform pkg = Failed body ∧ ¬ signals_not_found body)
  ∧ (∀ body, idx platform pkg = Failed body → ¬ signals_not_found body →
       conda_search idx platform pkg = Raise CalledProcessError)
  ∧ (∀ body, idx platform pkg = Failed body → signals_not_found body →
       conda_search idx platform pkg = Ok [])
  ∧ (∀ body, idx platform ("r::" +:+ r_base +:+ "-base") = Failed body →
       signals_not_found body →
       get_supported_versions set_list idx platform r_base = Ok [])
  ∧ (∀ body, idx platform ("r::" +:+ r_base +:+ "-base") = Failed body →
       ¬ signals_not_found body →
       get_supported_versions set_list idx platform r_base
       = Raise CalledProcessError)
  ∧ (∀ body, pkg ∈ companions → idx platform pkg = Failed body →
       ¬ signals_not_found body →
       records_of idx platform ("r::" +:+ r_base +:+ "-base") ≠ [] →
       raises (get_supported_versions set_list idx platform r_base))
  ∧ (∀ tox_in tox_out rnd_r rnd_mro e,
       get_supported_versions set_list idx platform "r" = Raise e
       ∨ (returns (get_supported_versions set_list idx platform "r")
          ∧ get_supported_versions set_list idx platform "mro" = Raise e) →
       main set_list idx platform tox_in tox_out rnd_r rnd_mro = Raise e).
Proof.
  split; [apply conda_search_raises|].
  split; [intros body; apply conda_search_failed|].
  split; [intros body; apply conda_search_not_found|].
  split.
  { intros body H Hnf. unfold get_supported_versions.
    by rewrite (conda_search_not_found _ _ _ _ H Hnf). }
  split; [intros body; apply get_supported_versions_base_failed|].
  split; [intros body; apply get_supported_versions_companion_failed|].
  intros tox_in tox_out rnd_r rnd_mro e. apply main_resolution_raises.
Qed.

Lemma C8_search_errors_witness :
  conda_search broken_index "linux-64" "r::r-base" = Raise CalledProcessError
  ∧ conda_search sample_index "linux-64" "r::mro-base" = Ok []
  ∧ get_supported_versions elements sample_index "linux-64" "mro" = Ok []
  ∧ get_supported_versions elements broken_index "linux-64" "r"
    = Raise CalledProcessError
  ∧ raises (get_supported_versions elements broken_companion_index
              "linux-64" "r")
  ∧ main elements broken_index "linux-64" (Ok []) (Ok ()) 0 0
    = Raise CalledProcessError.
Proof.
  split; [|split; [|split; [|split; [|split]]]].
  - apply (C8_search_errors elements broken_index "linux-64" "r::r-base" "r")
      with (body := {[ "exception_name" := JString "CondaHTTPError" ]});
      [reflexivity|]. unfold signals_not_found. by vm_compute.
  - apply (C8_search_errors elements sample_index "linux-64" "r::mro-base" "mro")
      with (body := not_found_body); reflexivity.
  - apply (C8_search_errors elements sample_index "linux-64" "r::mro-base" "mro")
      with (body := not_found_body); reflexivity.
  - apply (C8_search_errors elements broken_index "linux-64" "r::r-base" "r")
      with (body := {[ "exception_name" := JString "CondaHTTPError" ]});
      [reflexivity|]. unfold signals_not_found. by vm_compute.
  - apply (C8_search_errors elements broken_companion_index "linux-64"
             "r::r-httr" "r")
      with (body := {[ "exception_name" := JString "CondaHTTPError" ]}).
    + apply (bool_decide_unpack _). by vm_compute.
    + reflexivity.
    + unfold signals_not_found. by vm_compute.
    + by vm_compute.
  - apply (C8_search_errors elements broken_index "linux-64" "r::r-base" "r").
    left. by vm_compute.
Defined.

(** C9. Whatever the order in which the interpreter iterates a set, the
    resolver ends alike on the same index, platform and base package: two
    runs both return, and then the same list of versions, or both raise. *)
Theorem C9_resolve_deterministic
    (set_list1 set_list2 : gset string → list string)
    (idx : conda_index) (platform r_base : string) :
  enumerates set_list1 → enumerates set_list2 →
  same_outcome (get_supported_versions set_list1 idx platform r_base)
               (get_supported_versions set_list2 idx platform r_base).
Proof. apply get_supported_versions_order. Qed.

Lemma C9_resolve_deterministic_witness :
  same_outcome
    (get_supported_versions elements sample_index "linux-64" "r")
    (get_supported_versions elements_reversed sample_index "linux-64" "r").
Proof.
  apply (C9_resolve_deterministic elements elements_reversed).
  - intros s. reflexivity.
  - intros s. apply reverse_Permutation.
Defined.




(** * Lemmas for the further properties *)

(** ** What the resolver returns *)

Lemma remove_unsupported_accepts
    (set_list : gset string → list string) (pkg_vers : list string)
    (acc acc' : gset string) :
  enumerates set_list →
  remove_unsupported (set_list acc) pkg_vers acc = Ok acc' →
  ∀ x, x ∈ acc' ↔ x ∈ acc ∧ accepts pkg_vers x = true.
Proof.
  intros Hen Hr.
  assert (Forall (λ ver, returns (check_version ver pkg_vers)) (set_list acc))
    as Hret.
  { apply remove_unsupported_returns_inv with acc. by exists acc'. }
  destruct (remove_unsupported_Ok (set_list acc) pkg_vers acc)
    as (acc'' & E & Hacc); [by apply enumerates_NoDup | | done |].
  { intros v. by apply enumerates_elem. }
  rewrite Hr in E. injection E as <-. intros x. rewrite Hacc.
  split; intros [Hx Hs]; (split; [done|]).
  - assert (x ∈ set_list acc) as Hin by by apply enumerates_elem.
    specialize (Hs Hin). rewrite Forall_forall in Hret.
    destruct (Hret x Hin) as [ok Hok]. unfold unsupported, accepts in *.
    rewrite Hok in *. by destruct ok.
  - intros _. unfold unsupported, accepts in *.
    by destruct (check_version x pkg_vers) as [[]|].
Qed.

Lemma filter_by_packages_Ok (set_list : gset string → list string)
    (idx : conda_index) (platform r_base : string) (pkgs : list string)
    (acc s : gset string) :
  enumerates set_list →
  filter_by_packages set_list idx platform r_base pkgs acc = Ok s →
  ∀ x, x ∈ s ↔
    x ∈ acc
    ∧ forallb (λ pkg, accepts (pkg_vers_of idx platform r_base pkg) x) pkgs
      = true.
Proof.
  intros Hen. revert acc; induction pkgs as [|pkg pkgs IH]; intros acc;
    cbn [filter_by_packages forallb].
  - intros [= <-] x. naive_solver.
  - destruct (conda_search idx platform pkg) as [out|e] eqn:Hs; simpl_bind;
      [|done].
    destruct (collect_pkg_vers r_base out) as [pkg_vers|e] eqn:Hc; simpl_bind;
      [|done].
    destruct (remove_unsupported _ _ _) as [acc'|e] eqn:Hr; simpl_bind; [|done].
    intros H x. rewrite (IH _ H x).
    rewrite (remove_unsupported_accepts set_list pkg_vers acc acc' Hen Hr x).
    assert (pkg_vers_of idx platform r_base pkg = pkg_vers) as ->.
    { unfold pkg_vers_of, records_of. by rewrite Hs, Hc. }
    rewrite andb_true_iff. naive_solver.
Qed.

Lemma sorted_elem (l : list string) (x : string) : x ∈ sorted l ↔ x ∈ l.
Proof. unfold sorted. by rewrite merge_sort_Permutation. Qed.

(** The list that the resolver returns holds exactly the supported
    versions. *)
Lemma get_supported_versions_Ok (set_list : gset string → list string)
    (idx : conda_index) (platform r_base : string) (vers : list string) :
  enumerates set_list →
  get_supported_versions set_list idx platform r_base = Ok vers →
  ∀ ver, ver ∈ vers ↔ is_supported idx platform r_base ver = true.
Proof.
  intros Hen. unfold get_supported_versions, is_supported, records_of.
  destruct (conda_search idx platform ("r::" +:+ r_base +:+ "-base"))
    as [out|e] eqn:Hs; simpl_bind; [|done].
  destruct out as [|item out].
  { intros [= <-] ver. rewrite elem_of_nil, fmap_nil.
    rewrite bool_decide_eq_false_2 by apply not_elem_of_nil. done. }
  destruct (base_versions (item :: out) ∅) as [s|e] eqn:Hb; simpl_bind; [|done].
  destruct (filter_by_packages _ _ _ _ _ _) as [s'|e] eqn:Hf; simpl_bind;
    [|done].
  intros [= <-] ver. rewrite sorted_elem, (enumerates_elem set_list s' Hen).
  rewrite (filter_by_packages_Ok _ _ _ _ _ _ _ Hen Hf ver).
  rewrite (base_versions_Ok _ _ _ Hb ver).
  rewrite !andb_true_iff, bool_decide_eq_true, elem_of_empty. naive_solver.
Qed.

Lemma sorted_Sorted (l : list string) : Sorted String.le (sorted l).
Proof. apply Sorted_merge_sort, _. Qed.

Lemma sorted_NoDup (l : list string) : NoDup l → NoDup (sorted l).
Proof. unfold sorted. by rewrite merge_sort_Permutation. Qed.

Lemma get_supported_versions_sorted (set_list : gset string → list string)
    (idx : conda_index) (platform r_base : string) (vers : list string) :
  enumerates set_list →
  get_supported_versions set_list idx platform r_base = Ok vers →
  Sorted String.le vers ∧ NoDup vers.
Proof.
  intros Hen. unfold get_supported_versions.
  destruct (conda_search _ _ _) as [[|item out]|e]; simpl_bind;
    [by intros [= <-]; split; constructor | | done].
  destruct (base_versions _ _) as [s|e]; simpl_bind; [|done].
  destruct (filter_by_packages _ _ _ _ _ _) as [s'|e]; simpl_bind; [|done].
  intros [= <-]. split; [apply sorted_Sorted|].
  by apply sorted_NoDup, enumerates_NoDup.
Qed.

(** ** Which exceptions can leave [check_version] and the resolver *)

Lemma expand_wildcard_not_ok (spec : string) :
  wildcard_ok spec = false → expand_wildcard spec = Raise ValueError.
Proof.
  unfold wildcard_ok, expand_wildcard.
  destruct (wildcard_sub spec) as [val|]; [|done]. intros Hd.
  rewrite (map_r_Raise_only Py.int (Py.split "." val) ValueError); [done | |].
  - intros x e _. apply int_Raise.
  - unfold dotted_ints in Hd.
    destruct (forallb_forall int_literal (Py.split "." val)) as [_ Hall].
    destruct (existsb (λ x, negb (int_literal x)) (Py.split "." val)) eqn:Hex.
    + apply existsb_exists in Hex as (x & Hx & Hlit). exists x.
      split; [by apply list_elem_of_In|]. unfold int_literal in Hlit.
      destruct (Py.int x) as [z|e]; [done | by exists e].
    + rewrite Hall in Hd; [done|]. intros x Hx.
      destruct (int_literal x) eqn:Hlit; [done|].
      assert (existsb (λ x, negb (int_literal x)) (Py.split "." val) = true)
        as Hex'; [|congruence].
      apply existsb_exists. exists x. by rewrite Hlit.
Qed.

Lemma expand_wildcards_not_ok (specs : list string) :
  forallb wildcard_ok specs = false → expand_wildcards specs = Raise ValueError.
Proof.
  intros H. apply map_r_Raise_only.
  - intros spec e _. apply expand_wildcard_Raise.
  - induction specs as [|spec specs IH]; [done|]. cbn [forallb] in H.
    apply andb_false_iff in H as [H|H].
    + exists spec. split; [left|]. exists ValueError.
      by apply expand_wildcard_not_ok.
    + destruct (IH H) as (x & Hx & Hr). exists x. split; [by right | done].
Qed.

(** A wildcard that does not follow dotted integers makes [check_version]
    raise [ValueError], whatever the version and wherever the spec stands. *)
Lemma check_version_wildcard_not_ok (pkg_ver : string) (specs : list string) :
  forallb wildcard_ok specs = false →
  check_version pkg_ver specs = Raise ValueError.
Proof.
  intros H. unfold check_version.
  destruct (version_key pkg_ver) as [v|e] eqn:Hk; simpl_bind.
  - by rewrite (expand_wildcards_not_ok specs H).
  - by apply version_key_Raise in Hk as ->.
Qed.

(** Within the limit on conversions that is the only [ValueError]. *)
Lemma check_version_ValueError (pkg_ver : string) (specs : list string) :
  digit_runs_ok (before "a" pkg_ver) = true →
  forallb (λ spec, Py.count_digits spec <? Py.max_str_digits) specs = true →
  check_version pkg_ver specs = Raise ValueError
  ↔ forallb wildcard_ok specs = false.
Proof.
  intros Hv Hlim. split; [|apply check_version_wildcard_not_ok].
  intros H. destruct (forallb wildcard_ok specs) eqn:E; [|done].
  exfalso. revert H. apply check_version_no_ValueError; [done|].
  apply forallb_forall. intros spec Hspec. unfold constraint_ok.
  rewrite forallb_forall in E, Hlim. by rewrite (E spec Hspec), (Hlim spec Hspec).
Qed.

Lemma remove_unsupported_Raise (vers pkg_vers : list string)
    (acc : gset string) (e : exn) :
  NoDup vers → (∀ ver, ver ∈ vers → ver ∈ acc) →
  remove_unsupported vers pkg_vers acc = Raise e →
  e = ValueError ∨ e = IndexError ∨ e = SyntaxError ∨ e = TypeError.
Proof.
  revert acc; induction vers as [|ver vers IH]; intros acc Hnd Hin;
    cbn [remove_unsupported]; [done|].
  apply NoDup_cons in Hnd as [Hver Hnd].
  destruct (check_version ver pkg_vers) as [[]|e'] eqn:Hc; simpl_bind.
  - apply IH; [done|]. intros v Hv. apply Hin. by right.
  - rewrite bool_decide_eq_true_2 by (apply Hin; left).
    apply IH; [done|]. intros v Hv. apply elem_of_difference.
    split; [apply Hin; by right|]. intros ->%elem_of_singleton. done.
  - intros [= <-]. by eapply check_version_Raise.
Qed.

Lemma filter_by_packages_Raise (set_list : gset string → list string)
    (idx : conda_index) (platform r_base : string) (pkgs : list string)
    (acc : gset string) (e : exn) :
  enumerates set_list →
  filter_by_packages set_list idx platform r_base pkgs acc = Raise e →
  e ≠ KeyError.
Proof.
  intros Hen. revert acc; induction pkgs as [|pkg pkgs IH]; intros acc;
    cbn [filter_by_packages]; [done|].
  destruct (conda_search idx platform pkg) as [out|e'] eqn:Hs; simpl_bind.
  - destruct (collect_pkg_vers_returns r_base out) as [pkg_vers ->].
    simpl_bind.
    destruct (remove_unsupported _ _ _) as [acc'|e'] eqn:Hr; simpl_bind;
      [apply IH|].
    intros [= <-]. apply remove_unsupported_Raise in Hr.
    + by destruct Hr as [->|[->|[->| ->]]].
    + by apply enumerates_NoDup.
    + intros v. by apply enumerates_elem.
  - intros [= <-]. by apply conda_search_Raise in Hs as ->.
Qed.

Lemma base_versions_Raise (out : list package_record) (acc : gset string)
    (e : exn) :
  base_versions out acc = Raise e → e = ValueError.
Proof.
  revert acc; induction out as [|item out IH]; intros acc;
    cbn [base_versions]; [done|].
  destruct (map_r Py.int _) as [key|e'] eqn:Hk; simpl_bind.
  - destruct (Py.tuple_lt key [3; 4; 3]); apply IH.
  - intros [= <-]. apply map_r_Raise in Hk as (x & _ & Hx).
    by eapply int_Raise.
Qed.

Lemma get_supported_versions_Raise (set_list : gset string → list string)
    (idx : conda_index) (platform r_base : string) (e : exn) :
  enumerates set_list →
  get_supported_versions set_list idx platform r_base = Raise e →
  e ≠ KeyError.
Proof.
  intros Hen. unfold get_supported_versions.
  destruct (conda_search _ _ _) as [[|item out]|e'] eqn:Hs; simpl_bind; [done | |].
  - destruct (base_versions _ _) as [s|e'] eqn:Hb; simpl_bind.
    + destruct (filter_by_packages _ _ _ _ _ _) as [s'|e'] eqn:Hf; simpl_bind;
        [done|]. intros [= <-]. by eapply filter_by_packages_Raise.
    + intros [= <-]. by apply base_versions_Raise in Hb as ->.
  - intros [= <-]. by apply conda_search_Raise in Hs as ->.
Qed.

(** ** The list of specs, taken apart *)

Lemma map_r_app {A B} (f : A → result B) (l1 l2 : list A) :
  map_r f (l1 ++ l2)
  = (ys1 ← map_r f l1 ; ys2 ← map_r f l2 ; Ok (ys1 ++ ys2)).
Proof.
  induction l1 as [|x l1 IH]; simpl.
  - simpl_bind. by destruct (map_r f l2).
  - destruct (f x) as [y|e]; simpl_bind; [|done]. rewrite IH.
    destruct (map_r f l1) as [ys1|e]; simpl_bind; [|done].
    by destruct (map_r f l2).
Qed.

Lemma check_specs_app (v : list Z) (l1 l2 : list string) :
  check_specs v (l1 ++ l2)
  = match check_specs v l1 with
    | Ok false => check_specs v l2
    | r => r
    end.
Proof.
  induction l1 as [|spec l1 IH]; [done|].
  rewrite <- app_comm_cons. cbn [check_specs].
  destruct (build_expr v spec) as [expr|e]; simpl_bind; [|done].
  destruct (py_eval expr) as [[]|e]; simpl_bind; done.
Qed.

Lemma check_version_app_true (pkg_ver : string) (specs1 specs2 : list string) :
  returns (expand_wildcards specs2) →
  check_version pkg_ver specs1 = Ok true →
  check_version pkg_ver (specs1 ++ specs2) = Ok true.
Proof.
  intros [e2 He2]. unfold check_version, expand_wildcards in *.
  destruct (version_key pkg_ver) as [v|e]; simpl_bind; [|done].
  rewrite map_r_app, He2.
  destruct (map_r expand_wildcard specs1) as [e1|e]; simpl_bind; [|done].
  intros H. by rewrite check_specs_app, H.
Qed.

Lemma check_version_app_false (pkg_ver : string) (specs1 specs2 : list string) :
  check_version pkg_ver specs1 = Ok false →
  check_version pkg_ver (specs1 ++ specs2) = check_version pkg_ver specs2.
Proof.
  unfold check_version, expand_wildcards.
  destruct (version_key pkg_ver) as [v|e]; simpl_bind; [|done].
  rewrite map_r_app.
  destruct (map_r expand_wildcard specs1) as [e1|e]; simpl_bind; [|done].
  intros H. destruct (map_r expand_wildcard specs2) as [e2|e]; simpl_bind;
    [|done]. by rewrite check_specs_app, H.
Qed.

(** ** [version_key]: what it reads of a version *)

Lemma before_append (c : ascii) (p t : string) :
  Py.contains c p = false → before c (p +:+ t) = p +:+ before c t.
Proof.
  induction p as [|d p IH]; [done|]. simpl Py.contains.
  intros [Hd Hp]%orb_false_elim. rewrite !append_String. cbn [before].
  by rewrite Hd, IH.
Qed.

Lemma before_char (c : ascii) (s : string) : before c (String c s) = "".
Proof. cbn [before]. by rewrite Ascii.eqb_refl. Qed.

Lemma version_key_before (val : string) :
  version_key val = version_key (before "a" val).
Proof.
  unfold version_key. rewrite !split_char_first. simpl_bind.
  assert (before "a" (before "a" val) = before "a" val) as ->; [|done].
  induction val as [|c val IH]; [done|]. cbn [before].
  destruct (Ascii.eqb "a" c) eqn:E; [done|]. cbn [before]. by rewrite E, IH.
Qed.

(** Nothing from the first [a] on is read. *)
Lemma version_key_suffix (val suffix : string) :
  Py.contains "a" val = false →
  version_key (val +:+ "a" +:+ suffix) = version_key val.
Proof.
  intros H. rewrite (version_key_before (val +:+ _)), (version_key_before val).
  rewrite before_append by done.
  rewrite append_String, append_empty_l, before_char.
  rewrite <- (append_empty_r val) at 2. by rewrite before_append.
Qed.

Lemma digit_run_spec (r : string) :
  is_digit_run r = true ↔ r ≠ "" ∧ Py.all_chars Py.is_digit r = true.
Proof.
  unfold is_digit_run. rewrite andb_true_iff, negb_true_iff.
  by rewrite bool_decide_eq_false.
Qed.

Lemma digit_run_no_a (r : string) :
  Py.all_chars Py.is_digit r = true → Py.contains "a" r = false.
Proof. by apply all_chars_contains. Qed.

(** A run of digits that no digit follows is found whole. *)
Lemma findall_digits_run (r t : string) :
  is_digit_run r = true → Py.digit_ahead t = false →
  Py.findall_digits (r +:+ t) = r :: Py.findall_digits t.
Proof.
  intros [Hne Hr]%digit_run_spec Ht. induction r as [|c r IH]; [done|].
  simpl in Hr. apply andb_prop in Hr as [Hc Hr].
  rewrite append_String. cbn [Py.findall_digits]. rewrite Hc.
  destruct r as [|d r].
  - rewrite append_empty_l, Ht. done.
  - rewrite IH by done. simpl in Hr. apply andb_prop in Hr as [Hd _].
    rewrite append_String. simpl. by rewrite Hd.
Qed.

Lemma digit_ahead_before (t u : string) (c d : ascii) :
  Py.digit_ahead t = false → Py.is_digit d = false →
  Py.digit_ahead (before c t +:+ String d u) = false.
Proof.
  intros Ht Hd. destruct t as [|e t]; [done|]. cbn [before].
  destruct (Ascii.eqb c e); [done|]. by rewrite append_String.
Qed.

(** The key of a version that begins with three dotted numbers is made of
    these three; what follows them is converted all the same, up to the
    first [a], and dropped. *)
Lemma version_key_three (r1 r2 r3 t : string) (z1 z2 z3 : Z) :
  is_digit_run r1 = true → is_digit_run r2 = true → is_digit_run r3 = true →
  Py.digit_ahead t = false →
  Py.int r1 = Ok z1 → Py.int r2 = Ok z2 → Py.int r3 = Ok z3 →
  version_key (r1 +:+ "." +:+ r2 +:+ "." +:+ r3 +:+ t)
  = if digit_runs_ok (before "a" t) then Ok [z1; z2; z3]
    else Raise ValueError.
Proof.
  intros H1 H2 H3 Ht Hz1 Hz2 Hz3.
  pose proof H1 as [_ A1]%digit_run_spec.
  pose proof H2 as [_ A2]%digit_run_spec.
  pose proof H3 as [_ A3]%digit_run_spec.
  unfold version_key. rewrite split_char_first. simpl_bind.
  rewrite before_append by by apply digit_run_no_a.
  rewrite (before_append "a" "." _ eq_refl).
  rewrite before_append by by apply digit_run_no_a.
  rewrite (before_append "a" "." _ eq_refl).
  rewrite before_append by by apply digit_run_no_a.
  rewrite !append_assoc.
  rewrite (findall_digits_run r1) by done.
  rewrite append_String, append_empty_l. cbn [Py.findall_digits].
  change (Py.is_digit ".") with false. cbv iota.
  rewrite (findall_digits_run r2) by done.
  rewrite append_String, append_empty_l. cbn [Py.findall_digits].
  change (Py.is_digit ".") with false. cbv iota.
  rewrite (findall_digits_run r3) by (by try apply digit_ahead_before).
  pose proof (map_r_int_runs (Py.findall_digits (before "a" t +:+ ".0.0"))
                (findall_digits_runs _)) as Hrest.
  change (forallb _ (Py.findall_digits (before "a" t +:+ ".0.0")))
    with (digit_runs_ok (before "a" t +:+ String "." "0.0")) in Hrest.
  rewrite digit_runs_ok_app, andb_true_r in Hrest by done.
  cbn [map_r]. rewrite Hz1, Hz2, Hz3. simpl_bind.
  destruct (digit_runs_ok (before "a" t)).
  - destruct Hrest as (rest & -> & _). by simpl_bind.
  - by rewrite Hrest.
Qed.

(** ** [expand_wildcards]: what it leaves alone *)

Lemma wildcard_sub_no_star (spec : string) :
  Py.contains "*" spec = false → wildcard_sub spec = None.
Proof.
  intros H. destruct (wildcard_sub spec) as [val|] eqn:E; [|done].
  apply wildcard_sub_star in E. congruence.
Qed.

Lemma expand_wildcards_length (specs especs : list string) :
  expand_wildcards specs = Ok especs → length especs = length specs.
Proof. apply map_r_length. Qed.

Lemma expand_wildcards_no_star (specs : list string) :
  forallb (λ spec, negb (Py.contains "*" spec)) specs = true →
  expand_wildcards specs = Ok specs.
Proof.
  induction specs as [|spec specs IH]; [done|]. cbn [forallb].
  intros [Hs Hss]%andb_prop. apply negb_true_iff in Hs.
  unfold expand_wildcards in *. cbn [map_r].
  rewrite (expand_wildcard_plain spec) by by apply wildcard_sub_no_star.
  simpl_bind. by rewrite IH.
Qed.

Lemma at_end_append_a0 (s : string) : at_end (s +:+ "a0") = false.
Proof.
  unfold at_end.
  apply orb_false_intro; apply bool_decide_eq_false_2; intros H;
    destruct s as [|c [|d s]];
    rewrite ?append_String, ?append_empty_l in H; discriminate.
Qed.

(** What ends in [a0] does not end in a wildcard. *)
Lemma wildcard_sub_a0 (s : string) : wildcard_sub (s +:+ "a0") = None.
Proof.
  induction s as [|c s IH]; [done|]. rewrite append_String.
  cbn [wildcard_sub]. rewrite at_end_append_a0, andb_false_r, IH.
  destruct s as [|d s].
  - by destruct c as [[] [] [] [] [] [] [] []].
  - rewrite append_String.
    destruct (ascii_dec c ".") as [->|Hc];
      [destruct (ascii_dec d "*") as [->|Hd]|].
    + by rewrite at_end_append_a0.
    + clear -Hd. by destruct d as [[] [] [] [] [] [] [] []].
    + clear -Hc. by destruct c as [[] [] [] [] [] [] [] []].
Qed.

Lemma expand_wildcard_fixed (spec espec : string) :
  expand_wildcard spec = Ok espec → expand_wildcard espec = Ok espec.
Proof.
  unfold expand_wildcard at 1.
  destruct (wildcard_sub spec) as [val|] eqn:E.
  - destruct (map_r Py.int _) as [nums|]; simpl_bind; [|done].
    destruct (incr_last nums) as [next|]; simpl_bind; [|done].
    destruct (map_r Py.str_of_int next) as [texts|]; simpl_bind; [|done].
    intros [= <-]. apply expand_wildcard_plain.
    rewrite <- !append_assoc. apply wildcard_sub_a0.
  - intros [= <-]. by apply expand_wildcard_plain.
Qed.

Lemma expand_wildcards_idempotent (specs especs : list string) :
  expand_wildcards specs = Ok especs → expand_wildcards especs = Ok especs.
Proof.
  unfold expand_wildcards. rewrite !map_r_Ok.
  induction 1 as [|spec espec specs especs H _ IH]; constructor; [|done].
  by eapply expand_wildcard_fixed.
Qed.

(** ** [sample] on any list *)

Lemma interior_length {A} (l : list A) : length (interior l) = (length l - 2)%nat.
Proof. unfold interior. rewrite length_drop, length_take. lia. Qed.

Lemma interior_elem {A} (l : list A) (x : A) : x ∈ interior l → x ∈ l.
Proof.
  unfold interior. intros H%(subseteq_drop 1).
  by apply (subseteq_take (length l - 1) l).
Qed.

Lemma size_union_le (X Y : gset string) : (size (X ∪ Y) ≤ size X + size Y)%nat.
Proof.
  rewrite size_union_alt.
  pose proof (subseteq_size (Y ∖ X) Y ltac:(set_solver)). lia.
Qed.

(** [sample] never raises: the tests on the length keep the indexing and
    the random choice within bounds. What it returns is drawn from the list
    and has at most three elements. *)
Lemma sample_total (rnd : nat) (info : list string) :
  ∃ subset, sample rnd info = Ok subset
    ∧ (∀ x, x ∈ subset → x ∈ info)
    ∧ (size subset ≤ 3)%nat
    ∧ (∀ oldest newest, head info = Some oldest → list.last info = Some newest →
         oldest ∈ subset ∧ newest ∈ subset).
Proof.
  destruct info as [|x info].
  { exists ∅. repeat split; try done. set_solver. }
  unfold sample. simpl Py.first. simpl_bind.
  destruct (last_returns (x :: info) ltac:(done)) as [z Hz]. rewrite Hz.
  simpl_bind.
  assert (list.last (x :: info) = Some z) as Hlast.
  { unfold Py.last in Hz. by destruct (list.last (x :: info)); simplify_eq. }
  assert (z ∈ x :: info) as Hzin.
  { apply list_elem_of_lookup. exists (pred (length (x :: info))).
    by rewrite <- last_lookup. }
  destruct (2 <? length (x :: info))%nat eqn:Hlen.
  - apply Nat.ltb_lt in Hlen.
    destruct (random_choice_elem rnd (interior (x :: info)))
      as (pick & -> & Hpick).
    { intros E. pose proof (interior_length (x :: info)) as HL.
      rewrite E in HL. simpl in HL, Hlen. lia. }
    simpl_bind. eexists. split; [done|]. split; [|split].
    + intros y. rewrite !elem_of_union, !elem_of_singleton, elem_of_empty.
      intros [->|[->|[->|[]]]]; [by apply interior_elem | done | left].
    + etrans; [apply size_union_le|]. etrans;
        [apply Nat.add_le_mono_l, size_union_le|].
      etrans; [do 2 apply Nat.add_le_mono_l; apply size_union_le|].
      rewrite !size_singleton, size_empty. lia.
    + intros ?? [= <-] Hn. rewrite Hlast in Hn. injection Hn as <-.
      set_solver.
  - eexists. split; [done|]. split; [|split].
    + intros y. rewrite !elem_of_union, !elem_of_singleton, elem_of_empty.
      intros [->|[->|[]]]; [done | left].
    + etrans; [apply size_union_le|]. etrans;
        [apply Nat.add_le_mono_l, size_union_le|].
      rewrite !size_singleton, size_empty. lia.
    + intros ?? [= <-] Hn. rewrite Hlast in Hn. injection Hn as <-.
      set_solver.
Qed.

(** ** The copying loop, in general *)

Lemma copy_template_dry (block conts : list string) (line : string) :
  forallb (Py.startswith " ") conts = true →
  copy_template block (Some line) conts = [default line (list.last conts)].
Proof.
  revert line; induction conts as [|c conts IH]; intros line; [done|].
  cbn [forallb]. intros [Hc Hcs]%andb_prop. cbn [copy_template]. rewrite Hc.
  rewrite IH by done. f_equal. destruct conts as [|d conts]; [done|].
  rewrite last_cons_cons.
  destruct (list.last (d :: conts)) eqn:E; [done|]. by apply last_None in E.
Qed.

Lemma copy_template_step (block pre conts rest : list string) (e nxt : string) :
  forallb (λ line, negb (Py.startswith "envlist" line)) pre = true →
  Py.startswith "envlist" e = true →
  forallb (Py.startswith " ") conts = true →
  Py.startswith " " nxt = false →
  copy_template block None (pre ++ e :: conts ++ nxt :: rest)
  = pre ++ block ++ nxt :: copy_template block None rest.
Proof.
  intros Hpre He Hc Hn. rewrite copy_template_plain by done.
  cbn [copy_template]. by rewrite He, copy_template_skip.
Qed.

Lemma copy_template_end (block pre conts : list string) (e : string) :
  forallb (λ line, negb (Py.startswith "envlist" line)) pre = true →
  Py.startswith "envlist" e = true →
  forallb (Py.startswith " ") conts = true →
  copy_template block None (pre ++ e :: conts)
  = pre ++ block ++ [default e (list.last conts)].
Proof.
  intros Hpre He Hc. rewrite copy_template_plain by done.
  cbn [copy_template]. by rewrite He, copy_template_dry.
Qed.

Lemma copy_template_no_envlist (block lines : list string) :
  forallb (λ line, negb (Py.startswith "envlist" line)) lines = true →
  copy_template block None lines = lines.
Proof.
  intros H. rewrite <- (app_nil_r lines) at 1.
  rewrite copy_template_plain by done. simpl. by rewrite app_nil_r.
Qed.

(** ** Names of environments *)

Lemma append_length (s t : string) :
  String.length (s +:+ t) = (String.length s + String.length t)%nat.
Proof.
  induction s as [|c s IH]; [done|]. rewrite append_String. simpl.
  by rewrite IH.
Qed.

Lemma append_inj_r (s1 s2 t : string) : s1 +:+ t = s2 +:+ t → s1 = s2.
Proof.
  revert s2; induction s1 as [|c s1 IH]; intros [|d s2];
    rewrite ?append_String, ?append_empty_l; intros H.
  - done.
  - apply (f_equal String.length) in H. simpl in H.
    rewrite append_length in H. lia.
  - apply (f_equal String.length) in H. simpl in H.
    rewrite append_length in H. lia.
  - injection H as -> H. f_equal. by apply IH.
Qed.

(** Two versions share the name of their environment exactly when they
    read the same once their dots are taken out. *)
Lemma env_name_eq (base pkg ver ver' : string) :
  env_name base ver pkg = env_name base ver' pkg
  ↔ Py.remove_char "." ver = Py.remove_char "." ver'.
Proof.
  unfold env_name. split; [|by intros ->].
  intros H%(inj (String.app base)). by apply append_inj_r in H.
Qed.

(** ** Sections and [envlist] *)

Lemma out_env_header (pkg base ver line : string) :
  line ∈ out_env pkg base ver →
  Py.startswith "[testenv:" line = true →
  line = section_header (env_name base ver pkg).
Proof.
  unfold out_env, Py.startswith. rewrite !elem_of_cons, elem_of_nil.
  intros [->|[->|[->|[->|[->|[->|[->|[]]]]]]]];
    rewrite ?append_String, ?append_empty_l; done.
Qed.

Lemma out_family_header (pkg : string) (item : string * gset string)
    (line : string) :
  line ∈ out_family pkg item →
  Py.startswith "[testenv:" line = true →
  ∃ ver, ver ∈ sorted (elements item.2)
         ∧ line = section_header (env_name item.1 ver pkg).
Proof.
  unfold out_family. rewrite elem_of_app, !elem_of_cons, elem_of_nil.
  intros [[->|[->|[->|[->|[]]]]]|H];
    try (unfold Py.startswith; rewrite ?append_String, ?append_empty_l; done).
  apply list_elem_of_bind in H as (ver & Hline & Hver). intros Hs.
  exists ver. split; [done|]. by eapply out_env_header.
Qed.

Lemma startswith_append (p s : string) : Py.startswith p (p +:+ s) = true.
Proof.
  unfold Py.startswith. induction p as [|c p IH]; [by destruct s|].
  rewrite append_String. simpl. by destruct (ascii_dec c c).
Qed.

(** The sections that the generated part opens are the one of [empty]
    and one for each name of [envlist]. *)
Lemma generated_sections (pkg : string) (subset : gmap string (gset string))
    (line : string) :
  line ∈ generated_out pkg subset ∧ Py.startswith "[testenv:" line = true
  ↔ line = section_header "empty"
    ∨ ∃ name, name ∈ generated_envlist pkg subset ∧ line = section_header name.
Proof.
  unfold generated_out, generated_envlist. split.
  - intros [[H|H]%elem_of_app Hs].
    + left. unfold out_header in H. rewrite !elem_of_cons, elem_of_nil in H.
      by destruct H as [->|[->|[->|[->|[->|[->|[->|[->|[->|[->|[]]]]]]]]]]].
    + right. apply list_elem_of_bind in H as (item & Hline & Hitem).
      destruct (out_family_header pkg item line Hline Hs) as (ver & Hver & ->).
      exists (env_name item.1 ver pkg). split; [|done].
      apply list_elem_of_bind. exists item. split; [|done].
      apply list_elem_of_bind. exists ver. split; [|done]. by left.
  - intros [->|(name & H & ->)].
    + split; [|done]. apply elem_of_app. left. unfold out_header.
      rewrite !elem_of_cons. naive_solver.
    + split; [|apply startswith_append].
      apply list_elem_of_bind in H as (item & H & Hitem).
      apply list_elem_of_bind in H as (ver & ->%list_elem_of_singleton & Hver).
      apply elem_of_app. right. apply list_elem_of_bind. exists item.
      split; [|done]. unfold out_family. apply elem_of_app. right.
      apply list_elem_of_bind. exists ver. split; [|done].
      unfold out_env. right. left.
Qed.

(** ** [main] *)


(** ** Qualified package names *)

Lemma prefix_colons (c : ascii) (s : string) :
  c ≠ ":"%char → String.prefix "::" (String c s) = false.
Proof.
  intros H. cbn [String.prefix]. by destruct (ascii_dec ":" c) as [<-|].
Qed.

Lemma split_go_colons_plain (cur s : string) :
  Py.contains ":" s = false → Py.split_go "::" 0 cur s = [cur +:+ s].
Proof.
  revert cur; induction s as [|c s IH]; intros cur; simpl Py.contains.
  - intros _. simpl. by rewrite append_empty_r.
  - intros [Hc Hs]%orb_false_elim. cbn [Py.split_go].
    rewrite prefix_colons by (intros ->; done).
    rewrite IH by done. by rewrite append_assoc.
Qed.

Lemma split_go_match (sep cur s : string) (c : ascii) :
  String.prefix sep (String c s) = true →
  Py.split_go sep 0 cur (String c s)
  = cur :: Py.split_go sep (Nat.pred (String.length sep)) "" s.
Proof. intros H. cbn [Py.split_go]. by rewrite H. Qed.

Lemma split_go_skip (sep cur s : string) (c : ascii) (k : nat) :
  Py.split_go sep (S k) cur (String c s) = Py.split_go sep k cur s.
Proof. reflexivity. Qed.

Lemma split_go_colons_qualified (cur channel name : string) :
  Py.contains ":" channel = false → Py.contains ":" name = false →
  Py.split_go "::" 0 cur (channel +:+ "::" +:+ name) = [cur +:+ channel; name].
Proof.
  intros Hch Hn. revert cur; induction channel as [|c channel IH]; intros cur.
  - rewrite append_empty_l, append_empty_r.
    change ("::" +:+ name) with (String ":" (String ":" name)).
    rewrite split_go_match by (by destruct name).
    change (Nat.pred (String.length "::")) with 1%nat.
    rewrite split_go_skip. by rewrite split_go_colons_plain.
  - simpl in Hch. apply orb_false_elim in Hch as [Hc Hch].
    rewrite append_String. cbn [Py.split_go].
    rewrite prefix_colons by (intros ->; done).
    rewrite IH by done. by rewrite append_assoc.
Qed.

(** A completed query for [channel::name] is answered with the records
    under [name], and with none when the answer has no such key. *)
Lemma conda_search_qualified (idx : conda_index)
    (platform channel name : string)
    (out : gmap string (list package_record)) :
  Py.contains ":" channel = false → Py.contains ":" name = false →
  idx platform (channel +:+ "::" +:+ name) = Completed out →
  conda_search idx platform (channel +:+ "::" +:+ name)
  = Ok (default [] (out !! name)).
Proof.
  intros Hch Hn H. unfold conda_search, Py.split. rewrite H. simpl_bind.
  by rewrite split_go_colons_qualified.
Qed.

(** ** [get_platform] *)

Lemma lower_char_idempotent (c : ascii) :
  Py.lower_char (Py.lower_char c) = Py.lower_char c.
Proof. destruct c as [[] [] [] [] [] [] [] []]; by vm_compute. Qed.

Lemma lower_idempotent (s : string) : Py.lower (Py.lower s) = Py.lower s.
Proof.
  induction s as [|c s IH]; [done|]. simpl.
  by rewrite lower_char_idempotent, IH.
Qed.

(** ** Dependencies without a constraint *)

Lemma tuple_le_zero (key : list Z) :
  Forall (λ z, 0 ≤ z) key → (2 ≤ length key)%nat →
  Py.tuple_le [0; 0] key = true.
Proof.
  destruct key as [|a [|b rest]]; cbn [length]; try lia.
  intros [Ha [Hb _]%Forall_cons]%Forall_cons _.
  unfold Py.tuple_le. cbn [Py.tuple_compare].
  destruct (Z.compare_spec 0 a); [|done | lia].
  destruct (Z.compare_spec 0 b); [|done | lia].
  by destruct rest.
Qed.
(** ** Printing and reading back an integer *)

Lemma string_of_int_pos (p : positive) :
  NilZero.string_of_int (Z.to_int (Z.pos p))
  = NilEmpty.string_of_uint (Pos.to_uint p).
Proof.
  simpl. unfold NilZero.string_of_uint.
  pose proof (DecimalPos.Unsigned.to_uint_nonnil p).
  by destruct (Pos.to_uint p).
Qed.

(** The text of an integer that is not negative is a non-empty run of
    digits. *)
Lemma str_of_int_digit_run (z : Z) (s : string) :
  0 ≤ z → Py.str_of_int z = Ok s → is_digit_run s = true.
Proof.
  intros Hz [-> _]%str_of_int_Ok. destruct z as [|p|p]; [done | | lia].
  rewrite string_of_int_pos. apply digit_run_spec. split.
  - pose proof (DecimalPos.Unsigned.to_uint_nonnil p).
    by destruct (Pos.to_uint p).
  - apply string_of_uint_digits.
Qed.

Lemma int_of_digit_run (r : string) :
  is_digit_run r = true →
  Py.int r = match Py.int_digits 0 false r with
             | Some z =>
                 if Py.count_digits r <=? Py.max_str_digits then Ok z
                 else Raise ValueError
             | None => Raise ValueError
             end.
Proof.
  intros [Hne Hr]%digit_run_spec. destruct r as [|c r]; [done|].
  simpl in Hr. apply andb_prop in Hr as [Hc Hr].
  unfold Py.int. cbn [Py.lstrip]. rewrite (digit_not_int_space c Hc).
  assert (Py.int_unsigned (String c r) = Py.int_digits 0 false (String c r))
    as Hu.
  { simpl. by rewrite Hc. }
  destruct (digit_not_sign c Hc) as (Hp & Hm & _).
  destruct c as [[] [] [] [] [] [] [] []]; try done; by rewrite Hu.
Qed.

(** [int] reads back what [f'{z}'] prints. *)
Lemma int_str_of_int (z : Z) (s : string) :
  0 ≤ z → Py.str_of_int z = Ok s → Py.int s = Ok z.
Proof.
  intros Hz Hs. rewrite int_of_digit_run by by eapply str_of_int_digit_run.
  apply str_of_int_Ok in Hs as [-> Hlim].
  rewrite (proj2 (Z.leb_le _ _) Hlim).
  destruct z as [|p|p]; [done | | lia].
  rewrite string_of_int_pos, int_digits_string_of_uint, uint_value_of_uint.
  by rewrite DecimalPos.Unsigned.of_to.
Qed.

(** ** A wildcard after two numbers *)

Lemma version_char_facts (c : ascii) :
  version_char c = true →
  Py.is_space c = false ∧ is_oper_char c = false
  ∧ c ≠ Py.chr 10 ∧ c ≠ ","%char ∧ c ≠ "|"%char ∧ c ≠ "*"%char.
Proof. destruct c as [[] [] [] [] [] [] [] []]; by vm_compute. Qed.

Lemma digit_version_char (c : ascii) :
  Py.is_digit c = true → version_char c = true.
Proof. unfold version_char. by intros ->. Qed.

Lemma digit_run_version_chars (r : string) :
  is_digit_run r = true → Py.all_chars version_char r = true.
Proof.
  intros [_ H]%digit_run_spec. eapply all_chars_impl; [|done].
  apply digit_version_char.
Qed.

(** The text of two dotted numbers. *)
Lemma dotted_version_chars (r1 r2 : string) :
  is_digit_run r1 = true → is_digit_run r2 = true →
  Py.all_chars version_char (r1 +:+ "." +:+ r2) = true.
Proof.
  intros H1%digit_run_version_chars H2%digit_run_version_chars.
  rewrite !all_chars_append, H1, H2. done.
Qed.

Lemma wildcard_sub_dot_star (p : string) :
  Py.contains "*" p = false → wildcard_sub (p +:+ ".*") = Some p.
Proof.
  induction p as [|c p IH]; [done|]. simpl Py.contains.
  intros [Hc Hp]%orb_false_elim. rewrite append_String. cbn [wildcard_sub].
  assert (Ascii.eqb c "*" = false) as -> by by rewrite Ascii.eqb_sym.
  rewrite andb_false_l, IH by done.
  destruct p as [|d p].
  - rewrite append_empty_l. by destruct c as [[] [] [] [] [] [] [] []].
  - rewrite append_String. cbn [Py.contains] in Hp.
    apply orb_false_elim in Hp as [Hd _].
    apply Ascii.eqb_neq in Hd.
    destruct (ascii_dec c ".") as [->|Hne].
    + clear -Hd. by destruct d as [[] [] [] [] [] [] [] []].
    + clear -Hne. by destruct c as [[] [] [] [] [] [] [] []].
Qed.

(** A clause made of [>=] or [<=] and a plain version is taken apart as
    such. *)
Lemma findall_clause_bound (oper tok : string) :
  oper = ">=" ∨ oper = "<=" →
  tok ≠ "" → Py.all_chars version_char tok = true →
  findall_clause (oper +:+ tok) = [(oper, tok)].
Proof.
  intros Ho Hne Htok. destruct tok as [|c tok]; [done|].
  assert (Py.all_chars version_char (String c tok) = true) as Hall by done.
  simpl in Htok. apply andb_prop in Htok as [Hc _].
  destruct (version_char_facts c Hc) as (_ & Hop & _).
  assert (Py.all_chars version_char (oper +:+ String c tok) = false
          ∧ Py.all_chars (λ c, negb (Py.is_space c)) (oper +:+ String c tok) = true
          ∧ Py.contains (Py.chr 10) (oper +:+ String c tok) = false)
    as (_ & Hsp & Hnl).
  { assert (Py.all_chars (λ c, negb (Py.is_space c)) (String c tok) = true).
    { eapply all_chars_impl; [|exact Hall]. intros d Hd.
      by destruct (version_char_facts d Hd) as (-> & _). }
    assert (Py.contains (Py.chr 10) (String c tok) = false).
    { eapply all_chars_contains; [|exact Hall]. done. }
    destruct Ho as [-> | ->]; rewrite all_chars_append, contains_append;
      split; try done; split; by try (rewrite H).  }
  unfold findall_clause. rewrite chomp_no_newline by done.
  rewrite bool_decide_eq_false_2 by (by destruct Ho as [-> | ->]).
  rewrite Hsp. f_equal.
  destruct Ho as [-> | ->]; rewrite !append_String, append_empty_l;
    rewrite span_oper_cons by done; rewrite span_oper_cons by done;
    by rewrite (span_oper_token c tok Hop).
Qed.

Lemma dotted_no_a (r1 r2 : string) :
  is_digit_run r1 = true → is_digit_run r2 = true →
  Py.contains "a" (r1 +:+ "." +:+ r2) = false.
Proof.
  intros [_ H1]%digit_run_spec [_ H2]%digit_run_spec.
  rewrite !contains_append.
  by rewrite (digit_run_no_a r1), (digit_run_no_a r2).
Qed.

Lemma version_key_two (r1 r2 : string) (z1 z2 : Z) :
  is_digit_run r1 = true → is_digit_run r2 = true →
  Py.int r1 = Ok z1 → Py.int r2 = Ok z2 →
  version_key (r1 +:+ "." +:+ r2) = Ok [z1; z2; 0].
Proof.
  intros H1 H2 Hz1 Hz2.
  unfold version_key. rewrite split_char_first. simpl_bind.
  rewrite <- (append_empty_r (r1 +:+ "." +:+ r2)) at 1.
  rewrite before_append by by apply dotted_no_a.
  rewrite append_empty_r, !append_assoc.
  rewrite (findall_digits_run r1) by done.
  rewrite append_String, append_empty_l. cbn [Py.findall_digits].
  change (Py.is_digit ".") with false. cbv iota.
  rewrite (findall_digits_run r2) by done.
  change (Py.findall_digits ".0.0") with ["0"; "0"]%string.
  cbn [map_r]. rewrite Hz1, Hz2. by simpl_bind.
Qed.

Lemma int_digit_run_nonneg (r : string) (z : Z) :
  is_digit_run r = true → Py.int r = Ok z → 0 ≤ z.
Proof.
  intros [Hne Hr]%digit_run_spec Hz.
  destruct (int_digit_run r Hne Hr) as (z' & Hpos & Hz'). rewrite Hz in Hz'.
  destruct (_ <=? _); by simplify_eq.
Qed.

Lemma version_chars_no (c : ascii) (s : string) :
  version_char c = false → Py.all_chars version_char s = true →
  Py.contains c s = false.
Proof. apply all_chars_contains. Qed.

Lemma digit_run_no_dot (r : string) :
  is_digit_run r = true → Py.contains "." r = false.
Proof.
  intros [_ H]%digit_run_spec. by apply (all_chars_contains Py.is_digit).
Qed.

Lemma build_cmp_bound (key : list Z) (oper tok : string) (v : list Z) :
  oper = ">=" ∨ oper = "<=" →
  tok ≠ "" → Py.all_chars version_char tok = true →
  version_key tok = Ok v →
  build_or key (oper +:+ tok) = Ok [Cmp key oper v].
Proof.
  intros Ho Hne Htok Hv. unfold build_or.
  rewrite split_no_separator.
  - cbn [map_r]. unfold build_cmp. rewrite findall_clause_bound by done.
    simpl Py.first. simpl_bind. rewrite Hv. simpl_bind.
    by destruct Ho as [-> | ->].
  - rewrite contains_append, (version_chars_no "|" tok) by done.
    by destruct Ho as [-> | ->].
Qed.

Lemma py_eval_bounds (key lo hi : list Z) :
  py_eval [[Cmp key ">=" lo]; [Cmp key "<=" hi]]
  = Ok (Py.tuple_le lo key && Py.tuple_le key hi).
Proof.
  assert (eval_cmp (Cmp key ">=" lo) = Ok (Py.tuple_le lo key)) as Hge
    by reflexivity.
  assert (eval_cmp (Cmp key "<=" hi) = Ok (Py.tuple_le key hi)) as Hle
    by reflexivity.
  unfold py_eval. rewrite bool_decide_eq_false_2 by done.
  match goal with
  | |- (if ?b then _ else _) = _ => replace b with true by (by vm_compute)
  end.
  cbn [eval_and eval_or]. rewrite Hge. simpl_bind.
  destruct (Py.tuple_le lo key); simpl_bind; [|done].
  rewrite Hle. simpl_bind. by destruct (Py.tuple_le key hi).
Qed.

(** A wildcard after two numbers [a.b] is satisfied by the versions whose
    key lies between [(a, b, 0)] and [(a, b + 1, 0)], both included. *)
Lemma check_version_wildcard_two (r1 r2 pkg_ver : string) (z1 z2 : Z)
    (key : list Z) :
  is_digit_run r1 = true → is_digit_run r2 = true →
  Py.int r1 = Ok z1 → Py.int r2 = Ok z2 →
  Py.count_digits r2 < Py.max_str_digits →
  version_key pkg_ver = Ok key →
  check_version pkg_ver [r1 +:+ "." +:+ r2 +:+ ".*"]
  = Ok (Py.tuple_le [z1; z2; 0] key && Py.tuple_le key [z1; z2 + 1; 0]).
Proof.
  intros H1 H2 Hz1 Hz2 Hlim Hkey.
  pose proof (int_digit_run_nonneg r1 z1 H1 Hz1) as Hp1.
  pose proof (int_digit_run_nonneg r2 z2 H2 Hz2) as Hp2.
  destruct (int_formats r1 z1 Hz1) as [s1 Ht1].
  destruct (str_of_int_returns (z2 + 1)) as [s2 Ht2].
  { apply int_bound in Hz2 as [Hb [? _]].
    apply Z.le_lt_trans with (10 ^ Py.count_digits r2); [lia|].
    apply Z.pow_lt_mono_r; lia. }
  set (val := r1 +:+ "." +:+ r2).
  set (hi := s1 +:+ "." +:+ s2).
  assert (Py.all_chars version_char val = true) as Hval
    by by apply dotted_version_chars.
  assert (is_digit_run s1 = true) as Hs1
    by by apply (str_of_int_digit_run z1).
  assert (is_digit_run s2 = true) as Hs2
    by (apply (str_of_int_digit_run (z2 + 1)); [lia | done]).
  assert (Py.all_chars version_char (hi +:+ "a0") = true) as Hhi.
  { rewrite all_chars_append. unfold hi. by rewrite dotted_version_chars. }
  assert (val ≠ "") as Hvne.
  { unfold val. apply digit_run_spec in H1 as [? _]. by destruct r1. }
  assert (hi +:+ "a0" ≠ "") as Hhne.
  { unfold hi. apply digit_run_spec in Hs1 as [? _]. by destruct s1. }
  assert (expand_wildcard (val +:+ ".*")
          = Ok ((">=" +:+ val) +:+ String "," ("<=" +:+ hi +:+ "a0"))) as Hex.
  { unfold expand_wildcard.
    rewrite wildcard_sub_dot_star by by apply version_chars_no.
    assert (Py.split "." val = [r1; r2]) as ->.
    { unfold val. change ("." +:+ r2) with (String "." r2).
      apply split_two; by apply digit_run_no_dot. }
    cbn [map_r]. rewrite Hz1, Hz2. simpl_bind. cbn [incr_last]. simpl_bind.
    cbn [map_r]. rewrite Ht1, Ht2. simpl_bind.
    first [done | by rewrite append_assoc]. }
  assert (version_key val = Ok [z1; z2; 0]) as Hk1 by by apply version_key_two.
  assert (version_key (hi +:+ "a0") = Ok [z1; z2 + 1; 0]) as Hk2.
  { change "a0" with ("a" +:+ "0").
    rewrite version_key_suffix by by apply dotted_no_a.
    apply version_key_two; try done;
      [apply (int_str_of_int z1) | apply (int_str_of_int (z2 + 1))];
      first [done | lia]. }
  unfold check_version, expand_wildcards. rewrite Hkey. simpl_bind.
  replace (r1 +:+ "." +:+ r2 +:+ ".*") with (val +:+ ".*")
    by (unfold val; by rewrite !append_assoc).
  cbn [map_r]. rewrite Hex. simpl_bind. cbn [check_specs].
  unfold build_expr. rewrite split_two.
  - cbn [map_r].
    rewrite (build_cmp_bound key ">=" val [z1; z2; 0]) by auto.
    rewrite (build_cmp_bound key "<=" (hi +:+ "a0") [z1; z2 + 1; 0]) by auto.
    simpl_bind. rewrite py_eval_bounds. simpl_bind.
    by destruct (Py.tuple_le [z1; z2; 0] key), (Py.tuple_le key [z1; z2 + 1; 0]).
  - by rewrite contains_append, (version_chars_no "," val).
  - by rewrite contains_append, (version_chars_no "," (hi +:+ "a0")).
Qed.

(** ** Companions *)

Lemma get_supported_versions_missing_companion
    (set_list : gset string → list string) (idx : conda_index)
    (platform r_base pkg : string) (vers : list string) :
  enumerates set_list → pkg ∈ companions →
  pkg_vers_of idx platform r_base pkg = [] →
  get_supported_versions set_list idx platform r_base = Ok vers →
  vers = [].
Proof.
  intros Hen Hpkg Hnone Hv. destruct vers as [|ver vers]; [done|]. exfalso.
  assert (is_supported idx platform r_base ver = true) as Hs.
  { apply (get_supported_versions_Ok set_list idx platform r_base _ Hen Hv).
    left. }
  unfold is_supported in Hs. apply andb_prop in Hs as [_ Hs].
  rewrite forallb_forall in Hs. specialize (Hs pkg).
  rewrite Hnone in Hs. unfold accepts, check_version in Hs.
  specialize (Hs (proj1 (list_elem_of_In _ _) Hpkg)).
  by destruct (version_key ver).
Qed.

Lemma collect_pkg_vers_length (r_base : string) (out : list package_record) :
  ∃ pkg_vers, collect_pkg_vers r_base out = Ok pkg_vers
    ∧ length pkg_vers
      = length (List.filter
                  (λ item, existsb (Py.startswith (r_base +:+ "-base"))
                             (depends item)) out).
Proof.
  induction out as [|item out (pkg_vers & IH & Hlen)]; [by exists []|].
  cbn [collect_pkg_vers List.filter].
  assert (∀ (p : string → bool) l,
            existsb p l = match List.filter p l with [] => false | _ => true end)
    as Hex.
  { intros p l. induction l as [|x l IHl]; [done|]. simpl.
    destruct (p x); [done|]. by rewrite IHl. }
  rewrite Hex.
  destruct (List.filter _ (depends item)) as [|rver ?].
  - by exists pkg_vers.
  - destruct (last_returns _ (split_nonempty " "
      (if bool_decide (rver = "mro-base") then "mro-base ==3.4.3" else rver)))
      as [tok ->].
    simpl_bind. rewrite IH. simpl_bind. exists (tok :: pkg_vers).
    split; [done|]. simpl. by rewrite Hlen.
Qed.

Lemma check_version_bare_r_base (pkg_ver : string) (key : list Z) :
  version_key pkg_ver = Ok key →
  check_version pkg_ver ["r-base"] = Ok true.
Proof.
  intros Hkey. unfold check_version. rewrite Hkey.
  apply version_key_Ok in Hkey as (_ & Hpos & Hlen).
  simpl_bind.
  assert (expand_wildcards ["r-base"] = Ok ["r-base"]) as -> by reflexivity.
  simpl_bind. cbn [check_specs].
  assert (build_expr key "r-base" = Ok [[Cmp key ">=" [0; 0]]]) as ->
    by reflexivity.
  simpl_bind.
  assert (py_eval [[Cmp key ">=" [0; 0]]] = Ok (Py.tuple_le [0; 0] key)) as ->.
  { unfold py_eval. rewrite bool_decide_eq_false_2 by done.
    match goal with
    | |- (if ?b then _ else _) = _ => replace b with true by (by vm_compute)
    end.
    cbn [eval_and eval_or].
    assert (eval_cmp (Cmp key ">=" [0; 0]) = Ok (Py.tuple_le [0; 0] key)) as ->
      by reflexivity.
    simpl_bind. by destruct (Py.tuple_le [0; 0] key). }
  simpl_bind. rewrite tuple_le_zero; [done | done |].
  destruct (any_chars _ _); [lia | by subst].
Qed.

Lemma check_version_mro_pin (pkg_ver : string) (key : list Z) :
  version_key pkg_ver = Ok key →
  check_version pkg_ver ["==3.4.3"] = Ok (Py.tuple_eq key [3; 4; 3]).
Proof.
  intros Hkey. unfold check_version. rewrite Hkey. simpl_bind.
  assert (expand_wildcards ["==3.4.3"] = Ok ["==3.4.3"]) as -> by reflexivity.
  simpl_bind. cbn [check_specs].
  assert (build_expr key "==3.4.3" = Ok [[Cmp key "==" [3; 4; 3]]]) as ->
    by reflexivity.
  simpl_bind.
  assert (py_eval [[Cmp key "==" [3; 4; 3]]] = Ok (Py.tuple_eq key [3; 4; 3]))
    as ->.
  { unfold py_eval. rewrite bool_decide_eq_false_2 by done.
    match goal with
    | |- (if ?b then _ else _) = _ => replace b with true by (by vm_compute)
    end.
    cbn [eval_and eval_or].
    assert (eval_cmp (Cmp key "==" [3; 4; 3]) = Ok (Py.tuple_eq key [3; 4; 3]))
      as -> by reflexivity.
    simpl_bind. by destruct (Py.tuple_eq key [3; 4; 3]). }
  simpl_bind. by destruct (Py.tuple_eq key [3; 4; 3]).
Qed.

(** * Further properties of the code *)

(** X1. When the resolver returns, the list it returns holds exactly the
    versions of the base package that pass the floor [3.4.3] and that each of
    the three companions accepts. *)
Theorem X1_supported_versions_characterised
    (set_list : gset string → list string) (idx : conda_index)
    (platform r_base : string) (vers : list string) :
  enumerates set_list →
  get_supported_versions set_list idx platform r_base = Ok vers →
  ∀ ver, ver ∈ vers ↔ is_supported idx platform r_base ver = true.
Proof. apply get_supported_versions_Ok. Qed.

Lemma X1_supported_versions_characterised_witness :
  "4.0.0" ∈ ["3.5.0"; "3.6.1"]
  ↔ is_supported sample_index "linux-64" "r" "4.0.0" = true.
Proof.
  apply (X1_supported_versions_characterised elements sample_index
           "linux-64" "r").
  - intros s. reflexivity.
  - by vm_compute.
Defined.

(** X2. The list that the resolver returns is sorted as strings and has no
    version twice. *)
Theorem X2_supported_versions_sorted
    (set_list : gset string → list string) (idx : conda_index)
    (platform r_base : string) (vers : list string) :
  enumerates set_list →
  get_supported_versions set_list idx platform r_base = Ok vers →
  Sorted String.le vers ∧ NoDup vers.
Proof. apply get_supported_versions_sorted. Qed.

Lemma X2_supported_versions_sorted_witness :
  Sorted String.le ["3.5.0"; "3.6.1"] ∧ NoDup ["3.5.0"; "3.6.1"].
Proof.
  apply (X2_supported_versions_sorted elements sample_index "linux-64" "r").
  - intros s. reflexivity.
  - by vm_compute.
Defined.

(** X3. The resolver iterates over a copy of the set, so
    [r_base_vers.remove(ver)] always finds its element: whatever the resolver
    raises, it is not [KeyError]. *)
Theorem X3_resolver_never_KeyError
    (set_list : gset string → list string) (idx : conda_index)
    (platform r_base : string) (e : exn) :
  enumerates set_list →
  get_supported_versions set_list idx platform r_base = Raise e →
  e ≠ KeyError.
Proof. apply get_supported_versions_Raise. Qed.

Lemma X3_resolver_never_KeyError_witness : ValueError ≠ KeyError.
Proof.
  apply (X3_resolver_never_KeyError elements prerelease_index "linux-64" "r").
  - intros s. reflexivity.
  - by vm_compute.
Defined.

(** X4. A companion none of whose records depends on the base package
    leaves no version: the resolver, when it returns, returns the empty
    list. *)
Theorem X4_missing_companion_empties
    (set_list : gset string → list string) (idx : conda_index)
    (platform r_base pkg : string) (vers : list string) :
  enumerates set_list → pkg ∈ companions →
  pkg_vers_of idx platform r_base pkg = [] →
  get_supported_versions set_list idx platform r_base = Ok vers →
  vers = [].
Proof. apply get_supported_versions_missing_companion. Qed.

Lemma X4_missing_companion_empties_witness :
  get_supported_versions elements mro_index "linux-64" "mro" = Ok []
  ∧ records_of mro_index "linux-64" "r::mro-base" = [record "3.5.1" []].
Proof.
  split; [|reflexivity].
  destruct (get_supported_versions elements mro_index "linux-64" "mro")
    as [vers|e] eqn:E; [|by vm_compute in E].
  f_equal.
  apply (X4_missing_companion_empties elements mro_index "linux-64" "mro"
           "r::r-httr").
  - intros s. reflexivity.
  - apply (bool_decide_unpack _). by vm_compute.
  - reflexivity.
  - exact E.
Defined.

(** X5. [check_version] raises [ValueError] whenever some spec of the
    list ends in a wildcard whose prefix is not a dot-separated list of
    integer literals, whatever the version and wherever the spec stands: the
    wildcards of the whole list are expanded before any spec is evaluated.
    For a version without a run of more than 4300 digits before its first
    [a] and specs of fewer than 4300 digits each, that is the only way in
    which it raises [ValueError]. *)
Theorem X5_check_version_ValueError (pkg_ver : string) (specs : list string) :
  (forallb wildcard_ok specs = false →
   check_version pkg_ver specs = Raise ValueError)
  ∧ (digit_runs_ok (before "a" pkg_ver) = true →
     forallb (λ spec, Py.count_digits spec <? Py.max_str_digits) specs = true →
     (check_version pkg_ver specs = Raise ValueError
      ↔ forallb wildcard_ok specs = false)).
Proof.
  split; [apply check_version_wildcard_not_ok|].
  intros Hv Hlim. exact (check_version_ValueError pkg_ver specs Hv Hlim).
Qed.

Lemma X5_check_version_ValueError_witness :
  check_version "3.5.0" [">=3"; "3.x.*"] = Raise ValueError
  ∧ (check_version "3.5.0" ["<3"; "3.5.*"] = Raise ValueError
     ↔ forallb wildcard_ok ["<3"; "3.5.*"] = false).
Proof.
  split.
  - destruct (X5_check_version_ValueError "3.5.0" [">=3"; "3.x.*"]) as [H _].
    apply H. reflexivity.
  - destruct (X5_check_version_ValueError "3.5.0" ["<3"; "3.5.*"]) as [_ H].
    apply H; reflexivity.
Defined.

(** X6. The specs are tried in order and the first that holds ends the
    evaluation: once a list is answered with [True], so is the list with
    more specs after it, as long as their wildcards expand; and specs that
    are answered with [False] can be dropped from the front. *)
Theorem X6_check_version_short_circuit (pkg_ver : string)
    (specs1 specs2 : list string) (ok : bool) :
  check_version pkg_ver specs1 = Ok ok →
  returns (expand_wildcards specs2) →
  check_version pkg_ver (specs1 ++ specs2)
  = if ok then Ok true else check_version pkg_ver specs2.
Proof.
  intros H1 H2. destruct ok.
  - by apply check_version_app_true.
  - by apply check_version_app_false.
Qed.

Lemma X6_check_version_short_circuit_witness :
  check_version "3.5.0" ([">=3.4.3"] ++ ["<<1"; "3.*"]) = Ok true.
Proof.
  apply (X6_check_version_short_circuit "3.5.0" [">=3.4.3"] ["<<1"; "3.*"] true).
  - reflexivity.
  - eexists. by vm_compute.
Defined.

(** X7. Nothing from the first [a] of a version on is read: a version and
    the same version with a suffix that begins with [a] have the same key,
    and satisfy the same constraints. *)
Theorem X7_version_key_ignores_suffix (val suffix : string) :
  Py.contains "a" val = false →
  version_key (val +:+ "a" +:+ suffix) = version_key val
  ∧ ∀ specs, check_version (val +:+ "a" +:+ suffix) specs
             = check_version val specs.
Proof.
  intros H. split; [by apply version_key_suffix|].
  intros specs. unfold check_version. by rewrite version_key_suffix.
Qed.

Lemma X7_version_key_ignores_suffix_witness :
  version_key ("1.3.0" +:+ "a" +:+ "lpha2") = version_key "1.3.0"
  ∧ ∀ specs, check_version ("1.3.0" +:+ "a" +:+ "lpha2") specs
             = check_version "1.3.0" specs.
Proof. apply (X7_version_key_ignores_suffix "1.3.0" "lpha2"). reflexivity. Defined.

(** X8. The key of a version that begins with three dotted numbers is
    made of these three numbers; what follows them, a fourth number
    included, does not change the key. It is converted all the same, up to the
    first [a]: a run of more than 4300 digits there makes [version_key] raise
    [ValueError]. *)
Theorem X8_version_key_three_numbers (r1 r2 r3 rest : string) (z1 z2 z3 : Z) :
  is_digit_run r1 = true → is_digit_run r2 = true → is_digit_run r3 = true →
  Py.digit_ahead rest = false →
  Py.int r1 = Ok z1 → Py.int r2 = Ok z2 → Py.int r3 = Ok z3 →
  version_key (r1 +:+ "." +:+ r2 +:+ "." +:+ r3 +:+ rest)
  = if digit_runs_ok (before "a" rest) then Ok [z1; z2; z3]
    else Raise ValueError.
Proof. apply version_key_three. Qed.

Lemma X8_version_key_three_numbers_witness :
  version_key ("3" +:+ "." +:+ "4" +:+ "." +:+ "3" +:+ ".1") = Ok [3; 4; 3]
  ∧ version_key ("3" +:+ "." +:+ "4" +:+ "." +:+ "3" +:+ "." +:+ long_run)
    = Raise ValueError.
Proof.
  split.
  - apply (X8_version_key_three_numbers "3" "4" "3" ".1" 3 4 3); reflexivity.
  - rewrite (X8_version_key_three_numbers "3" "4" "3" ("." +:+ long_run) 3 4 3);
      [by vm_compute | reflexivity ..].
Defined.

(** X9. Wildcard expansion keeps the number of specs, and what it returns
    is left unchanged by a second expansion. *)
Theorem X9_expand_wildcards_idempotent (specs especs : list string) :
  expand_wildcards specs = Ok especs →
  length especs = length specs ∧ expand_wildcards especs = Ok especs.
Proof.
  intros H. split; [by apply expand_wildcards_length|].
  by apply (expand_wildcards_idempotent specs).
Qed.

Lemma X9_expand_wildcards_idempotent_witness :
  length [">=1.2,<=1.3a0"; ">=3"] = length ["1.2.*"; ">=3"]
  ∧ expand_wildcards [">=1.2,<=1.3a0"; ">=3"] = Ok [">=1.2,<=1.3a0"; ">=3"].
Proof.
  apply (X9_expand_wildcards_idempotent ["1.2.*"; ">=3"]). reflexivity.
Defined.

(** X10. A list of specs without a star passes through the wildcard
    expansion unchanged, whatever else the specs hold. *)
Theorem X10_expand_wildcards_no_star (specs : list string) :
  forallb (λ spec, negb (Py.contains "*" spec)) specs = true →
  expand_wildcards specs = Ok specs.
Proof. apply expand_wildcards_no_star. Qed.

Lemma X10_expand_wildcards_no_star_witness :
  expand_wildcards [">=3.4.3,<4"; ""; "x y"] = Ok [">=3.4.3,<4"; ""; "x y"].
Proof.
  apply (X10_expand_wildcards_no_star [">=3.4.3,<4"; ""; "x y"]). reflexivity.
Defined.

(** X11. A wildcard after two numbers [a.b], the second of fewer than
    4300 digits, is satisfied exactly by the versions whose key lies between
    [(a, b, 0)] and [(a, b + 1, 0)], both bounds included. *)
Theorem X11_wildcard_two_numbers (r1 r2 pkg_ver : string) (z1 z2 : Z)
    (key : list Z) :
  is_digit_run r1 = true → is_digit_run r2 = true →
  Py.int r1 = Ok z1 → Py.int r2 = Ok z2 →
  Py.count_digits r2 < Py.max_str_digits →
  version_key pkg_ver = Ok key →
  check_version pkg_ver [r1 +:+ "." +:+ r2 +:+ ".*"]
  = Ok (Py.tuple_le [z1; z2; 0] key && Py.tuple_le key [z1; z2 + 1; 0]).
Proof. apply check_version_wildcard_two. Qed.

Lemma X11_wildcard_two_numbers_witness :
  check_version "3.6.0" ["3" +:+ "." +:+ "5" +:+ ".*"]
  = Ok (Py.tuple_le [3; 5; 0] [3; 6; 0] && Py.tuple_le [3; 6; 0] [3; 5 + 1; 0]).
Proof.
  apply (X11_wildcard_two_numbers "3" "5" "3.6.0" 3 5 [3; 6; 0]); reflexivity.
Defined.

(** X12. The sampling block never raises, for any list and any number
    drawn. What it returns is taken from the list and has at most three
    elements; for a list that is not empty it holds the first and the last
    element. *)
Theorem X12_sample_total (rnd : nat) (info : list string) :
  ∃ subset, sample rnd info = Ok subset
    ∧ subset ⊆ list_to_set info
    ∧ (size subset ≤ 3)%nat
    ∧ (info = [] ∧ subset = ∅
       ∨ ∃ oldest newest, head info = Some oldest
           ∧ list.last info = Some newest
           ∧ oldest ∈ subset ∧ newest ∈ subset).
Proof.
  destruct (sample_total rnd info) as (subset & Hs & Hsub & Hsize & Hends).
  exists subset. split; [done|]. split; [|split; [done|]].
  - intros x Hx. apply elem_of_list_to_set. by apply Hsub.
  - destruct info as [|x info].
    + left. split; [done|]. by injection Hs as <-.
    + right. destruct (list.last (x :: info)) as [z|] eqn:Hl.
      * exists x, z. destruct (Hends x z) as [??]; done.
      * by apply last_None in Hl.
Qed.

(** X13. A template without a line that begins with [envlist] is copied
    as it is, and no [envlist] block is written; the generated environments
    follow. *)
Theorem X13_emit_without_envlist (pkg : string) (tox_in : list string)
    (subset : gmap string (gset string)) :
  forallb (λ line, negb (Py.startswith "envlist" line)) tox_in = true →
  emit pkg tox_in subset
  = tox_in ++ (item ← generated_out pkg subset ; [item; nl]).
Proof. intros H. unfold emit. by rewrite copy_template_no_envlist. Qed.

Lemma X13_emit_without_envlist_witness :
  emit "conda" ["[tox]" +:+ nl; "skipsdist = true" +:+ nl] ∅
  = ["[tox]" +:+ nl; "skipsdist = true" +:+ nl]
    ++ (item ← generated_out "conda" ∅ ; [item; nl]).
Proof.
  apply (X13_emit_without_envlist "conda"
           ["[tox]" +:+ nl; "skipsdist = true" +:+ nl] ∅).
  reflexivity.
Defined.

(** X14. The copying loop, one block at a time: the lines before an
    [envlist] line are copied, the [envlist] line and the lines after it that
    begin with a space are replaced by the block, the line that ends them is
    copied without being looked at, even when it begins with [envlist]
    itself, and the loop goes on with the rest. *)
Theorem X14_copy_template_step (block pre conts rest : list string)
    (e nxt : string) :
  forallb (λ line, negb (Py.startswith "envlist" line)) pre = true →
  Py.startswith "envlist" e = true →
  forallb (Py.startswith " ") conts = true →
  Py.startswith " " nxt = false →
  copy_template block None (pre ++ e :: conts ++ nxt :: rest)
  = pre ++ block ++ nxt :: copy_template block None rest.
Proof. apply copy_template_step. Qed.

Lemma X14_copy_template_step_witness :
  copy_template ["envlist =" +:+ nl; "    empty" +:+ nl] None
    ([] ++ ("envlist = a" +:+ nl) :: [] ++ ("envlist = b" +:+ nl) :: [])
  = [] ++ ["envlist =" +:+ nl; "    empty" +:+ nl]
    ++ ("envlist = b" +:+ nl)
       :: copy_template ["envlist =" +:+ nl; "    empty" +:+ nl] None [].
Proof.
  apply (X14_copy_template_step ["envlist =" +:+ nl; "    empty" +:+ nl]
           [] [] [] ("envlist = a" +:+ nl) ("envlist = b" +:+ nl));
    reflexivity.
Defined.

(** X15. When the [envlist] line and its continuation lines end the
    template, the last of them, the [envlist] line itself if nothing follows
    it, is written once more after the generated block. *)
Theorem X15_envlist_block_at_end (pkg : string)
    (subset : gmap string (gset string)) (pre conts : list string)
    (e : string) :
  forallb (λ line, negb (Py.startswith "envlist" line)) pre = true →
  Py.startswith "envlist" e = true →
  forallb (Py.startswith " ") conts = true →
  emit pkg (pre ++ e :: conts) subset
  = (pre ++ envlist_block (generated_envlist pkg subset)
         ++ [default e (list.last conts)])
    ++ (item ← generated_out pkg subset ; [item; nl]).
Proof.
  intros Hpre He Hc. unfold emit. by rewrite copy_template_end.
Qed.

Lemma X15_envlist_block_at_end_witness :
  emit "conda" (["[tox]" +:+ nl] ++ ("envlist = py" +:+ nl) :: []) ∅
  = (["[tox]" +:+ nl] ++ envlist_block (generated_envlist "conda" ∅)
       ++ [default ("envlist = py" +:+ nl) (list.last [])])
    ++ (item ← generated_out "conda" ∅ ; [item; nl]).
Proof.
  apply (X15_envlist_block_at_end "conda" ∅ ["[tox]" +:+ nl] []
           ("envlist = py" +:+ nl)); reflexivity.
Defined.

(** X16. The sections that the generated part opens and the names of
    [envlist] agree: a generated line begins with [[testenv:] exactly when it
    is the header of [empty] or the header of a name listed in [envlist]. *)
Theorem X16_sections_match_envlist (pkg : string)
    (subset : gmap string (gset string)) (line : string) :
  line ∈ generated_out pkg subset ∧ Py.startswith "[testenv:" line = true
  ↔ line = section_header "empty"
    ∨ ∃ name, name ∈ generated_envlist pkg subset ∧ line = section_header name.
Proof. exact (generated_sections pkg subset line). Qed.

(** X17. Two versions of a family get the same environment name exactly
    when they read the same once their dots are removed; so ["3.5.10"] and
    ["3.51.0"] share one name. *)
Theorem X17_env_name_collision (base pkg ver ver' : string) :
  (env_name base ver pkg = env_name base ver' pkg
   ↔ Py.remove_char "." ver = Py.remove_char "." ver')
  ∧ env_name base "3.5.10" pkg = env_name base "3.51.0" pkg.
Proof.
  split; [exact (env_name_eq base pkg ver ver')|].
  by apply (env_name_eq base pkg "3.5.10" "3.51.0").
Qed.


(** X19. A completed query for [channel::name] is answered with the
    records that the answer holds under [name], the name without its
    channel, and with no record when the answer has no such key. *)
Theorem X19_conda_search_qualified (idx : conda_index)
    (platform channel name : string)
    (out : gmap string (list package_record)) :
  Py.contains ":" channel = false → Py.contains ":" name = false →
  idx platform (channel +:+ "::" +:+ name) = Completed out →
  conda_search idx platform (channel +:+ "::" +:+ name)
  = Ok (default [] (out !! name)).
Proof. apply conda_search_qualified. Qed.

Lemma X19_conda_search_qualified_witness :
  conda_search sample_index "linux-64" ("r" +:+ "::" +:+ "r-jsonlite")
  = Ok (default []
          (({[ "r-jsonlite" := [record "1.6" ["r-base"]] ]}
            : gmap string (list package_record)) !! "r-jsonlite")).
Proof.
  apply (X19_conda_search_qualified sample_index "linux-64" "r" "r-jsonlite");
    reflexivity.
Defined.

(** X20. [get_platform] does not depend on the case of the names that the
    host reports, and returns [unknown] or one of the four platforms that the
    command line accepts. *)
Theorem X20_get_platform (system machine : string) :
  get_platform (Py.lower system) (Py.lower machine)
  = get_platform system machine
  ∧ (get_platform system machine = "unknown"
     ∨ get_platform system machine ∈ platform_choices).
Proof.
  split.
  - unfold get_platform. by rewrite !lower_idempotent.
  - unfold get_platform, platform_choices.
    repeat case_match; rewrite ?elem_of_cons; auto 10.
Qed.

(** X21. A dependency on the base package without a constraint: for
    [r-base] it is collected as the bare name, which every version satisfies;
    for [mro-base] it is collected as [==3.4.3], which the versions with the
    key [(3, 4, 3)] satisfy and no other. *)
Theorem X21_unconstrained_dependency (pkg_ver ver : string) (key : list Z) :
  version_key pkg_ver = Ok key →
  collect_pkg_vers "r" [record ver ["r-base"]] = Ok ["r-base"]
  ∧ check_version pkg_ver ["r-base"] = Ok true
  ∧ collect_pkg_vers "mro" [record ver ["mro-base"]] = Ok ["==3.4.3"]
  ∧ check_version pkg_ver ["==3.4.3"] = Ok (Py.tuple_eq key [3; 4; 3]).
Proof.
  intros Hkey. split; [done|].
  split; [by eapply check_version_bare_r_base|].
  split; [done|]. by apply check_version_mro_pin.
Qed.

Lemma X21_unconstrained_dependency_witness :
  collect_pkg_vers "r" [record "1.6" ["r-base"]] = Ok ["r-base"]
  ∧ check_version "3.5.1" ["r-base"] = Ok true
  ∧ collect_pkg_vers "mro" [record "1.6" ["mro-base"]] = Ok ["==3.4.3"]
  ∧ check_version "3.5.1" ["==3.4.3"] = Ok (Py.tuple_eq [3; 5; 1] [3; 4; 3]).
Proof.
  apply (X21_unconstrained_dependency "3.5.1" "1.6" [3; 5; 1]). reflexivity.
Defined.

(** X22. Collecting the constraints of a companion never raises, and
    gives one constraint for each record that has a dependency beginning with
    the name of the base package; the other records give none. *)
Theorem X22_collect_pkg_vers_total (r_base : string)
    (out : list package_record) :
  ∃ pkg_vers, collect_pkg_vers r_base out = Ok pkg_vers
    ∧ length pkg_vers
      = length (List.filter
                  (λ item, existsb (Py.startswith (r_base +:+ "-base"))
                             (depends item)) out).
Proof. apply collect_pkg_vers_length. Qed.
